(** * CPVRChannelGroup: sort, renumber, reconcile and persist

    A shallow embedding of [xbmc/pvr/channels/PVRChannelGroup.cpp] and of
    [xbmc/pvr/channels/PVRChannelGroupMember.h].

    The C++ keeps every group member behind a [std::shared_ptr]; the same
    member object is reachable from the ordered vector [m_sortedMembers]
    and from the keyed map [m_members], and a lookup that misses hands out
    the one static [EmptyMember] object.  The embedding therefore has an
    explicit store of member objects ([heap]) addressed by pointers, and
    both views of a group hold pointers into it. *)

From stdpp Require Import gmap strings list fin_maps sorting.
From Stdlib Require Import ZArith Lia.

Local Open Scope Z_scope.

(** ** Machine integers *)

(** [unsigned int] arithmetic wraps modulo 2^32. *)
Definition UINT_MOD : Z := 2 ^ 32.
Definition uint32 (z : Z) : Z := z mod UINT_MOD.

(** ** CPVRChannelNumber *)

(** Modelled from the spec: [PVRChannelNumber.h] is not part of the source.
    The spec gives the value type as a pair (major, sub) of unsigned
    integers, [IsValid()] "true iff major > 0", structural equality and the
    lexicographic order (major, then sub). *)
Record CPVRChannelNumber := mkChannelNumber {
  m_iChannelNumber : Z;
  m_iSubChannelNumber : Z
}.

#[global] Instance CPVRChannelNumber_eq_dec : EqDecision CPVRChannelNumber.
Proof. solve_decision. Defined.

(** The two-argument constructor takes [unsigned int]s. *)
Definition ChannelNumber (major sub : Z) : CPVRChannelNumber :=
  mkChannelNumber (uint32 major) (uint32 sub).

(** The default constructor: (0, 0). *)
Definition ChannelNumber0 : CPVRChannelNumber := mkChannelNumber 0 0.

Definition GetChannelNumber (n : CPVRChannelNumber) : Z := m_iChannelNumber n.
Definition GetSubChannelNumber (n : CPVRChannelNumber) : Z := m_iSubChannelNumber n.
Definition IsValid (n : CPVRChannelNumber) : bool := 0 <? m_iChannelNumber n.

(** [operator==], [operator!=] and [operator<]. *)
Definition number_eqb (a b : CPVRChannelNumber) : bool := bool_decide (a = b).
Definition number_neb (a b : CPVRChannelNumber) : bool := negb (number_eqb a b).
Definition number_ltb (a b : CPVRChannelNumber) : bool :=
  if m_iChannelNumber a =? m_iChannelNumber b
  then m_iSubChannelNumber a <? m_iSubChannelNumber b
  else m_iChannelNumber a <? m_iChannelNumber b.

(** ** CPVRChannel *)

(** Modelled from the spec: [PVRChannel.h] is not part of the source.  Only
    the attributes this file reads are kept.  The spec keys a member by
    (backend id, channel id), which is what [StorageId()] returns, and
    identifies a channel by that backend-qualified identity, which is what
    [operator==] on channels compares. *)
Record CPVRChannel := mkChannel {
  m_iClientId : Z;
  m_iUniqueId : Z;
  m_iChannelId : Z;
  m_bIsHidden : bool;
  m_strChannelName : string
}.

#[global] Instance CPVRChannel_eq_dec : EqDecision CPVRChannel.
Proof. solve_decision. Defined.

Definition StorageId (c : CPVRChannel) : Z * Z := (m_iClientId c, m_iUniqueId c).
Definition ClientID (c : CPVRChannel) : Z := m_iClientId c.
Definition ChannelID (c : CPVRChannel) : Z := m_iChannelId c.
Definition IsHidden (c : CPVRChannel) : bool := m_bIsHidden c.
Definition ChannelName (c : CPVRChannel) : string := m_strChannelName c.
Definition channel_eqb (a b : CPVRChannel) : bool :=
  bool_decide (StorageId a = StorageId b).

(** What stands for the pointee of a null [shared_ptr<CPVRChannel>].
    Dereferencing a null pointer is undefined in C++; the statements below
    that go through such a dereference assume the members of the group have
    a channel (see [members_have_channel]). *)
Definition null_channel : CPVRChannel := mkChannel 0 0 0 false "".

Definition deref_channel (c : option CPVRChannel) : CPVRChannel :=
  default null_channel c.

(** ** CPVRChannelGroupMember *)

Module CPVRChannelGroupMember.

Record t := mk {
  m_channel : option CPVRChannel;
  m_channelNumber : CPVRChannelNumber;
  m_clientChannelNumber : CPVRChannelNumber;
  m_iClientPriority : Z;
  m_iOrder : Z;
  m_bChanged : bool
}.

(** [CPVRChannelGroupMember() : m_bChanged(false) {}] *)
Definition empty : t := mk None ChannelNumber0 ChannelNumber0 0 0 false.

(** The five-argument constructor; [m_bChanged] keeps its initialiser
    [true]. *)
Definition create (channel : option CPVRChannel)
    (channelNumber : CPVRChannelNumber) (iClientPriority iOrder : Z)
    (clientChannelNumber : CPVRChannelNumber) : t :=
  mk channel channelNumber clientChannelNumber iClientPriority iOrder true.

Definition Channel (m : t) : option CPVRChannel := m_channel m.
Definition ChannelNumber (m : t) : CPVRChannelNumber := m_channelNumber m.
Definition ClientChannelNumber (m : t) : CPVRChannelNumber := m_clientChannelNumber m.
Definition ClientPriority (m : t) : Z := m_iClientPriority m.
Definition Order (m : t) : Z := m_iOrder m.

(** [void SetSaved() { m_bChanged = false; }] *)
Definition SetSaved (m : t) : t :=
  mk (m_channel m) (m_channelNumber m) (m_clientChannelNumber m)
     (m_iClientPriority m) (m_iOrder m) false.

(** Modelled from the spec: the setters are declared in the header and
    defined in [PVRChannelGroupMember.cpp], which is not part of the
    source.  The spec has a member "mutated in place by renumbering,
    priority refresh, and explicit setters" and tracking a dirty flag:
    a setter stores the value and marks the member dirty when the value
    is new. *)
Definition SetChannelNumber (m : t) (channelNumber : CPVRChannelNumber) : t :=
  if number_neb (m_channelNumber m) channelNumber
  then mk (m_channel m) channelNumber (m_clientChannelNumber m)
          (m_iClientPriority m) (m_iOrder m) true
  else m.

Definition SetClientChannelNumber (m : t) (clientChannelNumber : CPVRChannelNumber) : t :=
  if number_neb (m_clientChannelNumber m) clientChannelNumber
  then mk (m_channel m) (m_channelNumber m) clientChannelNumber
          (m_iClientPriority m) (m_iOrder m) true
  else m.

Definition SetClientPriority (m : t) (iClientPriority : Z) : t :=
  if bool_decide (m_iClientPriority m = iClientPriority)
  then m
  else mk (m_channel m) (m_channelNumber m) (m_clientChannelNumber m)
          iClientPriority (m_iOrder m) true.

Definition SetOrder (m : t) (iOrder : Z) : t :=
  if bool_decide (m_iOrder m = iOrder)
  then m
  else mk (m_channel m) (m_channelNumber m) (m_clientChannelNumber m)
          (m_iClientPriority m) iOrder true.

#[global] Instance eq_dec : EqDecision t.
Proof. solve_decision. Defined.

#[global] Instance inhabited : Inhabited t := populate empty.

End CPVRChannelGroupMember.

Module Member := CPVRChannelGroupMember.

(** ** The store of member objects *)

(** A [std::shared_ptr<CPVRChannelGroupMember>] is an address in the store.
    [std::make_shared] allocates at the end of the store. *)
Abbreviation ptr := nat (only parsing).
Abbreviation Heap := (list Member.t) (only parsing).

(** [CPVRChannelGroup::EmptyMember], the one static member every missed
    lookup returns, lives at address 0. *)
Definition EmptyMember : ptr := 0%nat.

Definition deref (h : Heap) (p : ptr) : Member.t := h !!! p.
Definition store (h : Heap) (p : ptr) (m : Member.t) : Heap := <[p := m]> h.
Definition make_shared (h : Heap) (m : Member.t) : ptr * Heap :=
  (length h, h ++ [m]).

(** The store every program starts from: only [EmptyMember] exists. *)
Definition initial_heap : Heap := [Member.empty].

(** ** The group object *)

(** Modelled from the spec: the group-type constants and
    [INVALID_GROUP_ID] are defined in [PVRChannelGroup.h], which is not
    part of the source.  The spec tells the "all channels" (internal) kind
    from the user-defined kind and calls an id "not yet persisted" when it
    is not positive; the values are the ones Kodi uses.  No statement
    below depends on the values beyond the kinds being distinct. *)
Definition PVR_GROUP_TYPE_DEFAULT : Z := 0.
Definition PVR_GROUP_TYPE_INTERNAL : Z := 1.
Definition PVR_GROUP_TYPE_USER_DEFINED : Z := 2.
Definition INVALID_GROUP_ID : Z := -1.

(** The fields of [CPVRChannelGroup] the modelled methods touch.
    [m_allChannelsGroup] is a pointer to another group, of which this file
    only ever reads the member map: the field holds that map.  The pointee
    is a different object from the group a method runs on. *)
Record CPVRChannelGroup := mkGroup {
  m_iGroupType : Z;
  m_iGroupId : Z;
  m_iPosition : Z;
  m_bLoaded : bool;
  m_bChanged : bool;
  m_bPreventSortAndRenumber : bool;
  m_bSyncChannelGroups : bool;
  m_bUsingBackendChannelOrder : bool;
  m_bUsingBackendChannelNumbers : bool;
  m_bStartGroupChannelNumbersFromOne : bool;
  m_path : bool * string;
  m_allChannelsGroup : gmap (Z * Z) ptr;
  m_sortedMembers : list ptr;
  m_members : gmap (Z * Z) ptr;
  m_failedClients : list Z
}.

(** Modelled from the spec: the member initialisers are in the header; the
    spec has a group "constructed empty".
    [CPVRChannelGroup(path, iGroupId, allChannelsGroup)]. *)
Definition new_group (path : bool * string) (iGroupId : Z)
    (allChannelsGroup : gmap (Z * Z) ptr) : CPVRChannelGroup :=
  mkGroup PVR_GROUP_TYPE_DEFAULT iGroupId 0 false false false false false false
          false path allChannelsGroup [] ∅ [].

Definition with_sortedMembers (g : CPVRChannelGroup) (l : list ptr) : CPVRChannelGroup :=
  mkGroup (m_iGroupType g) (m_iGroupId g) (m_iPosition g) (m_bLoaded g)
    (m_bChanged g) (m_bPreventSortAndRenumber g) (m_bSyncChannelGroups g)
    (m_bUsingBackendChannelOrder g) (m_bUsingBackendChannelNumbers g)
    (m_bStartGroupChannelNumbersFromOne g) (m_path g) (m_allChannelsGroup g)
    l (m_members g) (m_failedClients g).

Definition with_members (g : CPVRChannelGroup) (m : gmap (Z * Z) ptr) : CPVRChannelGroup :=
  mkGroup (m_iGroupType g) (m_iGroupId g) (m_iPosition g) (m_bLoaded g)
    (m_bChanged g) (m_bPreventSortAndRenumber g) (m_bSyncChannelGroups g)
    (m_bUsingBackendChannelOrder g) (m_bUsingBackendChannelNumbers g)
    (m_bStartGroupChannelNumbersFromOne g) (m_path g) (m_allChannelsGroup g)
    (m_sortedMembers g) m (m_failedClients g).

Definition with_failedClients (g : CPVRChannelGroup) (f : list Z) : CPVRChannelGroup :=
  mkGroup (m_iGroupType g) (m_iGroupId g) (m_iPosition g) (m_bLoaded g)
    (m_bChanged g) (m_bPreventSortAndRenumber g) (m_bSyncChannelGroups g)
    (m_bUsingBackendChannelOrder g) (m_bUsingBackendChannelNumbers g)
    (m_bStartGroupChannelNumbersFromOne g) (m_path g) (m_allChannelsGroup g)
    (m_sortedMembers g) (m_members g) f.

Definition with_bLoaded (g : CPVRChannelGroup) (b : bool) : CPVRChannelGroup :=
  mkGroup (m_iGroupType g) (m_iGroupId g) (m_iPosition g) b
    (m_bChanged g) (m_bPreventSortAndRenumber g) (m_bSyncChannelGroups g)
    (m_bUsingBackendChannelOrder g) (m_bUsingBackendChannelNumbers g)
    (m_bStartGroupChannelNumbersFromOne g) (m_path g) (m_allChannelsGroup g)
    (m_sortedMembers g) (m_members g) (m_failedClients g).

Definition with_bChanged (g : CPVRChannelGroup) (b : bool) : CPVRChannelGroup :=
  mkGroup (m_iGroupType g) (m_iGroupId g) (m_iPosition g) (m_bLoaded g)
    b (m_bPreventSortAndRenumber g) (m_bSyncChannelGroups g)
    (m_bUsingBackendChannelOrder g) (m_bUsingBackendChannelNumbers g)
    (m_bStartGroupChannelNumbersFromOne g) (m_path g) (m_allChannelsGroup g)
    (m_sortedMembers g) (m_members g) (m_failedClients g).

Definition with_bPreventSortAndRenumber (g : CPVRChannelGroup) (b : bool) : CPVRChannelGroup :=
  mkGroup (m_iGroupType g) (m_iGroupId g) (m_iPosition g) (m_bLoaded g)
    (m_bChanged g) b (m_bSyncChannelGroups g)
    (m_bUsingBackendChannelOrder g) (m_bUsingBackendChannelNumbers g)
    (m_bStartGroupChannelNumbersFromOne g) (m_path g) (m_allChannelsGroup g)
    (m_sortedMembers g) (m_members g) (m_failedClients g).

(** ** Collaborators *)

(** The settings this file reads through [CServiceBroker]. *)
Record CSettings := mkSettings {
  SETTING_PVRMANAGER_SYNCCHANNELGROUPS : bool;
  SETTING_PVRMANAGER_BACKENDCHANNELORDER : bool;
  SETTING_PVRMANAGER_USEBACKENDCHANNELNUMBERS : bool;
  SETTING_PVRMANAGER_USEBACKENDCHANNELNUMBERSALWAYS : bool;
  SETTING_PVRMANAGER_STARTGROUPCHANNELNUMBERSFROMONE : bool
}.

(** ** std::map *)

(** [m_members] is a [std::map], which is walked in the order of its keys.
    A key is a [std::pair<int, int>], ordered by its first component and
    then by its second. *)
Definition key_le (a b : Z * Z * ptr) : Prop :=
  a.1.1 < b.1.1 ∨ (a.1.1 = b.1.1 ∧ a.1.2 ≤ b.1.2).

#[global] Instance key_le_dec a b : Decision (key_le a b).
Proof. unfold key_le. apply _. Defined.

Definition in_key_order (m : gmap (Z * Z) ptr) : list (Z * Z * ptr) :=
  merge_sort key_le (map_to_list m).

(** Modelled from the spec: [CPVRDatabase] is not part of the source.  The
    spec lists [Persist(group) -> success]; [db_Persist] is the outcome of
    that write. *)
Record CPVRDatabase := mkDatabase {
  db_Persist : Heap → CPVRChannelGroup → bool
}.

(** Modelled from the spec: the dirty flag of a member is "cleared on
    successful persist".  [CPVRDatabase] is a friend of the member class,
    whose [SetSaved()] clears the flag: a write that succeeds leaves the
    members of the group saved, one that fails leaves them as they are. *)
Definition database_Persist (db : CPVRDatabase) (h : Heap) (g : CPVRChannelGroup)
    : bool * Heap :=
  let bReturn := db_Persist db h g in
  (bReturn,
   if bReturn
   then foldl (λ h (memberPair : Z * Z * ptr),
                 store h memberPair.2 (Member.SetSaved (deref h memberPair.2)))
              h (in_key_order (m_members g))
   else h).

(** Modelled from the spec: [CPVRClients] is not part of the source.  The
    spec lists [FetchChannelGroupMembers(groupHandle, outFailedBackendIds)
    -> status], [GetBackendPriority(backendId) -> integer] and the
    enabled/created-state queries.  The fetch fills the group it is handed
    (members and failed backends) and may allocate member objects. *)
Record CPVRClients := mkClients {
  EnabledClientAmount : Z;
  GetCreatedClient : Z → option Z;
  GetChannelGroupMembers : Heap → CPVRChannelGroup → Heap * CPVRChannelGroup * bool
}.

Record CServiceBroker := mkServiceBroker {
  GetSettings : CSettings;
  Clients : CPVRClients;
  GetTVDatabase : option CPVRDatabase
}.

Inductive PVREvent := ChannelGroup | ChannelGroupInvalidated.

(** What a method does to its collaborators, in program order. *)
Inductive Effect :=
  | Publish (e : PVREvent)
  | DatabasePersist (success : bool)
  | FetchChannelGroupMembers.

#[global] Instance PVREvent_eq_dec : EqDecision PVREvent.
Proof. solve_decision. Defined.
#[global] Instance Effect_eq_dec : EqDecision Effect.
Proof. solve_decision. Defined.

(** The state a method of a group runs in: the store of member objects, the
    group itself and the effects so far. *)
Record State := mkState {
  st_heap : Heap;
  this : CPVRChannelGroup;
  st_trace : list Effect
}.

Definition with_heap (s : State) (h : Heap) : State :=
  mkState h (this s) (st_trace s).
Definition with_this (s : State) (g : CPVRChannelGroup) : State :=
  mkState (st_heap s) g (st_trace s).
Definition emit (s : State) (e : Effect) : State :=
  mkState (st_heap s) (this s) (st_trace s ++ [e]).

(** ** std::sort *)

(** [std::sort] is specified, not implemented, by the language: given a
    comparison that is a strict weak ordering it leaves a permutation of
    its input in which no element is followed by a smaller one.  How
    equivalent elements end up relative to each other is unspecified. *)
Record StrictWeakOrdering (comp : ptr → ptr → bool) : Prop := {
  swo_irreflexive : ∀ a, comp a a = false;
  swo_transitive : ∀ a b c, comp a b = true → comp b c = true → comp a c = true;
  swo_equiv_transitive : ∀ a b c,
    comp a b = false → comp b a = false →
    comp b c = false → comp c b = false →
    comp a c = false ∧ comp c a = false
}.

Definition not_after (comp : ptr → ptr → bool) (a b : ptr) : Prop :=
  comp b a = false.

Class StdSort := {
  std_sort : (ptr → ptr → bool) → list ptr → list ptr;
  std_sort_permutation : ∀ comp l,
    StrictWeakOrdering comp → std_sort comp l ≡ₚ l;
  std_sort_sorted : ∀ comp l,
    StrictWeakOrdering comp → StronglySorted (not_after comp) (std_sort comp l)
}.

(** Two implementations, used to run the model: a stable insertion sort,
    and an insertion sort that puts an element behind its equivalents. *)
Fixpoint insert_stable (comp : ptr → ptr → bool) (x : ptr) (l : list ptr) : list ptr :=
  match l with
  | [] => [x]
  | y :: l' => if comp y x then y :: insert_stable comp x l' else x :: y :: l'
  end.

Definition stable_sort (comp : ptr → ptr → bool) (l : list ptr) : list ptr :=
  foldr (insert_stable comp) [] l.

Fixpoint insert_behind (comp : ptr → ptr → bool) (x : ptr) (l : list ptr) : list ptr :=
  match l with
  | [] => [x]
  | y :: l' => if comp x y then x :: y :: l' else y :: insert_behind comp x l'
  end.

Definition unstable_sort (comp : ptr → ptr → bool) (l : list ptr) : list ptr :=
  foldr (insert_behind comp) [] l.

(** ** Methods of CPVRChannelGroup *)

Inductive RenumberMode := NORMAL | IGNORE_NUMBERING_FROM_ONE.

#[global] Instance RenumberMode_eq_dec : EqDecision RenumberMode.
Proof. solve_decision. Defined.

Section Methods.

Context {sorter : StdSort}.

(** The process-wide [CServiceBroker]. *)
Variable broker : CServiceBroker.

(** The helper of the unnamed namespace. *)
Definition UsingBackendChannelNumbers (settings : CSettings) : bool :=
  let enabledClientAmount := EnabledClientAmount (Clients broker) in
  SETTING_PVRMANAGER_USEBACKENDCHANNELNUMBERS settings &&
  ((enabledClientAmount =? 1) ||
   (SETTING_PVRMANAGER_USEBACKENDCHANNELNUMBERSALWAYS settings &&
    (1 <? enabledClientAmount))).

Definition GroupType (g : CPVRChannelGroup) : Z := m_iGroupType g.

(** Modelled from the spec: [IsInternalGroup()] is defined in the header;
    the spec's group kind "distinguishes the synthetic all channels group
    from user-defined groups". *)
Definition IsInternalGroup (g : CPVRChannelGroup) : bool :=
  m_iGroupType g =? PVR_GROUP_TYPE_INTERNAL.

Definition PreventSortAndRenumber (g : CPVRChannelGroup) : bool :=
  m_bPreventSortAndRenumber g.

Definition SetPreventSortAndRenumber (b : bool) (s : State) : State :=
  with_this s (with_bPreventSortAndRenumber (this s) b).

Definition Unload (s : State) : State :=
  with_this s
    (with_failedClients (with_members (with_sortedMembers (this s) []) ∅) []).

(** [GetByUniqueID(const std::pair<int, int>&)] on a member map. *)
Definition GetByUniqueID (members : gmap (Z * Z) ptr) (id : Z * Z) : ptr :=
  match members !! id with
  | Some p => p
  | None => EmptyMember
  end.

(** [GetChannelNumber(channel)] and [GetClientChannelNumber(channel)] of
    the group whose member map is [members]. *)
Definition group_GetChannelNumber (h : Heap) (members : gmap (Z * Z) ptr)
    (channel : option CPVRChannel) : CPVRChannelNumber :=
  let member := GetByUniqueID members (StorageId (deref_channel channel)) in
  Member.ChannelNumber (deref h member).

Definition group_GetClientChannelNumber (h : Heap) (members : gmap (Z * Z) ptr)
    (channel : option CPVRChannel) : CPVRChannelNumber :=
  let member := GetByUniqueID members (StorageId (deref_channel channel)) in
  Member.ClientChannelNumber (deref h member).

Definition IsGroupMember (g : CPVRChannelGroup) (channel : CPVRChannel) : bool :=
  match m_members g !! StorageId channel with
  | Some _ => true
  | None => false
  end.

Definition HasValidDataFromClient (g : CPVRChannelGroup) (iClientId : Z) : bool :=
  bool_decide (iClientId ∉ m_failedClients g).

(** *** Sorting *)

Definition sortByClientChannelNumber (h : Heap) (channel1 channel2 : ptr) : bool :=
  let m1 := deref h channel1 in
  let m2 := deref h channel2 in
  if Member.ClientPriority m1 =? Member.ClientPriority m2 then
    if number_eqb (Member.ClientChannelNumber m1) (Member.ClientChannelNumber m2)
    then String.ltb (ChannelName (deref_channel (Member.Channel m1)))
                    (ChannelName (deref_channel (Member.Channel m2)))
    else number_ltb (Member.ClientChannelNumber m1) (Member.ClientChannelNumber m2)
  else Member.ClientPriority m2 <? Member.ClientPriority m1.

Definition sortByChannelNumber (h : Heap) (channel1 channel2 : ptr) : bool :=
  number_ltb (Member.ChannelNumber (deref h channel1))
             (Member.ChannelNumber (deref h channel2)).

Definition SortByClientChannelNumber (s : State) : State :=
  if negb (PreventSortAndRenumber (this s))
  then with_this s (with_sortedMembers (this s)
         (std_sort (sortByClientChannelNumber (st_heap s)) (m_sortedMembers (this s))))
  else s.

Definition SortByChannelNumber (s : State) : State :=
  if negb (PreventSortAndRenumber (this s))
  then with_this s (with_sortedMembers (this s)
         (std_sort (sortByChannelNumber (st_heap s)) (m_sortedMembers (this s))))
  else s.

Definition Sort (s : State) : State :=
  if m_bUsingBackendChannelOrder (this s)
  then SortByClientChannelNumber s
  else SortByChannelNumber s.

(** *** Renumbering *)

(** One round of the loop of [Renumber] over [m_sortedMembers]; the
    locals it carries are the store, [iChannelNumber] and [bReturn]. *)
Definition Renumber_step (bUsingBackendChannelNumbers bStartGroupChannelNumbersFromOne : bool)
    (mode : RenumberMode) (g : CPVRChannelGroup) (sortedMember : ptr)
    (locals : Heap * Z * bool) : Heap * Z * bool :=
  let '(h, iChannelNumber, bReturn) := locals in
  let member := deref h sortedMember in
  let currentClientChannelNumber :=
    if IsValid (Member.ClientChannelNumber member)
    then Member.ClientChannelNumber member
    else group_GetClientChannelNumber h (m_allChannelsGroup g) (Member.Channel member) in
  let '(currentChannelNumber, iChannelNumber) :=
    if bUsingBackendChannelNumbers then
      (currentClientChannelNumber, iChannelNumber)
    else if IsHidden (deref_channel (Member.Channel member)) then
      (ChannelNumber 0 0, iChannelNumber)
    else if IsInternalGroup g then
      (ChannelNumber (uint32 (iChannelNumber + 1)) 0, uint32 (iChannelNumber + 1))
    else if bStartGroupChannelNumbersFromOne
              && negb (bool_decide (mode = IGNORE_NUMBERING_FROM_ONE)) then
      (ChannelNumber (uint32 (iChannelNumber + 1)) 0, uint32 (iChannelNumber + 1))
    else
      (group_GetChannelNumber h (m_allChannelsGroup g) (Member.Channel member),
       iChannelNumber) in
  if number_neb (Member.ChannelNumber member) currentChannelNumber
     || number_neb (Member.ClientChannelNumber member) currentClientChannelNumber
  then
    let h := store h sortedMember
               (Member.SetChannelNumber (deref h sortedMember) currentChannelNumber) in
    let h := store h sortedMember
               (Member.SetClientChannelNumber (deref h sortedMember)
                  currentClientChannelNumber) in
    let unsortedMember :=
      GetByUniqueID (m_members g)
        (StorageId (deref_channel (Member.Channel (deref h sortedMember)))) in
    let h := store h unsortedMember
               (Member.SetChannelNumber (deref h unsortedMember)
                  (Member.ChannelNumber (deref h sortedMember))) in
    let h := store h unsortedMember
               (Member.SetClientChannelNumber (deref h unsortedMember)
                  (Member.ClientChannelNumber (deref h sortedMember))) in
    (h, iChannelNumber, true)
  else (h, iChannelNumber, bReturn).

Fixpoint Renumber_loop (bUsingBackendChannelNumbers bStartGroupChannelNumbersFromOne : bool)
    (mode : RenumberMode) (g : CPVRChannelGroup) (sortedMembers : list ptr)
    (locals : Heap * Z * bool) : Heap * Z * bool :=
  match sortedMembers with
  | [] => locals
  | sortedMember :: rest =>
      Renumber_loop bUsingBackendChannelNumbers bStartGroupChannelNumbersFromOne
        mode g rest
        (Renumber_step bUsingBackendChannelNumbers bStartGroupChannelNumbersFromOne
           mode g sortedMember locals)
  end.

Definition Renumber (mode : RenumberMode) (s : State) : bool * State :=
  if PreventSortAndRenumber (this s) then (true, s)
  else
    let settings := GetSettings broker in
    let bUsingBackendChannelNumbers := UsingBackendChannelNumbers settings in
    let bStartGroupChannelNumbersFromOne :=
      SETTING_PVRMANAGER_STARTGROUPCHANNELNUMBERSFROMONE settings
      && negb bUsingBackendChannelNumbers in
    let '(h, _, bReturn) :=
      Renumber_loop bUsingBackendChannelNumbers bStartGroupChannelNumbersFromOne
        mode (this s) (m_sortedMembers (this s)) (st_heap s, 0, false) in
    (bReturn, Sort (with_heap s h)).

Definition SortAndRenumber (s : State) : bool * State :=
  if PreventSortAndRenumber (this s) then (true, s)
  else Renumber NORMAL (Sort s).

(** *** Persisting *)

Definition Persist (s : State) : bool * State :=
  let database := GetTVDatabase broker in
  if negb (m_bLoaded (this s)) && negb (m_iGroupId (this s) =? INVALID_GROUP_ID)
  then (true, s)
  else
    let s := if m_iGroupId (this s) =? INVALID_GROUP_ID
             then with_this s (with_bLoaded (this s) true)
             else s in
    match database with
    | Some db =>
        let r := database_Persist db (st_heap s) (this s) in
        let bReturn := r.1 in
        let s := emit (with_heap s r.2) (DatabasePersist bReturn) in
        (bReturn, with_this s (with_bChanged (this s) false))
    | None => (false, s)
    end.

(** *** Priorities *)

Definition UpdateClientPriorities_step (g : CPVRChannelGroup) (member : ptr)
    (locals : Heap * bool) : Heap * bool :=
  let '(h, bChanged) := locals in
  if m_bUsingBackendChannelOrder g then
    match GetCreatedClient (Clients broker)
            (ClientID (deref_channel (Member.Channel (deref h member)))) with
    | None => (h, bChanged)
    | Some iNewPriority =>
        (store h member (Member.SetClientPriority (deref h member) iNewPriority),
         bChanged || negb (Member.ClientPriority (deref h member) =? iNewPriority))
    end
  else
    (store h member (Member.SetClientPriority (deref h member) 0),
     bChanged || negb (Member.ClientPriority (deref h member) =? 0)).

Definition UpdateClientPriorities (s : State) : bool * State :=
  let '(h, bChanged) :=
    foldl (λ locals member, UpdateClientPriorities_step (this s) member locals)
          (st_heap s, false) (m_sortedMembers (this s)) in
  (bChanged, with_heap s h).

(** *** Removing members *)

(** The loop of [RemoveDeletedChannels]: what is left of the vector, the
    map and the channels reported. *)
Fixpoint RemoveDeletedChannels_loop (h : Heap) (g : CPVRChannelGroup)
    (channels : CPVRChannelGroup) (sortedMembers : list ptr)
    (members : gmap (Z * Z) ptr) (removedChannels : list CPVRChannel)
    : list ptr * gmap (Z * Z) ptr * list CPVRChannel :=
  match sortedMembers with
  | [] => ([], members, removedChannels)
  | it :: rest =>
      let channel := deref_channel (Member.Channel (deref h it)) in
      match m_members channels !! StorageId channel with
      | None =>
          let members := delete (StorageId channel) members in
          let removedChannels :=
            if HasValidDataFromClient g (ClientID channel)
            then removedChannels ++ [channel]
            else removedChannels in
          RemoveDeletedChannels_loop h g channels rest members removedChannels
      | Some _ =>
          let '(kept, members, removedChannels) :=
            RemoveDeletedChannels_loop h g channels rest members removedChannels in
          (it :: kept, members, removedChannels)
      end
  end.

Definition RemoveDeletedChannels (channels : CPVRChannelGroup) (s : State)
    : list CPVRChannel * State :=
  let '(sortedMembers, members, removedChannels) :=
    RemoveDeletedChannels_loop (st_heap s) (this s) channels
      (m_sortedMembers (this s)) (m_members (this s)) [] in
  (removedChannels,
   with_this s (with_members (with_sortedMembers (this s) sortedMembers) members)).

(** The loop of [RemoveFromGroup]: whether a member was found, and what
    is left of the vector and of the map. *)
Fixpoint RemoveFromGroup_loop (h : Heap) (channel : CPVRChannel)
    (sortedMembers : list ptr) (members : gmap (Z * Z) ptr)
    : bool * list ptr * gmap (Z * Z) ptr :=
  match sortedMembers with
  | [] => (false, [], members)
  | it :: rest =>
      let itChannel := deref_channel (Member.Channel (deref h it)) in
      if channel_eqb channel itChannel
      then (true, rest, delete (StorageId itChannel) members)
      else
        let '(bReturn, kept, members) := RemoveFromGroup_loop h channel rest members in
        (bReturn, it :: kept, members)
  end.

Definition RemoveFromGroup (channel : CPVRChannel) (s : State) : bool * State :=
  let '(bReturn, sortedMembers, members) :=
    RemoveFromGroup_loop (st_heap s) channel
      (m_sortedMembers (this s)) (m_members (this s)) in
  let s := with_this s
             (with_members (with_sortedMembers (this s) sortedMembers) members) in
  if bReturn then (bReturn, (Renumber NORMAL s).2) else (bReturn, s).

(** *** Adding members *)

(** [std::map::insert] keeps the mapping of a key that is present. *)
Definition map_insert_new (k : Z * Z) (p : ptr) (m : gmap (Z * Z) ptr)
    : gmap (Z * Z) ptr :=
  match m !! k with
  | Some _ => m
  | None => <[k := p]> m
  end.

Definition AddToGroup (channel : CPVRChannel) (channelNumber : CPVRChannelNumber)
    (iOrder : Z) (bUseBackendChannelNumbers : bool)
    (clientChannelNumber : CPVRChannelNumber) (s : State) : bool * State :=
  if negb (IsGroupMember (this s) channel) then
    let realMember :=
      if IsInternalGroup (this s)
      then GetByUniqueID (m_members (this s)) (StorageId channel)
      else GetByUniqueID (m_allChannelsGroup (this s)) (StorageId channel) in
    match Member.Channel (deref (st_heap s) realMember) with
    | Some realChannel =>
        let iChannelNumber :=
          if negb (IsValid channelNumber)
          then GetChannelNumber (Member.ChannelNumber (deref (st_heap s) realMember))
          else GetChannelNumber channelNumber in
        let clientChannelNumberToUse :=
          if negb (IsValid clientChannelNumber)
          then Member.ClientChannelNumber (deref (st_heap s) realMember)
          else clientChannelNumber in
        let '(newMember, h) :=
          make_shared (st_heap s)
            (Member.create (Some realChannel)
               (ChannelNumber iChannelNumber (GetSubChannelNumber channelNumber))
               (Member.ClientPriority (deref (st_heap s) realMember))
               iOrder clientChannelNumberToUse) in
        let g := with_sortedMembers (this s) (m_sortedMembers (this s) ++ [newMember]) in
        let g := with_members g
                   (map_insert_new (StorageId realChannel) newMember (m_members g)) in
        let s := with_this (with_heap s h) g in
        (true, (SortAndRenumber s).2)
    | None => (false, s)
    end
  else (false, s).

Definition AppendToGroup (channel : CPVRChannel) (s : State) : bool * State :=
  let channelNumberMax :=
    foldl (λ channelNumberMax member,
             if channelNumberMax
                  <? GetChannelNumber (Member.ChannelNumber (deref (st_heap s) member))
             then GetChannelNumber (Member.ChannelNumber (deref (st_heap s) member))
             else channelNumberMax)
          0 (m_sortedMembers (this s)) in
  AddToGroup channel (ChannelNumber (uint32 (channelNumberMax + 1)) 0) 0 false
             ChannelNumber0 s.

(** *** Reconciliation against a fetched group *)

(** One round of the loop of [AddAndUpdateChannels] over
    [channels.m_members]. *)
Definition AddAndUpdateChannels_step (bUseBackendChannelNumbers : bool)
    (locals : bool * State) (newMemberPair : (Z * Z) * ptr) : bool * State :=
  let '(bReturn, s) := locals in
  let existingAllChannelsMember :=
    GetByUniqueID (m_allChannelsGroup (this s)) newMemberPair.1 in
  match Member.Channel (deref (st_heap s) existingAllChannelsMember) with
  | None => (bReturn, s)
  | Some allChannel =>
      let newMember := deref (st_heap s) newMemberPair.2 in
      if negb (IsGroupMember (this s) allChannel) then
        let s := (AddToGroup allChannel (Member.ChannelNumber newMember)
                    (Member.Order newMember) bUseBackendChannelNumbers
                    (Member.ClientChannelNumber newMember) s).2 in
        (true, s)
      else
        let existingMember := GetByUniqueID (m_members (this s)) newMemberPair.1 in
        if number_neb (Member.ClientChannelNumber (deref (st_heap s) existingMember))
                      (Member.ClientChannelNumber newMember)
           || negb (Member.Order (deref (st_heap s) existingMember)
                      =? Member.Order newMember)
        then
          let h := store (st_heap s) existingMember
                     (Member.SetClientChannelNumber (deref (st_heap s) existingMember)
                        (Member.ClientChannelNumber newMember)) in
          let h := store h existingMember
                     (Member.SetOrder (deref h existingMember) (Member.Order newMember)) in
          (true, with_heap s h)
        else (bReturn, s)
  end.

Definition AddAndUpdateChannels (channels : CPVRChannelGroup)
    (bUseBackendChannelNumbers : bool) (s : State) : bool * State :=
  let '(bReturn, s) :=
    foldl (AddAndUpdateChannels_step bUseBackendChannelNumbers)
          (false, s) (in_key_order (m_members channels)) in
  (bReturn, (SortAndRenumber s).2).

Definition HasNewChannels (s : State) : bool :=
  existsb (λ memberPair : (Z * Z) * ptr,
             ChannelID (deref_channel (Member.Channel (deref (st_heap s) memberPair.2)))
             <=? 0)
          (in_key_order (m_members (this s))).

Definition UpdateGroupEntries (channels : CPVRChannelGroup) (s : State)
    : bool * list CPVRChannel * State :=
  let bUseBackendChannelNumbers :=
    bool_decide (m_members (this s) = ∅) || m_bUsingBackendChannelOrder (this s) in
  let s := SetPreventSortAndRenumber true s in
  let '(channelsToRemove, s) := RemoveDeletedChannels channels s in
  let bRemoved := negb (bool_decide (channelsToRemove = [])) in
  let '(bAdded, s) := AddAndUpdateChannels channels bUseBackendChannelNumbers s in
  let bChanged := bAdded || bRemoved in
  let s := SetPreventSortAndRenumber false s in
  let '(bPriorities, s) := UpdateClientPriorities s in
  let bChanged := bChanged || bPriorities in
  if bChanged then
    let '(bRenumbered, s) := SortAndRenumber s in
    let '(bReturn, s) := Persist s in
    let s := emit s (Publish (if HasNewChannels s || bRemoved || bRenumbered
                              then ChannelGroupInvalidated else ChannelGroup)) in
    (bReturn, channelsToRemove, s)
  else (true, channelsToRemove, s).

(** [LoadFromClients()], run on the group [g] over the store [h]. *)
Definition LoadFromClients (h : Heap) (g : CPVRChannelGroup)
    : Heap * CPVRChannelGroup * bool :=
  GetChannelGroupMembers (Clients broker) h g.

(** [channelsToRemove] is the caller's vector, passed by reference. *)
Definition Update (channelsToRemove : list CPVRChannel) (s : State)
    : bool * list CPVRChannel * State :=
  if (GroupType (this s) =? PVR_GROUP_TYPE_USER_DEFINED)
     || negb (SETTING_PVRMANAGER_SYNCCHANNELGROUPS (GetSettings broker))
  then (true, channelsToRemove, s)
  else
    let PVRChannels_tmp :=
      new_group (m_path (this s)) (m_iGroupId (this s)) (m_allChannelsGroup (this s)) in
    let PVRChannels_tmp := with_bPreventSortAndRenumber PVRChannels_tmp true in
    let '(h, PVRChannels_tmp, _) := LoadFromClients (st_heap s) PVRChannels_tmp in
    let s := emit (with_heap s h) FetchChannelGroupMembers in
    let s := with_this s
               (with_failedClients (this s) (m_failedClients PVRChannels_tmp)) in
    UpdateGroupEntries PVRChannels_tmp s.

End Methods.

(** ** Further methods of CPVRChannelGroup *)

Definition with_iGroupType (g : CPVRChannelGroup) (iGroupType : Z) : CPVRChannelGroup :=
  mkGroup iGroupType (m_iGroupId g) (m_iPosition g) (m_bLoaded g)
    (m_bChanged g) (m_bPreventSortAndRenumber g) (m_bSyncChannelGroups g)
    (m_bUsingBackendChannelOrder g) (m_bUsingBackendChannelNumbers g)
    (m_bStartGroupChannelNumbersFromOne g) (m_path g) (m_allChannelsGroup g)
    (m_sortedMembers g) (m_members g) (m_failedClients g).

Definition with_iGroupId (g : CPVRChannelGroup) (iGroupId : Z) : CPVRChannelGroup :=
  mkGroup (m_iGroupType g) iGroupId (m_iPosition g) (m_bLoaded g)
    (m_bChanged g) (m_bPreventSortAndRenumber g) (m_bSyncChannelGroups g)
    (m_bUsingBackendChannelOrder g) (m_bUsingBackendChannelNumbers g)
    (m_bStartGroupChannelNumbersFromOne g) (m_path g) (m_allChannelsGroup g)
    (m_sortedMembers g) (m_members g) (m_failedClients g).

Definition with_iPosition (g : CPVRChannelGroup) (iPosition : Z) : CPVRChannelGroup :=
  mkGroup (m_iGroupType g) (m_iGroupId g) iPosition (m_bLoaded g)
    (m_bChanged g) (m_bPreventSortAndRenumber g) (m_bSyncChannelGroups g)
    (m_bUsingBackendChannelOrder g) (m_bUsingBackendChannelNumbers g)
    (m_bStartGroupChannelNumbersFromOne g) (m_path g) (m_allChannelsGroup g)
    (m_sortedMembers g) (m_members g) (m_failedClients g).

Definition with_path (g : CPVRChannelGroup) (path : bool * string) : CPVRChannelGroup :=
  mkGroup (m_iGroupType g) (m_iGroupId g) (m_iPosition g) (m_bLoaded g)
    (m_bChanged g) (m_bPreventSortAndRenumber g) (m_bSyncChannelGroups g)
    (m_bUsingBackendChannelOrder g) (m_bUsingBackendChannelNumbers g)
    (m_bStartGroupChannelNumbersFromOne g) path (m_allChannelsGroup g)
    (m_sortedMembers g) (m_members g) (m_failedClients g).

(** The four cached policy flags, assigned together. *)
Definition with_policy (g : CPVRChannelGroup)
    (bSync bOrder bNumbers bFromOne : bool) : CPVRChannelGroup :=
  mkGroup (m_iGroupType g) (m_iGroupId g) (m_iPosition g) (m_bLoaded g)
    (m_bChanged g) (m_bPreventSortAndRenumber g) bSync bOrder bNumbers bFromOne
    (m_path g) (m_allChannelsGroup g)
    (m_sortedMembers g) (m_members g) (m_failedClients g).

(** [GetMembers(Include eFilter)] *)
Inductive Include := ALL | ONLY_HIDDEN | ONLY_VISIBLE.

(** The settings a change of which is announced to the group, and any
    other. *)
Inductive SettingId :=
  | ID_SYNCCHANNELGROUPS
  | ID_BACKENDCHANNELORDER
  | ID_USEBACKENDCHANNELNUMBERS
  | ID_USEBACKENDCHANNELNUMBERSALWAYS
  | ID_STARTGROUPCHANNELNUMBERSFROMONE
  | ID_OTHER.

Section MoreMethods.

Context {sorter : StdSort}.
Variable broker : CServiceBroker.

Definition Size (g : CPVRChannelGroup) : nat := size (m_members g).
Definition HasChannels (g : CPVRChannelGroup) : bool :=
  negb (bool_decide (m_members g = ∅)).
Definition HasChanges (g : CPVRChannelGroup) : bool := m_bChanged g.
Definition IsNew (g : CPVRChannelGroup) : bool := m_iGroupId g <=? 0.

(** [operator==] on groups. *)
Definition group_eqb (left right : CPVRChannelGroup) : bool :=
  (m_iGroupType left =? m_iGroupType right)
  && (m_iGroupId left =? m_iGroupId right)
  && (m_iPosition left =? m_iPosition right)
  && bool_decide (m_path left = m_path right).

(** [SetChannelNumber(channel, channelNumber)]: the loop stops at the
    first member of the sequence that has the channel. *)
Fixpoint SetChannelNumber_loop (h : Heap) (channel : CPVRChannel)
    (channelNumber : CPVRChannelNumber) (sortedMembers : list ptr) : bool * Heap :=
  match sortedMembers with
  | [] => (false, h)
  | member :: rest =>
      if channel_eqb (deref_channel (Member.Channel (deref h member))) channel then
        if number_neb (Member.ChannelNumber (deref h member)) channelNumber
        then (true, store h member
                      (Member.SetChannelNumber (deref h member) channelNumber))
        else (false, h)
      else SetChannelNumber_loop h channel channelNumber rest
  end.

Definition SetChannelNumber (channel : CPVRChannel) (channelNumber : CPVRChannelNumber)
    (s : State) : bool * State :=
  let '(bReturn, h) :=
    SetChannelNumber_loop (st_heap s) channel channelNumber (m_sortedMembers (this s)) in
  (bReturn, with_heap s h).

(** [GetByUniqueID(int iUniqueChannelId, int iClientID)] *)
Definition GetByUniqueID_ids (s : State) (iUniqueChannelId iClientID : Z)
    : option CPVRChannel :=
  Member.Channel
    (deref (st_heap s) (GetByUniqueID (m_members (this s)) (iClientID, iUniqueChannelId))).

(** [GetByChannelID(int iChannelID)] walks the map, in the order of its
    keys. *)
Definition GetByChannelID (s : State) (iChannelID : Z) : option CPVRChannel :=
  match List.find
          (λ memberPair : (Z * Z) * ptr,
             ChannelID (deref_channel (Member.Channel (deref (st_heap s) memberPair.2)))
             =? iChannelID)
          (in_key_order (m_members (this s))) with
  | Some memberPair => Member.Channel (deref (st_heap s) memberPair.2)
  | None => None
  end.

(** [IsGroupMember(int iChannelId)] *)
Definition IsGroupMember_id (s : State) (iChannelId : Z) : bool :=
  existsb (λ memberPair : (Z * Z) * ptr,
             iChannelId
             =? ChannelID (deref_channel (Member.Channel (deref (st_heap s) memberPair.2))))
          (in_key_order (m_members (this s))).

(** [GetByChannelNumber(channelNumber)] walks the sequence. *)
Fixpoint GetByChannelNumber_loop (h : Heap) (bUsingBackendChannelNumbers : bool)
    (channelNumber : CPVRChannelNumber) (sortedMembers : list ptr)
    : option CPVRChannel :=
  match sortedMembers with
  | [] => None
  | member :: rest =>
      let activeChannelNumber :=
        if bUsingBackendChannelNumbers
        then Member.ClientChannelNumber (deref h member)
        else Member.ChannelNumber (deref h member) in
      if number_eqb activeChannelNumber channelNumber
      then Member.Channel (deref h member)
      else GetByChannelNumber_loop h bUsingBackendChannelNumbers channelNumber rest
  end.

Definition GetByChannelNumber (s : State) (channelNumber : CPVRChannelNumber)
    : option CPVRChannel :=
  GetByChannelNumber_loop (st_heap s) (m_bUsingBackendChannelNumbers (this s))
    channelNumber (m_sortedMembers (this s)).

Definition GetMembers (s : State) (eFilter : Include) : list ptr :=
  match eFilter with
  | ALL => m_sortedMembers (this s)
  | ONLY_HIDDEN =>
      filter (λ member,
                IsHidden (deref_channel (Member.Channel (deref (st_heap s) member))) = true)
             (m_sortedMembers (this s))
  | ONLY_VISIBLE =>
      filter (λ member,
                IsHidden (deref_channel (Member.Channel (deref (st_heap s) member))) = false)
             (m_sortedMembers (this s))
  end.

(** *** Setters of the group *)

Definition SetGroupID (iGroupId : Z) (s : State) : State :=
  if 0 <=? iGroupId then with_this s (with_iGroupId (this s) iGroupId) else s.

Definition SetGroupType (iGroupType : Z) (s : State) : State :=
  if negb (m_iGroupType (this s) =? iGroupType) then
    let s := with_this s (with_iGroupType (this s) iGroupType) in
    if m_bLoaded (this s) then with_this s (with_bChanged (this s) true) else s
  else s.

Definition SetPosition (iPosition : Z) (s : State) : State :=
  if negb (m_iPosition (this s) =? iPosition) then
    let s := with_this s (with_iPosition (this s) iPosition) in
    if m_bLoaded (this s) then with_this s (with_bChanged (this s) true) else s
  else s.

(** Modelled from the spec: [CPVRChannelsPath] is not part of the source;
    the spec has the identity of a group as "a path-like composite of a
    radio flag and a display name". *)
Definition SetPath (path : bool * string) (s : State) : State :=
  if negb (bool_decide (m_path (this s) = path)) then
    let s := with_this s (with_path (this s) path) in
    if m_bLoaded (this s)
    then (Persist broker (with_this s (with_bChanged (this s) true))).2
    else s
  else s.

Definition SetGroupName (strGroupName : string) (s : State) : State :=
  if negb (bool_decide ((m_path (this s)).2 = strGroupName)) then
    let s := with_this s (with_path (this s) ((m_path (this s)).1, strGroupName)) in
    if m_bLoaded (this s)
    then (Persist broker (with_this s (with_bChanged (this s) true))).2
    else s
  else s.

(** *** Loading *)

(** Modelled from the spec: [CPVRDatabase::Get] is not part of the source.
    The spec lists [Load(group, allChannelsGroup) -> count], which "loads
    persisted members from storage": the database fills the member index
    of the group it is handed and may allocate member objects. *)
Definition DatabaseGet : Type :=
  list Member.t → CPVRChannelGroup → list Member.t * list nat * gmap (Z * Z) nat.

Definition LoadFromDb (database_Get : DatabaseGet) (s : State) : Z * State :=
  match GetTVDatabase broker with
  | None => (-1, s)
  | Some _ =>
      let iChannelCount := Z.of_nat (Size (this s)) in
      let '(h, sortedMembers, members) := database_Get (st_heap s) (this s) in
      let s := with_this (with_heap s h)
                 (with_members (with_sortedMembers (this s) sortedMembers) members) in
      (Z.of_nat (Size (this s)) - iChannelCount, s)
  end.

Definition Load (database_Get : DatabaseGet) (channelsToRemove : list CPVRChannel)
    (s : State) : bool * list CPVRChannel * State :=
  let s := Unload s in
  let settings := GetSettings broker in
  let bNumbers := UsingBackendChannelNumbers broker settings in
  let s := with_this s
             (with_policy (this s)
                (SETTING_PVRMANAGER_SYNCCHANNELGROUPS settings)
                (SETTING_PVRMANAGER_BACKENDCHANNELORDER settings)
                bNumbers
                (SETTING_PVRMANAGER_STARTGROUPCHANNELNUMBERSFROMONE settings
                 && negb bNumbers)) in
  let '(iChannelCount, s) :=
    if 0 <? m_iGroupId (this s) then LoadFromDb database_Get s else (0, s) in
  let '(bUpdated, channelsToRemove, s) := Update broker channelsToRemove s in
  if negb bUpdated then (false, channelsToRemove, s)
  else
    let s := (SortAndRenumber broker s).2 in
    (true, channelsToRemove, with_this s (with_bLoaded (this s) true)).

(** *** Reacting to the all channels group and to the settings *)


(** [OnSettingChanged(setting)]: [setting] is [None] for a null pointer;
    [bStarted] is what [CPVRManager::IsStarted()] answers. *)
Definition OnSettingChanged (bStarted : bool) (setting : option SettingId)
    (s : State) : State :=
  match setting with
  | None => s
  | Some settingId =>
      if negb bStarted then s
      else
        match settingId with
        | ID_SYNCCHANNELGROUPS | ID_BACKENDCHANNELORDER
        | ID_USEBACKENDCHANNELNUMBERS | ID_STARTGROUPCHANNELNUMBERSFROMONE =>
            let settings := GetSettings broker in
            let bSync := SETTING_PVRMANAGER_SYNCCHANNELGROUPS settings in
            let bUsingBackendChannelOrder :=
              SETTING_PVRMANAGER_BACKENDCHANNELORDER settings in
            let bUsingBackendChannelNumbers :=
              UsingBackendChannelNumbers broker settings in
            let bStartGroupChannelNumbersFromOne :=
              SETTING_PVRMANAGER_STARTGROUPCHANNELNUMBERSFROMONE settings
              && negb bUsingBackendChannelNumbers in
            let bChannelNumbersChanged :=
              negb (eqb (m_bUsingBackendChannelNumbers (this s))
                        bUsingBackendChannelNumbers) in
            let bChannelOrderChanged :=
              negb (eqb (m_bUsingBackendChannelOrder (this s))
                        bUsingBackendChannelOrder) in
            let bGroupChannelNumbersFromOneChanged :=
              negb (eqb (m_bStartGroupChannelNumbersFromOne (this s))
                        bStartGroupChannelNumbersFromOne) in
            let s := with_this s
                       (with_policy (this s) bSync bUsingBackendChannelOrder
                          bUsingBackendChannelNumbers
                          bStartGroupChannelNumbersFromOne) in
            if bChannelOrderChanged || bChannelNumbersChanged
               || bGroupChannelNumbersFromOneChanged then
              let s := if bChannelOrderChanged
                       then (UpdateClientPriorities broker s).2 else s in
              let s := if negb (m_bSyncChannelGroups (this s))
                       then (Renumber broker IGNORE_NUMBERING_FROM_ONE s).2 else s in
              let '(bRenumbered, s) := SortAndRenumber broker s in
              let s := (Persist broker s).2 in
              emit s (Publish (if bRenumbered
                               then ChannelGroupInvalidated else ChannelGroup))
            else s
        | _ => s
        end
  end.

End MoreMethods.

(** * Properties *)

(** ** The order on channel numbers and on names *)

Lemma number_eqb_eq a b : number_eqb a b = true ↔ a = b.
Proof. unfold number_eqb. apply bool_decide_eq_true. Qed.

Lemma number_neb_false a b : number_neb a b = false ↔ a = b.
Proof.
  unfold number_neb. rewrite negb_false_iff. apply number_eqb_eq.
Qed.

Lemma number_neb_refl a : number_neb a a = false.
Proof. by apply number_neb_false. Qed.

Lemma number_ltb_irrefl a : number_ltb a a = false.
Proof. unfold number_ltb. rewrite Z.eqb_refl. apply Z.ltb_irrefl. Qed.

Lemma number_ltb_trans a b c :
  number_ltb a b = true → number_ltb b c = true → number_ltb a c = true.
Proof.
  unfold number_ltb.
  repeat match goal with
         | |- context [?x =? ?y] => destruct (Z.eqb_spec x y)
         end; rewrite ?Z.ltb_lt; lia.
Qed.

(** Numbers of which neither is below the other are the same number. *)
Lemma number_ltb_total a b :
  number_ltb a b = false → number_ltb b a = false → a = b.
Proof.
  destruct a as [a1 a2], b as [b1 b2]. unfold number_ltb. simpl.
  repeat match goal with
         | |- context [?x =? ?y] => destruct (Z.eqb_spec x y)
         end; rewrite ?Z.ltb_ge; intros; f_equal; lia.
Qed.

Lemma ascii_compare_lt_trans a b c :
  Ascii.compare a b = Lt → Ascii.compare b c = Lt → Ascii.compare a c = Lt.
Proof.
  unfold Ascii.compare. rewrite !N.compare_lt_iff. lia.
Qed.

Lemma string_compare_lt_trans s1 : ∀ s2 s3,
  String.compare s1 s2 = Lt → String.compare s2 s3 = Lt → String.compare s1 s3 = Lt.
Proof.
  induction s1 as [|c1 s1 IH]; intros [|c2 s2] [|c3 s3]; simpl; try done.
  destruct (Ascii.compare c1 c2) eqn:E12; try done;
    destruct (Ascii.compare c2 c3) eqn:E23; try done.
  - apply Ascii.compare_eq_iff in E12, E23. subst.
    assert (Ascii.compare c3 c3 = Eq) as ->; [|by apply IH].
    unfold Ascii.compare. apply N.compare_refl.
  - apply Ascii.compare_eq_iff in E12. subst. by rewrite E23.
  - apply Ascii.compare_eq_iff in E23. subst. by rewrite E12.
  - by rewrite (ascii_compare_lt_trans _ _ _ E12 E23).
Qed.

Lemma string_ltb_irrefl s : String.ltb s s = false.
Proof.
  unfold String.ltb.
  assert (String.compare s s = Eq) as ->; [|done].
  induction s as [|c s IH]; simpl; [done|].
  assert (Ascii.compare c c = Eq) as ->; [|done].
  unfold Ascii.compare. apply N.compare_refl.
Qed.

Lemma string_ltb_trans a b c :
  String.ltb a b = true → String.ltb b c = true → String.ltb a c = true.
Proof.
  unfold String.ltb.
  destruct (String.compare a b) eqn:Eab; try done.
  destruct (String.compare b c) eqn:Ebc; try done.
  by rewrite (string_compare_lt_trans _ _ _ Eab Ebc).
Qed.

Lemma string_ltb_total a b :
  String.ltb a b = false → String.ltb b a = false → a = b.
Proof.
  unfold String.ltb. rewrite (String.compare_antisym b a).
  destruct (String.compare a b) eqn:E; simpl; try done.
  intros. by apply String.compare_eq_iff.
Qed.

(** ** The comparisons are strict weak orderings *)

(** A comparison that is irreflexive, transitive and total on the keys it
    reads off the members is a strict weak ordering of the members. *)
Lemma swo_of_key {K : Type} (key : ptr → K) (lt : K → K → bool) :
  (∀ a, lt a a = false) →
  (∀ a b c, lt a b = true → lt b c = true → lt a c = true) →
  (∀ a b, lt a b = false → lt b a = false → a = b) →
  StrictWeakOrdering (λ p q, lt (key p) (key q)).
Proof.
  intros Hirr Htr Htot. split.
  - intros a. apply Hirr.
  - intros a b c. apply Htr.
  - intros a b c H1 H2 H3 H4.
    rewrite (Htot _ _ H1 H2), <- (Htot _ _ H3 H4). by rewrite Hirr.
Qed.

Lemma sortByChannelNumber_swo h : StrictWeakOrdering (sortByChannelNumber h).
Proof.
  apply (swo_of_key (λ p, Member.ChannelNumber (deref h p)) number_ltb).
  - apply number_ltb_irrefl.
  - apply number_ltb_trans.
  - apply number_ltb_total.
Qed.

(** The key [sortByClientChannelNumber] compares: priority, backend number
    and channel name. *)
Definition client_key (h : Heap) (p : ptr) : Z * CPVRChannelNumber * string :=
  (Member.ClientPriority (deref h p),
   Member.ClientChannelNumber (deref h p),
   ChannelName (deref_channel (Member.Channel (deref h p)))).

Definition client_key_ltb (a b : Z * CPVRChannelNumber * string) : bool :=
  if a.1.1 =? b.1.1 then
    if number_eqb a.1.2 b.1.2 then String.ltb a.2 b.2
    else number_ltb a.1.2 b.1.2
  else b.1.1 <? a.1.1.

Lemma sortByClientChannelNumber_key h p q :
  sortByClientChannelNumber h p q = client_key_ltb (client_key h p) (client_key h q).
Proof. reflexivity. Qed.

Lemma client_key_ltb_irrefl a : client_key_ltb a a = false.
Proof.
  unfold client_key_ltb. rewrite Z.eqb_refl.
  assert (number_eqb a.1.2 a.1.2 = true) as -> by by apply number_eqb_eq.
  apply string_ltb_irrefl.
Qed.

Lemma client_key_ltb_trans a b c :
  client_key_ltb a b = true → client_key_ltb b c = true → client_key_ltb a c = true.
Proof.
  destruct a as [[pa na] sa], b as [[pb nb] sb], c as [[pc nc] sc].
  unfold client_key_ltb, number_eqb. simpl.
  destruct (Z.eqb_spec pa pb), (Z.eqb_spec pb pc), (Z.eqb_spec pa pc);
    try lia; rewrite ?Z.ltb_lt; try lia; subst.
  repeat case_bool_decide; subst; try done.
  - apply string_ltb_trans.
  - intros H1 H2. pose proof (number_ltb_trans _ _ _ H1 H2) as Habs.
    by rewrite number_ltb_irrefl in Habs.
  - apply number_ltb_trans.
Qed.

Lemma client_key_ltb_total a b :
  client_key_ltb a b = false → client_key_ltb b a = false → a = b.
Proof.
  destruct a as [[pa na] sa], b as [[pb nb] sb].
  unfold client_key_ltb, number_eqb. simpl.
  destruct (Z.eqb_spec pa pb), (Z.eqb_spec pb pa); try lia;
    rewrite ?Z.ltb_ge; try lia; subst.
  repeat case_bool_decide; subst; try done.
  - intros H1 H2. by rewrite (string_ltb_total _ _ H1 H2).
  - intros H1 H2. pose proof (number_ltb_total _ _ H1 H2). congruence.
Qed.

Lemma sortByClientChannelNumber_swo h :
  StrictWeakOrdering (sortByClientChannelNumber h).
Proof.
  apply (swo_of_key (client_key h) client_key_ltb).
  - apply client_key_ltb_irrefl.
  - apply client_key_ltb_trans.
  - apply client_key_ltb_total.
Qed.

(** ** The two insertion sorts implement std::sort *)

Section InsertionSorts.

Variable comp : ptr → ptr → bool.
Hypothesis comp_swo : StrictWeakOrdering comp.

Lemma swo_asymmetric a b : comp a b = true → comp b a = false.
Proof.
  intros Hab. destruct (comp b a) eqn:Hba; [|done].
  pose proof (swo_transitive _ comp_swo _ _ _ Hab Hba) as Haa.
  by rewrite (swo_irreflexive _ comp_swo) in Haa.
Qed.

Lemma not_after_trans a b c :
  not_after comp a b → not_after comp b c → not_after comp a c.
Proof.
  unfold not_after. intros Hba Hcb.
  destruct (comp c a) eqn:Hca; [|done]. exfalso.
  destruct (comp b c) eqn:Hbc.
  { pose proof (swo_transitive _ comp_swo _ _ _ Hbc Hca). congruence. }
  destruct (comp a b) eqn:Hab.
  { pose proof (swo_transitive _ comp_swo _ _ _ Hca Hab). congruence. }
  destruct (swo_equiv_transitive _ comp_swo c b a); congruence.
Qed.

Lemma insert_stable_permutation x l : insert_stable comp x l ≡ₚ x :: l.
Proof.
  induction l as [|y l IH]; simpl; [done|].
  destruct (comp y x); [|done]. rewrite IH. apply Permutation_swap.
Qed.

Lemma insert_behind_permutation x l : insert_behind comp x l ≡ₚ x :: l.
Proof.
  induction l as [|y l IH]; simpl; [done|].
  destruct (comp x y); [done|]. rewrite IH. apply Permutation_swap.
Qed.

Lemma insert_stable_sorted x l :
  StronglySorted (not_after comp) l →
  StronglySorted (not_after comp) (insert_stable comp x l).
Proof.
  induction 1 as [|y l Hl IH Hy]; simpl.
  - repeat constructor.
  - destruct (comp y x) eqn:Hyx.
    + constructor; [done|].
      rewrite insert_stable_permutation. constructor; [|done].
      by apply swo_asymmetric.
    + constructor; [by constructor|].
      constructor; [done|].
      eapply Forall_impl; [exact Hy|].
      intros z Hz. by apply (not_after_trans x y z).
Qed.

Lemma insert_behind_sorted x l :
  StronglySorted (not_after comp) l →
  StronglySorted (not_after comp) (insert_behind comp x l).
Proof.
  induction 1 as [|y l Hl IH Hy]; simpl.
  - repeat constructor.
  - destruct (comp x y) eqn:Hxy.
    + constructor; [by constructor|].
      assert (not_after comp x y) as Hn by by apply swo_asymmetric.
      constructor; [done|].
      eapply Forall_impl; [exact Hy|].
      intros z Hz. by apply (not_after_trans x y z).
    + constructor; [done|].
      rewrite insert_behind_permutation. by constructor.
Qed.

Lemma stable_sort_permutation l : stable_sort comp l ≡ₚ l.
Proof.
  induction l as [|x l IH]; simpl; [done|].
  by rewrite insert_stable_permutation, IH.
Qed.

Lemma unstable_sort_permutation l : unstable_sort comp l ≡ₚ l.
Proof.
  induction l as [|x l IH]; simpl; [done|].
  by rewrite insert_behind_permutation, IH.
Qed.

Lemma stable_sort_sorted l : StronglySorted (not_after comp) (stable_sort comp l).
Proof.
  induction l as [|x l IH]; simpl; [constructor|].
  by apply insert_stable_sorted.
Qed.

Lemma unstable_sort_sorted l : StronglySorted (not_after comp) (unstable_sort comp l).
Proof.
  induction l as [|x l IH]; simpl; [constructor|].
  by apply insert_behind_sorted.
Qed.

End InsertionSorts.

(** The stable sort leaves a sequence that is in order as it is, whatever
    the comparison. *)
Lemma stable_sort_fixes_sorted comp l :
  StronglySorted (not_after comp) l → stable_sort comp l = l.
Proof.
  induction 1 as [|x l Hl IH Hx]; simpl; [done|].
  rewrite IH. destruct l as [|y l]; [done|]. simpl.
  apply Forall_cons in Hx as [Hxy _]. unfold not_after in Hxy. by rewrite Hxy.
Qed.

Definition stable_sorter : StdSort :=
  {| std_sort := stable_sort;
     std_sort_permutation := λ comp l H, stable_sort_permutation comp l;
     std_sort_sorted := λ comp l H, stable_sort_sorted comp H l |}.

Definition unstable_sorter : StdSort :=
  {| std_sort := unstable_sort;
     std_sort_permutation := λ comp l H, unstable_sort_permutation comp l;
     std_sort_sorted := λ comp l H, unstable_sort_sorted comp H l |}.

(** ** A small world to run the model in *)

Module Example.

Definition chA : CPVRChannel := mkChannel 1 100 10 false "A".
Definition chB : CPVRChannel := mkChannel 1 101 11 false "B".
Definition chC : CPVRChannel := mkChannel 2 200 12 false "C".

(** Address 0 is [EmptyMember]; 1 to 3 are the members of the all
    channels group; 4 and 5 the members of the group itself; 6 is the
    member for A of a group fetched from the backends. *)
Definition members : Heap :=
  [ Member.empty;
    Member.mk (Some chA) (ChannelNumber 1 0) (ChannelNumber 2 0) 0 0 false;
    Member.mk (Some chB) (ChannelNumber 7 0) (ChannelNumber 1 0) 0 0 false;
    Member.mk (Some chC) (ChannelNumber 3 0) (ChannelNumber 7 0) 0 0 false;
    Member.mk (Some chA) (ChannelNumber 1 0) (ChannelNumber 2 0) 0 0 false;
    Member.mk (Some chB) (ChannelNumber 7 0) (ChannelNumber 1 0) 0 0 false;
    Member.mk (Some chA) (ChannelNumber 0 0) (ChannelNumber 2 0) 0 0 true ].

Definition allChannels : gmap (Z * Z) ptr :=
  <[(1, 100) := 1%nat]> (<[(1, 101) := 2%nat]> (<[(2, 200) := 3%nat]> ∅)).

(** A group holding A and B, of the given type and policy. *)
Definition group (iGroupType iGroupId : Z) (bLoaded bPrevent bBackendOrder : bool)
    (failedClients : list Z) : CPVRChannelGroup :=
  mkGroup iGroupType iGroupId 0 bLoaded true bPrevent true bBackendOrder false false
          (false, "Favourites") allChannels [4%nat; 5%nat]
          (<[(1, 100) := 4%nat]> (<[(1, 101) := 5%nat]> ∅)) failedClients.

Definition state (g : CPVRChannelGroup) : State := mkState members g [].

Definition settings (bSync bBackendNumbers bFromOne : bool) : CSettings :=
  mkSettings bSync false bBackendNumbers false bFromOne.

(** Backends that report nothing for any group. *)
Definition clients : CPVRClients :=
  mkClients 1 (λ _, Some 0) (λ h g, (h, g, true)).

Definition database (success : bool) : CPVRDatabase :=
  mkDatabase (λ _ _, success).

Definition broker (s : CSettings) (db : option CPVRDatabase) : CServiceBroker :=
  mkServiceBroker s clients db.

(** A group that was never persisted, and one that was loaded. *)
Definition new_group_state : State :=
  state (group PVR_GROUP_TYPE_DEFAULT INVALID_GROUP_ID false false false []).
Definition loaded_group_state : State :=
  state (group PVR_GROUP_TYPE_DEFAULT 5 true false false []).

(** The backend of A and B failed to report; and the group the backends
    reported, which has A but not B. *)
Definition failed_backend_state : State :=
  state (group PVR_GROUP_TYPE_DEFAULT 5 true false false [1]).
Definition fetched : CPVRChannelGroup :=
  with_members
    (with_bPreventSortAndRenumber (new_group (false, "Favourites") 5 allChannels) true)
    {[ (1, 100) := 6%nat ]}.

Definition user_defined_state : State :=
  state (group PVR_GROUP_TYPE_USER_DEFINED 5 true false false []).

Definition prevented_state : State :=
  state (group PVR_GROUP_TYPE_DEFAULT 5 true true false []).

Definition broker_backend_numbers : CServiceBroker :=
  broker (settings true true false) None.
Definition broker_without_database : CServiceBroker :=
  broker (settings true false false) None.
Definition broker_with_database : CServiceBroker :=
  broker (settings true false false) (Some (database true)).
Definition broker_with_failing_database : CServiceBroker :=
  broker (settings true false false) (Some (database false)).

(** A group kept in the order of the backends, whose member for A has no
    backend number of its own: the all channels group has 2 for A. *)
Definition backend_order_state : State :=
  mkState
    (<[4%nat := Member.mk (Some chA) (ChannelNumber 1 0) (ChannelNumber 0 0)
                  0 0 false]> members)
    (group PVR_GROUP_TYPE_DEFAULT 5 true false true []) [].


(** A group that caches that the backend numbers are in use: the loaded
    group after it was told, with one backend enabled, that the setting
    has changed. *)
Definition state_caching_backend_numbers : State :=
  OnSettingChanged (sorter := stable_sorter) broker_backend_numbers true
    (Some ID_USEBACKENDCHANNELNUMBERS) loaded_group_state.

End Example.

(** ** Persist *)

Lemma with_bLoaded_loaded g : m_bLoaded g = true → with_bLoaded g true = g.
Proof. destruct g. simpl. by intros ->. Qed.

(** C10: [Persist()] on a group whose id is [INVALID_GROUP_ID] leaves the
    loaded flag set, whatever the service broker offers: a database whose
    write succeeds, one whose write fails, or no database at all. *)
Theorem Persist_marks_new_group_loaded (broker : CServiceBroker) (s : State) :
  m_iGroupId (this s) = INVALID_GROUP_ID →
  m_bLoaded (this (Persist broker s).2) = true.
Proof.
  intros Hid. unfold Persist. rewrite Hid. rewrite Z.eqb_refl. simpl.
  rewrite andb_false_r.
  destruct (GetTVDatabase broker); reflexivity.
Qed.

Lemma Persist_marks_new_group_loaded_witness :
  m_bLoaded (this Example.new_group_state) = false
  ∧ m_bLoaded (this (Persist Example.broker_without_database
                       Example.new_group_state).2) = true.
Proof.
  split; [reflexivity|].
  apply Persist_marks_new_group_loaded. reflexivity.
Defined.

(** [Persist()] on a group that was never loaded and has a valid id does
    nothing and reports success. *)
Lemma Persist_skipped (broker : CServiceBroker) (s : State) :
  negb (m_bLoaded (this s)) && negb (m_iGroupId (this s) =? INVALID_GROUP_ID) = true →
  Persist broker s = (true, s).
Proof. intros Hguard. unfold Persist. by rewrite Hguard. Qed.

(** [Persist()] past its guard: the group is loaded, or becomes so; the
    database, when there is one, is called once and the dirty flag is
    cleared after the call, whatever it returned. *)
Lemma Persist_past_guard (broker : CServiceBroker) (s : State) :
  negb (m_bLoaded (this s)) && negb (m_iGroupId (this s) =? INVALID_GROUP_ID) = false →
  Persist broker s
  = match GetTVDatabase broker with
    | Some db =>
        let g := with_bLoaded (this s) true in
        let r := database_Persist db (st_heap s) g in
        (r.1, mkState r.2 (with_bChanged g false) (st_trace s ++ [DatabasePersist r.1]))
    | None => (false, with_this s (with_bLoaded (this s) true))
    end.
Proof.
  intros Hguard. unfold Persist. rewrite Hguard.
  assert ((if m_iGroupId (this s) =? INVALID_GROUP_ID
           then with_this s (with_bLoaded (this s) true) else s)
          = with_this s (with_bLoaded (this s) true)) as ->.
  { destruct (m_iGroupId (this s) =? INVALID_GROUP_ID) eqn:Hid; [done|].
    rewrite andb_true_r in Hguard. apply negb_false_iff in Hguard.
    rewrite with_bLoaded_loaded by done. by destruct s. }
  by destruct (GetTVDatabase broker) as [db|].
Qed.

(** C9, as stated, fails on a write that fails: the group is loaded and
    dirty, the database reports failure, and the dirty flag is cleared all
    the same.  It fails as well where no database is reachable:
    [Persist()] on a group that was never persisted reports failure and
    yet has changed the group, whose loaded flag is now set. *)
Lemma Persist_failed_write_clears_dirty_flag :
  (m_bChanged (this Example.loaded_group_state) = true
   ∧ (Persist Example.broker_with_failing_database Example.loaded_group_state).1 = false
   ∧ m_bChanged (this (Persist Example.broker_with_failing_database
                         Example.loaded_group_state).2) = false)
  ∧ ((Persist Example.broker_without_database Example.new_group_state).1 = false
     ∧ (Persist Example.broker_without_database Example.new_group_state).2
       ≠ Example.new_group_state).
Proof.
  split; [by vm_compute|].
  split; [reflexivity|]. intros H.
  apply (f_equal (λ s, m_bLoaded (this s))) in H. vm_compute in H. discriminate.
Qed.

(** C9, amended: when [Persist()] gets past its guard, with a database at
    hand it returns what the write of the database returns, and the dirty
    flag of the group is cleared after the write whether it succeeded or
    failed; with no database it returns failure and the state is the one
    before with the loaded flag set, which is the state before unless the
    group was new: the dirty flag is as it was. *)
Theorem Persist_clears_dirty_flag_after_any_write (broker : CServiceBroker) (s : State) :
  negb (m_bLoaded (this s)) && negb (m_iGroupId (this s) =? INVALID_GROUP_ID) = false →
  match GetTVDatabase broker with
  | Some db =>
      (Persist broker s).1
        = db_Persist db (st_heap s) (with_bLoaded (this s) true)
      ∧ m_bChanged (this (Persist broker s).2) = false
  | None =>
      (Persist broker s).1 = false
      ∧ (Persist broker s).2 = with_this s (with_bLoaded (this s) true)
      ∧ m_bChanged (this (Persist broker s).2) = m_bChanged (this s)
  end.
Proof.
  intros Hguard. rewrite (Persist_past_guard broker s Hguard).
  destruct (GetTVDatabase broker) as [db|]; [done|].
  by repeat split.
Qed.

Lemma Persist_clears_dirty_flag_after_any_write_witness :
  m_bChanged (this Example.loaded_group_state) = true
  ∧ (Persist Example.broker_with_failing_database Example.loaded_group_state).1 = false
  ∧ m_bChanged (this (Persist Example.broker_with_failing_database
                        Example.loaded_group_state).2) = false.
Proof.
  split; [reflexivity|].
  pose proof (Persist_clears_dirty_flag_after_any_write
                Example.broker_with_failing_database Example.loaded_group_state
                eq_refl) as [H1 H2].
  split; [exact H1|exact H2].
Defined.

(** ** The store *)

Lemma deref_store_eq (h : Heap) (p : ptr) (m : Member.t) :
  (p < length h)%nat → deref (store h p m) p = m.
Proof.
  intros Hp. by apply (list_lookup_total_insert_eq h p m).
Qed.

Lemma deref_store_ne (h : Heap) (p q : ptr) (m : Member.t) :
  p ≠ q → deref (store h q m) p = deref h p.
Proof.
  intros Hne. by apply (list_lookup_total_insert_ne h q p m).
Qed.

Lemma length_store (h : Heap) (p : ptr) (m : Member.t) :
  length (store h p m) = length h.
Proof. apply length_insert. Qed.

Lemma store_unallocated (h : Heap) (p : ptr) (m : Member.t) :
  (length h ≤ p)%nat → store h p m = h.
Proof. apply list_insert_ge. Qed.

(** Writing back what is there changes nothing. *)
Lemma store_deref (h : Heap) (p : ptr) : store h p (deref h p) = h.
Proof.
  unfold store, deref. destruct (decide (p < length h)%nat) as [Hp|Hp].
  - apply list_insert_id. by apply list_lookup_lookup_total_lt.
  - apply list_insert_ge. lia.
Qed.

Lemma deref_make_shared_old (h : Heap) (m : Member.t) (p : ptr) :
  (p < length h)%nat → deref (make_shared h m).2 p = deref h p.
Proof.
  intros Hp. by apply (lookup_total_app_l h [m] p).
Qed.

Lemma deref_make_shared_new (h : Heap) (m : Member.t) :
  deref (make_shared h m).2 (make_shared h m).1 = m.
Proof.
  unfold deref, make_shared. simpl.
  apply list_lookup_total_correct.
  rewrite lookup_app_r by lia. by rewrite Nat.sub_diag.
Qed.

(** ** The map in the order of its keys *)

Lemma in_key_order_permutation (m : gmap (Z * Z) ptr) :
  in_key_order m ≡ₚ map_to_list m.
Proof. apply merge_sort_Permutation. Qed.

Lemma elem_of_in_key_order (m : gmap (Z * Z) ptr) k p :
  (k, p) ∈ in_key_order m ↔ m !! k = Some p.
Proof. rewrite in_key_order_permutation. apply elem_of_map_to_list. Qed.

Lemma key_le_total : Total key_le.
Proof. intros [[a1 a2] p] [[b1 b2] q]. unfold key_le. simpl. lia. Qed.

Lemma key_le_transitive : Transitive key_le.
Proof. intros [[a1 a2] p] [[b1 b2] q] [[c1 c2] r]. unfold key_le. simpl. lia. Qed.

(** The walk meets the keys in ascending order, each key once. *)
Lemma in_key_order_sorted (m : gmap (Z * Z) ptr) :
  StronglySorted key_le (in_key_order m) ∧ NoDup (in_key_order m).*1.
Proof.
  split.
  - apply (@Sorted_StronglySorted _ _ key_le_transitive).
    apply Sorted_merge_sort, key_le_total.
  - rewrite in_key_order_permutation. apply NoDup_fst_map_to_list.
Qed.

(** ** The write of the database *)

Lemma SetSaved_idemp m : Member.SetSaved (Member.SetSaved m) = Member.SetSaved m.
Proof. done. Qed.

Lemma SetSaved_all_deref (l : list (Z * Z * ptr)) (h : Heap) (p : ptr) :
  deref (foldl (λ h (memberPair : Z * Z * ptr),
                  store h memberPair.2 (Member.SetSaved (deref h memberPair.2))) h l) p
  = if bool_decide (p ∈ l.*2) then Member.SetSaved (deref h p) else deref h p.
Proof.
  revert h. induction l as [|[k q] l IH]; intros h; [done|].
  cbn [foldl fmap list_fmap snd]. rewrite IH.
  assert (deref (store h q (Member.SetSaved (deref h q))) p
          = if bool_decide (p = q) then Member.SetSaved (deref h p) else deref h p) as ->.
  { clear IH. case_bool_decide as Hpq; [subst q|by apply deref_store_ne].
    destruct (decide (p < length h)%nat) as [Hp|Hp]; [by apply deref_store_eq|].
    rewrite store_unallocated by lia.
    unfold deref. by rewrite !list_lookup_total_alt, !lookup_ge_None_2 by lia. }
  rewrite (bool_decide_ext (p ∈ q :: l.*2) (p = q ∨ p ∈ l.*2)) by apply elem_of_cons.
  destruct (decide (p = q)) as [Hpq|Hpq], (decide (p ∈ l.*2)) as [Hin|Hin];
    repeat (first [rewrite bool_decide_eq_true_2 by tauto
                  |rewrite bool_decide_eq_false_2 by tauto]);
    done.
Qed.

Lemma SetSaved_all_length (l : list (Z * Z * ptr)) (h : Heap) :
  length (foldl (λ h (memberPair : Z * Z * ptr),
                   store h memberPair.2 (Member.SetSaved (deref h memberPair.2))) h l)
  = length h.
Proof.
  revert h. induction l as [|[k q] l IH]; intros h; [done|].
  cbn [foldl]. by rewrite IH, length_store.
Qed.

(** The database returns what its write returns; a write that fails leaves
    the store alone; one that succeeds leaves the members of the group
    saved and every other object alone.  Either way an object keeps all
    but its dirty flag. *)
Lemma database_Persist_spec (db : CPVRDatabase) (h : Heap) (g : CPVRChannelGroup) :
  let r := database_Persist db h g in
  r.1 = db_Persist db h g
  ∧ length r.2 = length h
  ∧ (r.1 = false → r.2 = h)
  ∧ (∀ p, deref r.2 p
          = if r.1 && bool_decide (p ∈ (in_key_order (m_members g)).*2)
            then Member.SetSaved (deref h p) else deref h p).
Proof.
  unfold database_Persist. cbn [fst snd].
  destruct (db_Persist db h g); cbn [andb].
  - split; [done|]. split; [apply SetSaved_all_length|]. split; [done|].
    intros p. apply SetSaved_all_deref.
  - done.
Qed.

Lemma database_Persist_length (db : CPVRDatabase) (h : Heap) (g : CPVRChannelGroup) :
  length (database_Persist db h g).2 = length h.
Proof. apply database_Persist_spec. Qed.

Lemma database_Persist_SetSaved (db : CPVRDatabase) (h : Heap) (g : CPVRChannelGroup) p :
  Member.SetSaved (deref (database_Persist db h g).2 p) = Member.SetSaved (deref h p).
Proof.
  destruct (database_Persist_spec db h g) as (_ & _ & _ & ->).
  by destruct (_ && _).
Qed.

#[global] Arguments database_Persist : simpl never.


(** ** The setters of a member *)

Lemma SetChannelNumber_channel m n :
  Member.Channel (Member.SetChannelNumber m n) = Member.Channel m.
Proof. unfold Member.SetChannelNumber. by destruct (number_neb _ _). Qed.

Lemma SetClientChannelNumber_channel m n :
  Member.Channel (Member.SetClientChannelNumber m n) = Member.Channel m.
Proof. unfold Member.SetClientChannelNumber. by destruct (number_neb _ _). Qed.

Lemma SetClientPriority_channel m n :
  Member.Channel (Member.SetClientPriority m n) = Member.Channel m.
Proof. unfold Member.SetClientPriority. by case_bool_decide. Qed.

Lemma SetOrder_channel m n :
  Member.Channel (Member.SetOrder m n) = Member.Channel m.
Proof. unfold Member.SetOrder. by case_bool_decide. Qed.

Lemma SetChannelNumber_number m n :
  Member.ChannelNumber (Member.SetChannelNumber m n) = n.
Proof.
  unfold Member.SetChannelNumber.
  destruct (number_neb _ _) eqn:E; [done|]. by apply number_neb_false in E.
Qed.

Lemma SetChannelNumber_client m n :
  Member.ClientChannelNumber (Member.SetChannelNumber m n) = Member.ClientChannelNumber m.
Proof. unfold Member.SetChannelNumber. by destruct (number_neb _ _). Qed.

Lemma SetChannelNumber_priority m n :
  Member.ClientPriority (Member.SetChannelNumber m n) = Member.ClientPriority m.
Proof. unfold Member.SetChannelNumber. by destruct (number_neb _ _). Qed.

Lemma SetClientChannelNumber_number m n :
  Member.ChannelNumber (Member.SetClientChannelNumber m n) = Member.ChannelNumber m.
Proof. unfold Member.SetClientChannelNumber. by destruct (number_neb _ _). Qed.

Lemma SetClientChannelNumber_client m n :
  Member.ClientChannelNumber (Member.SetClientChannelNumber m n) = n.
Proof.
  unfold Member.SetClientChannelNumber.
  destruct (number_neb _ _) eqn:E; [done|]. by apply number_neb_false in E.
Qed.

Lemma SetClientChannelNumber_priority m n :
  Member.ClientPriority (Member.SetClientChannelNumber m n) = Member.ClientPriority m.
Proof. unfold Member.SetClientChannelNumber. by destruct (number_neb _ _). Qed.

Lemma SetChannelNumber_same m : Member.SetChannelNumber m (Member.ChannelNumber m) = m.
Proof.
  unfold Member.SetChannelNumber, Member.ChannelNumber.
  by rewrite number_neb_refl.
Qed.

Lemma SetClientChannelNumber_same m :
  Member.SetClientChannelNumber m (Member.ClientChannelNumber m) = m.
Proof.
  unfold Member.SetClientChannelNumber, Member.ClientChannelNumber.
  by rewrite number_neb_refl.
Qed.

(** What [Renumber] does to a member: both numbers are set. *)
Definition assign (m : Member.t) (cn ccn : CPVRChannelNumber) : Member.t :=
  Member.SetClientChannelNumber (Member.SetChannelNumber m cn) ccn.

Lemma assign_channel m cn ccn : Member.Channel (assign m cn ccn) = Member.Channel m.
Proof.
  unfold assign. by rewrite SetClientChannelNumber_channel, SetChannelNumber_channel.
Qed.

Lemma assign_number m cn ccn : Member.ChannelNumber (assign m cn ccn) = cn.
Proof.
  unfold assign. by rewrite SetClientChannelNumber_number, SetChannelNumber_number.
Qed.

Lemma assign_client m cn ccn : Member.ClientChannelNumber (assign m cn ccn) = ccn.
Proof. unfold assign. by rewrite SetClientChannelNumber_client. Qed.

Lemma assign_priority m cn ccn :
  Member.ClientPriority (assign m cn ccn) = Member.ClientPriority m.
Proof.
  unfold assign. by rewrite SetClientChannelNumber_priority, SetChannelNumber_priority.
Qed.

Lemma assign_same m :
  assign m (Member.ChannelNumber m) (Member.ClientChannelNumber m) = m.
Proof.
  unfold assign. rewrite SetChannelNumber_same. apply SetClientChannelNumber_same.
Qed.

Lemma assign_assign m cn ccn : assign (assign m cn ccn) cn ccn = assign m cn ccn.
Proof.
  rewrite <- (assign_number m cn ccn) at 2.
  rewrite <- (assign_client m cn ccn) at 3. apply assign_same.
Qed.

(** ** What one round of the renumbering loop does *)

(** The numbers the loop body computes for the member at [q]: the group
    number, the backend number and the counter afterwards. *)
Definition Renumber_values (bUsingBackendChannelNumbers bStartGroupChannelNumbersFromOne : bool)
    (mode : RenumberMode) (g : CPVRChannelGroup) (h : Heap) (q : ptr) (i : Z)
    : CPVRChannelNumber * CPVRChannelNumber * Z :=
  let member := deref h q in
  let ccn :=
    if IsValid (Member.ClientChannelNumber member)
    then Member.ClientChannelNumber member
    else group_GetClientChannelNumber h (m_allChannelsGroup g) (Member.Channel member) in
  let r :=
    if bUsingBackendChannelNumbers then (ccn, i)
    else if IsHidden (deref_channel (Member.Channel member)) then (ChannelNumber 0 0, i)
    else if IsInternalGroup g then
      (ChannelNumber (uint32 (i + 1)) 0, uint32 (i + 1))
    else if bStartGroupChannelNumbersFromOne
              && negb (bool_decide (mode = IGNORE_NUMBERING_FROM_ONE)) then
      (ChannelNumber (uint32 (i + 1)) 0, uint32 (i + 1))
    else
      (group_GetChannelNumber h (m_allChannelsGroup g) (Member.Channel member), i) in
  (r.1, ccn, r.2).

(** The member of the map the loop body writes to besides [q]. *)
Definition unsorted_of (g : CPVRChannelGroup) (h : Heap) (q : ptr) : ptr :=
  GetByUniqueID (m_members g) (StorageId (deref_channel (Member.Channel (deref h q)))).

(** The four writes of the loop body. *)
Definition Renumber_write (g : CPVRChannelGroup) (h : Heap) (q : ptr)
    (cn ccn : CPVRChannelNumber) : Heap :=
  let h := store h q (Member.SetChannelNumber (deref h q) cn) in
  let h := store h q (Member.SetClientChannelNumber (deref h q) ccn) in
  let u := unsorted_of g h q in
  let h := store h u (Member.SetChannelNumber (deref h u)
                        (Member.ChannelNumber (deref h q))) in
  store h u (Member.SetClientChannelNumber (deref h u)
               (Member.ClientChannelNumber (deref h q))).

Lemma Renumber_step_values bU bS mode g q h i b :
  Renumber_step bU bS mode g q (h, i, b) =
    let v := Renumber_values bU bS mode g h q i in
    if number_neb (Member.ChannelNumber (deref h q)) v.1.1
       || number_neb (Member.ClientChannelNumber (deref h q)) v.1.2
    then (Renumber_write g h q v.1.1 v.1.2, v.2, true)
    else (h, v.2, b).
Proof.
  unfold Renumber_step, Renumber_values.
  destruct bU; [reflexivity|].
  destruct (IsHidden _); [reflexivity|].
  destruct (IsInternalGroup g); [reflexivity|].
  destruct (bS && _); reflexivity.
Qed.

#[global] Arguments Renumber_step : simpl never.

Lemma length_Renumber_write g h q cn ccn :
  length (Renumber_write g h q cn ccn) = length h.
Proof. unfold Renumber_write. simpl. by rewrite !length_store. Qed.

Lemma Renumber_write_deref g h q cn ccn p :
  (q < length h)%nat →
  (unsorted_of g h q < length h)%nat →
  deref (Renumber_write g h q cn ccn) p =
    if bool_decide (p = q ∨ p = unsorted_of g h q)
    then assign (deref h p) cn ccn else deref h p.
Proof.
  intros Hq Hu. unfold Renumber_write.
  set (h1 := store h q (Member.SetChannelNumber (deref h q) cn)).
  set (h2 := store h1 q (Member.SetClientChannelNumber (deref h1 q) ccn)).
  assert (length h1 = length h) as Hl1 by apply length_store.
  assert (length h2 = length h) as Hl2 by (unfold h2; by rewrite length_store).
  assert (deref h2 q = assign (deref h q) cn ccn) as Hq2.
  { unfold h2. rewrite deref_store_eq by lia. unfold h1.
    by rewrite deref_store_eq by lia. }
  assert (∀ r, r ≠ q → deref h2 r = deref h r) as Hother2.
  { intros r Hr. unfold h2, h1. by rewrite !deref_store_ne by done. }
  cbv zeta.
  assert (unsorted_of g h2 q = unsorted_of g h q) as ->.
  { unfold unsorted_of. by rewrite Hq2, assign_channel. }
  set (u := unsorted_of g h q) in *.
  rewrite Hq2, assign_number.
  set (h3 := store h2 u (Member.SetChannelNumber (deref h2 u) cn)).
  assert (length h3 = length h) as Hl3 by (unfold h3; by rewrite length_store).
  assert (Member.ClientChannelNumber (deref h3 q) = ccn) as ->.
  { unfold h3. destruct (decide (q = u)) as [<-|Hne].
    - rewrite deref_store_eq by lia.
      by rewrite SetChannelNumber_client, Hq2, assign_client.
    - rewrite deref_store_ne by done. by rewrite Hq2, assign_client. }
  assert (deref h3 u = Member.SetChannelNumber (deref h2 u) cn) as ->.
  { unfold h3. by rewrite deref_store_eq by lia. }
  fold (assign (deref h2 u) cn ccn).
  case_bool_decide as Hp.
  - destruct (decide (p = u)) as [->|Hpu].
    + rewrite deref_store_eq by lia.
      destruct (decide (u = q)) as [->|Huq].
      * rewrite Hq2. apply assign_assign.
      * by rewrite Hother2.
    + destruct Hp as [->|?]; [|done].
      rewrite deref_store_ne by done. unfold h3.
      rewrite deref_store_ne by done. done.
  - rewrite deref_store_ne by naive_solver. unfold h3.
    rewrite deref_store_ne by naive_solver. apply Hother2. naive_solver.
Qed.

(** ** Well-formed states *)

(** Every pointer a group holds, and [EmptyMember], is an object of the
    store: a [shared_ptr] keeps its pointee alive. *)
Definition pointers_allocated (h : Heap) (g : CPVRChannelGroup) : Prop :=
  (EmptyMember < length h)%nat
  ∧ Forall (λ p, (p < length h)%nat) (m_sortedMembers g)
  ∧ map_Forall (λ _ p, (p < length h)%nat) (m_members g).

(** No member of the sequence has a null channel; the methods dereference
    [Channel()] of every member unguarded. *)
Definition members_have_channel (h : Heap) (g : CPVRChannelGroup) : Prop :=
  Forall (λ p, is_Some (Member.Channel (deref h p))) (m_sortedMembers g).

#[global] Instance pointers_allocated_dec h g : Decision (pointers_allocated h g).
Proof. unfold pointers_allocated. apply _. Defined.

#[global] Instance members_have_channel_dec h g : Decision (members_have_channel h g).
Proof. unfold members_have_channel. apply _. Defined.

Lemma with_sortedMembers_same g : with_sortedMembers g (m_sortedMembers g) = g.
Proof. by destruct g. Qed.

Lemma with_this_same s : with_this s (this s) = s.
Proof. by destruct s. Qed.

Lemma with_heap_same s : with_heap s (st_heap s) = s.
Proof. by destruct s. Qed.

Lemma unsorted_of_allocated h g h' q :
  pointers_allocated h g → (unsorted_of g h' q < length h)%nat.
Proof.
  intros (H0 & _ & Hmap). unfold unsorted_of, GetByUniqueID.
  destruct (m_members g !! _) as [p|] eqn:E; [by eapply (Hmap _ _ E)|done].
Qed.

(** ** Sort and Renumber leave the members in place *)

Section SortFacts.

Context {sorter : StdSort}.
Variable broker : CServiceBroker.

(** [Sort()] permutes the sequence and touches nothing else. *)
Lemma Sort_permutes s :
  ∃ l, l ≡ₚ m_sortedMembers (this s)
       ∧ Sort s = with_this s (with_sortedMembers (this s) l).
Proof.
  unfold Sort, SortByClientChannelNumber, SortByChannelNumber.
  destruct (m_bUsingBackendChannelOrder (this s)),
           (PreventSortAndRenumber (this s)); simpl.
  - exists (m_sortedMembers (this s)).
    by rewrite with_sortedMembers_same, with_this_same.
  - eexists. split; [|done].
    apply std_sort_permutation, sortByClientChannelNumber_swo.
  - exists (m_sortedMembers (this s)).
    by rewrite with_sortedMembers_same, with_this_same.
  - eexists. split; [|done].
    apply std_sort_permutation, sortByChannelNumber_swo.
Qed.

Lemma Sort_prevented s : PreventSortAndRenumber (this s) = true → Sort s = s.
Proof.
  intros Hp. unfold Sort, SortByClientChannelNumber, SortByChannelNumber.
  rewrite Hp. simpl. by destruct (m_bUsingBackendChannelOrder _).
Qed.

Lemma Renumber_loop_length bU bS mode g l : ∀ h i b,
  length (Renumber_loop bU bS mode g l (h, i, b)).1.1 = length h.
Proof.
  induction l as [|q l IH]; intros h i b; simpl; [done|].
  rewrite Renumber_step_values. cbv zeta.
  destruct (_ || _); rewrite IH; [|done].
  apply length_Renumber_write.
Qed.

(** With the backend numbers in use, a round leaves the member it visits
    with a group number equal to its backend number, and breaks no such
    equality elsewhere. *)
Lemma Renumber_step_backend_numbers bS mode g q h i b :
  pointers_allocated h g → (q < length h)%nat →
  let h' := (Renumber_step true bS mode g q (h, i, b)).1.1 in
  Member.ChannelNumber (deref h' q) = Member.ClientChannelNumber (deref h' q)
  ∧ ∀ p, Member.ChannelNumber (deref h p) = Member.ClientChannelNumber (deref h p) →
         Member.ChannelNumber (deref h' p) = Member.ClientChannelNumber (deref h' p).
Proof.
  intros Hwf Hq. rewrite Renumber_step_values. cbv zeta.
  set (v := Renumber_values true bS mode g h q i).
  assert (v.1.1 = v.1.2) as Hv by reflexivity.
  destruct (_ || _) eqn:Hchanged; cbn [fst snd].
  - assert (∀ p, Member.ChannelNumber (deref (Renumber_write g h q v.1.1 v.1.2) p)
               = Member.ClientChannelNumber (deref (Renumber_write g h q v.1.1 v.1.2) p)
               ∨ deref (Renumber_write g h q v.1.1 v.1.2) p = deref h p) as Hp.
    { intros p. rewrite Renumber_write_deref;
        [|done|by eapply unsorted_of_allocated].
      case_bool_decide; [left|by right].
      by rewrite assign_number, assign_client. }
    split.
    + rewrite Renumber_write_deref; [|done|by eapply unsorted_of_allocated].
      rewrite bool_decide_true by by left.
      by rewrite assign_number, assign_client.
    + intros p Hpeq. destruct (Hp p) as [?| ->]; done.
  - apply orb_false_iff in Hchanged as [H1 H2].
    apply number_neb_false in H1, H2. split; [congruence|done].
Qed.

Lemma Renumber_loop_backend_numbers bS mode g l : ∀ h i b,
  pointers_allocated h g → (∀ q, q ∈ l → (q < length h)%nat) →
  let h' := (Renumber_loop true bS mode g l (h, i, b)).1.1 in
  ∀ p, p ∈ l ∨ Member.ChannelNumber (deref h p) = Member.ClientChannelNumber (deref h p) →
       Member.ChannelNumber (deref h' p) = Member.ClientChannelNumber (deref h' p).
Proof.
  induction l as [|q l IH]; intros h i b Hwf Hl; simpl.
  - intros p [Hp|Hp]; [by apply elem_of_nil in Hp|done].
  - pose proof (Renumber_step_backend_numbers bS mode g q h i b Hwf
                  (Hl q ltac:(left))) as [Hq Hkeep].
    destruct (Renumber_step true bS mode g q (h, i, b)) as [[h1 i1] b1] eqn:E.
    simpl in Hq, Hkeep.
    assert (length h1 = length h) as Hlen.
    { rewrite Renumber_step_values in E. cbv zeta in E.
      destruct (_ || _); inversion E; subst; [apply length_Renumber_write|done]. }
    intros p Hp. apply IH.
    + unfold pointers_allocated in *. by rewrite Hlen.
    + intros r Hr. rewrite Hlen. apply Hl. by right.
    + destruct Hp as [Hp|Hp].
      * apply elem_of_cons in Hp as [->|Hp]; [by right|by left].
      * right. by apply Hkeep.
Qed.

End SortFacts.

(** ** Renumber and SortAndRenumber *)

Section RenumberFacts.

Context {sorter : StdSort}.
Variable broker : CServiceBroker.

Lemma Renumber_unprevented mode s :
  PreventSortAndRenumber (this s) = false →
  Renumber broker mode s =
    let settings := GetSettings broker in
    let bU := UsingBackendChannelNumbers broker settings in
    let bS := SETTING_PVRMANAGER_STARTGROUPCHANNELNUMBERSFROMONE settings && negb bU in
    let r := Renumber_loop bU bS mode (this s) (m_sortedMembers (this s))
               (st_heap s, 0, false) in
    (r.2, Sort (with_heap s r.1.1)).
Proof.
  intros Hp. unfold Renumber. rewrite Hp. cbv zeta.
  by destruct (Renumber_loop _ _ _ _ _ _) as [[h i] b].
Qed.

(** C1, amended: on a group flagged to prevent sorting and renumbering,
    [Renumber(mode)], [SortAndRenumber()] and [Sort()] leave the store and
    the group as they are, and the two that return a value return [true],
    which is also what they return after a run that changed numbers. *)
Theorem prevented_Renumber_is_noop_returning_true (mode : RenumberMode) (s : State) :
  PreventSortAndRenumber (this s) = true →
  Renumber broker mode s = (true, s)
  ∧ SortAndRenumber broker s = (true, s)
  ∧ Sort s = s.
Proof.
  intros Hp. unfold Renumber, SortAndRenumber. rewrite Hp.
  repeat split. by apply Sort_prevented.
Qed.

End RenumberFacts.

Lemma prevented_Renumber_is_noop_returning_true_witness :
  PreventSortAndRenumber (this Example.prevented_state) = true
  ∧ Renumber (sorter := stable_sorter) Example.broker_without_database NORMAL
      Example.prevented_state = (true, Example.prevented_state).
Proof.
  split; [reflexivity|].
  apply (prevented_Renumber_is_noop_returning_true (sorter := stable_sorter)
           Example.broker_without_database NORMAL Example.prevented_state).
  reflexivity.
Defined.

(** C1, as stated, fails on the value returned.  [Renumber()] returns
    [false] when it has run and found every number in place; on the same
    members with the flag set it returns [true]. *)
Lemma prevented_Renumber_does_not_return_no_change :
  Renumber (sorter := stable_sorter) Example.broker_without_database NORMAL
    Example.loaded_group_state = (false, Example.loaded_group_state)
  ∧ (Renumber (sorter := stable_sorter) Example.broker_without_database NORMAL
       Example.prevented_state).1 = true
  ∧ (SortAndRenumber (sorter := stable_sorter) Example.broker_without_database
       Example.prevented_state).1 = true.
Proof. split; [|split]; vm_compute; reflexivity. Qed.

(** ** How the methods move the store and the two views *)

(** The state [s] with another store, sequence and map; every other field
    of the group, and the effects, as in [s]. *)
Definition upd (s : State) (h : Heap) (l : list ptr) (m : gmap (Z * Z) ptr) : State :=
  mkState h (with_members (with_sortedMembers (this s) l) m) (st_trace s).

Lemma upd_upd s h l m h' l' m' : upd (upd s h l m) h' l' m' = upd s h' l' m'.
Proof. by destruct s as [h0 [] t]. Qed.

Lemma upd_same s : upd s (st_heap s) (m_sortedMembers (this s)) (m_members (this s)) = s.
Proof. by destruct s as [h0 [] t]. Qed.

(** The store [h'] has the objects of [h], with the channels they had. *)
Definition heap_extends (h h' : Heap) : Prop :=
  (length h ≤ length h')%nat
  ∧ ∀ p, (p < length h)%nat →
         Member.Channel (deref h' p) = Member.Channel (deref h p).

Lemma heap_extends_refl h : heap_extends h h.
Proof. by split. Qed.

Lemma heap_extends_trans h1 h2 h3 :
  heap_extends h1 h2 → heap_extends h2 h3 → heap_extends h1 h3.
Proof.
  intros [Hl1 Hc1] [Hl2 Hc2]. split; [lia|].
  intros p Hp. rewrite Hc2 by lia. by apply Hc1.
Qed.

Lemma heap_extends_store h p m :
  Member.Channel m = Member.Channel (deref h p) → heap_extends h (store h p m).
Proof.
  intros Hm. split; [by rewrite length_store|].
  intros q Hq. destruct (decide (q = p)) as [->|Hne].
  - by rewrite deref_store_eq.
  - by rewrite deref_store_ne.
Qed.

Lemma heap_extends_make_shared h m : heap_extends h (make_shared h m).2.
Proof.
  split; [simpl; rewrite length_app; lia|].
  intros p Hp. by rewrite deref_make_shared_old.
Qed.

Section Frames.

Context {sorter : StdSort}.
Variable broker : CServiceBroker.

Lemma Sort_upd s :
  ∃ l, l ≡ₚ m_sortedMembers (this s)
       ∧ Sort s = upd s (st_heap s) l (m_members (this s)).
Proof.
  destruct (Sort_permutes s) as (l & Hl & ->). exists l. split; [done|].
  by destruct s as [h0 [] t].
Qed.

Lemma store_channel (h : Heap) (r : ptr) (m : Member.t) (p : ptr) :
  Member.Channel m = Member.Channel (deref h r) →
  Member.Channel (deref (store h r m) p) = Member.Channel (deref h p).
Proof.
  intros Hm. destruct (decide (p = r)) as [->|Hne].
  - destruct (decide (r < length h)%nat).
    + by rewrite deref_store_eq.
    + by rewrite store_unallocated by lia.
  - by rewrite deref_store_ne.
Qed.

Lemma Renumber_write_channel g h q cn ccn p :
  Member.Channel (deref (Renumber_write g h q cn ccn) p) = Member.Channel (deref h p).
Proof.
  unfold Renumber_write. cbv zeta.
  rewrite store_channel by apply SetClientChannelNumber_channel.
  rewrite store_channel by apply SetChannelNumber_channel.
  rewrite store_channel by apply SetClientChannelNumber_channel.
  rewrite store_channel by apply SetChannelNumber_channel.
  done.
Qed.

Lemma Renumber_loop_channel bU bS mode g l : ∀ h i b p,
  Member.Channel (deref (Renumber_loop bU bS mode g l (h, i, b)).1.1 p)
  = Member.Channel (deref h p).
Proof.
  induction l as [|q l IH]; intros h i b p; simpl; [done|].
  rewrite Renumber_step_values. cbv zeta.
  destruct (_ || _); rewrite IH; [|done].
  apply Renumber_write_channel.
Qed.

Lemma Renumber_upd mode s :
  ∃ h l, l ≡ₚ m_sortedMembers (this s)
         ∧ length h = length (st_heap s)
         ∧ (∀ p, Member.Channel (deref h p) = Member.Channel (deref (st_heap s) p))
         ∧ (Renumber broker mode s).2 = upd s h l (m_members (this s)).
Proof.
  destruct (PreventSortAndRenumber (this s)) eqn:Hp.
  - exists (st_heap s), (m_sortedMembers (this s)).
    unfold Renumber. rewrite Hp. simpl. by rewrite upd_same.
  - rewrite Renumber_unprevented by done. cbv zeta.
    set (r := Renumber_loop _ _ _ _ _ _).
    destruct (Sort_upd (with_heap s r.1.1)) as (l & Hl & Hs).
    exists r.1.1, l. split; [done|].
    split; [apply Renumber_loop_length|].
    split; [intros p; apply Renumber_loop_channel|].
    cbn [snd]. rewrite Hs. by destruct s as [h0 [] t].
Qed.

Lemma SortAndRenumber_upd s :
  ∃ h l, l ≡ₚ m_sortedMembers (this s)
         ∧ length h = length (st_heap s)
         ∧ (∀ p, Member.Channel (deref h p) = Member.Channel (deref (st_heap s) p))
         ∧ (SortAndRenumber broker s).2 = upd s h l (m_members (this s)).
Proof.
  unfold SortAndRenumber. destruct (PreventSortAndRenumber (this s)) eqn:Hp.
  - exists (st_heap s), (m_sortedMembers (this s)). simpl. by rewrite upd_same.
  - destruct (Sort_upd s) as (l1 & Hl1 & ->).
    destruct (Renumber_upd NORMAL (upd s (st_heap s) l1 (m_members (this s))))
      as (h & l & Hl & Hlen & Hch & ->).
    exists h, l. cbn in Hl, Hlen, Hch. rewrite upd_upd.
    split; [by rewrite Hl|]. done.
Qed.

End Frames.

(** ** The member index: map and sequence in lockstep *)

(** The key a member is filed under: the storage id of its channel. *)
Definition key_of (h : Heap) (p : ptr) : option (Z * Z) :=
  StorageId <$> Member.Channel (deref h p).

(** The sequence [l] and the map [m] hold the same member objects: the
    sequence holds no object twice, each object of the sequence has a
    channel and is what the map holds under that channel's key, and each
    object of the map is in the sequence and filed under its own key. *)
Definition lockstep_at (h : Heap) (l : list ptr) (m : gmap (Z * Z) ptr) : Prop :=
  NoDup l
  ∧ Forall (λ p, (p < length h)%nat ∧ key_of h p ≫= (λ k, m !! k) = Some p) l
  ∧ map_Forall (λ k p, p ∈ l ∧ key_of h p = Some k) m.

Definition lockstep (h : Heap) (g : CPVRChannelGroup) : Prop :=
  lockstep_at h (m_sortedMembers g) (m_members g).

#[global] Instance lockstep_at_dec h l m : Decision (lockstep_at h l m).
Proof. unfold lockstep_at. apply _. Defined.

#[global] Instance lockstep_dec h g : Decision (lockstep h g).
Proof. unfold lockstep. apply _. Defined.

Lemma key_of_Some h p k :
  key_of h p = Some k ↔ ∃ c, Member.Channel (deref h p) = Some c ∧ StorageId c = k.
Proof.
  unfold key_of. destruct (Member.Channel (deref h p)) as [c|]; simpl.
  - split; [intros [= <-]; eauto|intros (c' & [= <-] & <-); done].
  - split; [done|intros (c' & ? & _); done].
Qed.

Lemma key_of_deref_channel h p k :
  key_of h p = Some k → StorageId (deref_channel (Member.Channel (deref h p))) = k.
Proof. intros (c & -> & <-)%key_of_Some. done. Qed.

Lemma lockstep_at_sequence h l m p :
  lockstep_at h l m → p ∈ l →
  (p < length h)%nat ∧ ∃ k, key_of h p = Some k ∧ m !! k = Some p.
Proof.
  intros (_ & Hl & _) Hp.
  destruct (proj1 (Forall_forall _ _) Hl p Hp) as [Halloc Hk].
  split; [done|]. destruct (key_of h p) as [k|]; [|done]. eauto.
Qed.

Lemma lockstep_at_map h l m k p :
  lockstep_at h l m → m !! k = Some p → p ∈ l ∧ key_of h p = Some k.
Proof. intros (_ & _ & Hm) Hk. by apply (Hm k p). Qed.

(** In lockstep the two views have the same members and the same size. *)
Lemma lockstep_at_same_members h l m :
  lockstep_at h l m →
  (∀ p, p ∈ l ↔ ∃ k, m !! k = Some p) ∧ length l = size m.
Proof.
  intros Hls.
  assert (∀ p, p ∈ l ↔ ∃ k, m !! k = Some p) as Hsame.
  { intros p. split.
    - intros Hp. destruct (lockstep_at_sequence _ _ _ _ Hls Hp) as (_ & k & _ & Hk).
      eauto.
    - intros (k & Hk). by destruct (lockstep_at_map _ _ _ _ _ Hls Hk). }
  split; [done|].
  rewrite <- length_map_to_list, <- (length_fmap snd).
  apply Permutation_length, NoDup_Permutation.
  - by destruct Hls.
  - apply NoDup_fmap_2_strong; [|apply NoDup_map_to_list].
    intros [k1 p1] [k2 p2] H1%elem_of_map_to_list H2%elem_of_map_to_list Heq.
    simpl in Heq. subst p2.
    destruct (lockstep_at_map _ _ _ _ _ Hls H1) as [_ Hk1].
    destruct (lockstep_at_map _ _ _ _ _ Hls H2) as [_ Hk2]. congruence.
  - intros p. rewrite Hsame. rewrite list_elem_of_fmap. split.
    + intros (k & Hk). exists (k, p). split; [done|]. by apply elem_of_map_to_list.
    + intros ([k p'] & -> & Hk%elem_of_map_to_list). eauto.
Qed.

(** The store only matters through the channels of the allocated objects. *)
Lemma lockstep_at_heap_extends h h' l m :
  heap_extends h h' → lockstep_at h l m → lockstep_at h' l m.
Proof.
  intros [Hlen Hch] Hls.
  assert (∀ p, p ∈ l → key_of h' p = key_of h p) as Hkey.
  { intros p Hp. destruct (lockstep_at_sequence _ _ _ _ Hls Hp) as [Halloc _].
    unfold key_of. by rewrite Hch. }
  destruct Hls as (Hnd & Hl & Hm). split; [done|]. split.
  - apply Forall_forall. intros p Hp.
    destruct (proj1 (Forall_forall _ _) Hl p Hp) as [Halloc Hk].
    split; [lia|]. by rewrite Hkey.
  - intros k p Hk. destruct (Hm k p Hk) as [Hp Hkp]. split; [done|].
    by rewrite Hkey.
Qed.

Lemma lockstep_at_permutation h l l' m :
  l' ≡ₚ l → lockstep_at h l m → lockstep_at h l' m.
Proof.
  intros Hperm (Hnd & Hl & Hm). split; [by rewrite Hperm|].
  split; [by rewrite Hperm|].
  intros k p Hk. destruct (Hm k p Hk) as [Hp Hkp]. by rewrite Hperm.
Qed.

Lemma elem_of_app_middle (l1 l2 : list ptr) (p x : ptr) :
  x ∈ l1 ++ p :: l2 ↔ x = p ∨ x ∈ l1 ++ l2.
Proof. rewrite !elem_of_app, elem_of_cons. tauto. Qed.

(** Taking a member out of the sequence and its key out of the map. *)
Lemma lockstep_at_remove h l1 p l2 m :
  lockstep_at h (l1 ++ p :: l2) m →
  lockstep_at h (l1 ++ l2)
    (delete (StorageId (deref_channel (Member.Channel (deref h p)))) m).
Proof.
  intros Hls.
  assert (p ∈ l1 ++ p :: l2) as Hp by (apply elem_of_app_middle; by left).
  destruct (lockstep_at_sequence _ _ _ _ Hls Hp) as (_ & k & Hk & Hmk).
  rewrite (key_of_deref_channel _ _ _ Hk).
  pose proof Hls as (Hnd & Hl & Hm).
  apply NoDup_app in Hnd as (Hnd1 & Hnot & Hnd2).
  apply NoDup_cons in Hnd2 as [Hp2 Hnd2].
  assert (p ∉ l1) as Hp1 by (intros ?; apply (Hnot p); [done|by left]).
  split; [|split].
  - apply NoDup_app. split; [done|]. split; [|done].
    intros x Hx1 Hx2. apply (Hnot x Hx1). by right.
  - apply Forall_forall. intros q Hq.
    assert (q ∈ l1 ++ p :: l2) as Hq' by (apply elem_of_app_middle; by right).
    destruct (lockstep_at_sequence _ _ _ _ Hls Hq') as (Halloc & kq & Hkq & Hmq).
    split; [done|]. rewrite Hkq. simpl.
    rewrite lookup_delete_ne; [done|].
    intros <-. assert (q = p) as -> by congruence.
    apply elem_of_app in Hq as [?|?]; done.
  - intros k' q Hk'. apply lookup_delete_Some in Hk' as [Hne Hk'].
    destruct (Hm k' q Hk') as [Hq Hkq]. split; [|done].
    apply elem_of_app_middle in Hq as [->|Hq]; [congruence|done].
Qed.

(** [EmptyMember] exists and has no channel. *)
Definition sentinel_empty (h : Heap) : Prop :=
  (EmptyMember < length h)%nat ∧ Member.Channel (deref h EmptyMember) = None.

(** The map [m] files allocated members under the key of their channel. *)
Definition keyed (h : Heap) (m : gmap (Z * Z) ptr) : Prop :=
  map_Forall (λ k p, (p < length h)%nat ∧ key_of h p = Some k) m.

#[global] Instance sentinel_empty_dec h : Decision (sentinel_empty h).
Proof. unfold sentinel_empty. apply _. Defined.

#[global] Instance keyed_dec h m : Decision (keyed h m).
Proof. unfold keyed. apply _. Defined.

Lemma sentinel_empty_heap_extends h h' :
  heap_extends h h' → sentinel_empty h → sentinel_empty h'.
Proof.
  intros [Hlen Hch] [H0 Hnone]. split; [lia|]. by rewrite Hch.
Qed.

Lemma keyed_heap_extends h h' m : heap_extends h h' → keyed h m → keyed h' m.
Proof.
  intros [Hlen Hch] Hk k p Hkp. destruct (Hk k p Hkp) as [Halloc Hkey].
  split; [lia|]. unfold key_of. by rewrite Hch.
Qed.

Lemma GetByUniqueID_keyed h m k :
  sentinel_empty h → keyed h m →
  match m !! k with
  | Some p => GetByUniqueID m k = p ∧ (p < length h)%nat ∧ key_of h p = Some k
  | None => Member.Channel (deref h (GetByUniqueID m k)) = None
  end.
Proof.
  intros [_ Hnone] Hk. unfold GetByUniqueID.
  destruct (m !! k) as [p|] eqn:E; [|done].
  destruct (Hk k p E). done.
Qed.

(** ** The loops that remove members *)

Lemma RemoveFromGroup_loop_spec h channel l m :
  RemoveFromGroup_loop h channel l m = (false, l, m)
  ∨ ∃ l1 p l2,
      l = l1 ++ p :: l2
      ∧ channel_eqb channel (deref_channel (Member.Channel (deref h p))) = true
      ∧ RemoveFromGroup_loop h channel l m
        = (true, l1 ++ l2,
           delete (StorageId (deref_channel (Member.Channel (deref h p)))) m).
Proof.
  induction l as [|q l IH]; simpl; [by left|].
  destruct (channel_eqb _ _) eqn:E.
  - right. exists [], q, l. done.
  - destruct IH as [->|(l1 & p & l2 & -> & Hp & ->)]; [by left|].
    right. exists (q :: l1), p, l2. done.
Qed.

Lemma RemoveDeletedChannels_loop_lockstep h g channels l : ∀ pre m removed,
  lockstep_at h (pre ++ l) m →
  let r := RemoveDeletedChannels_loop h g channels l m removed in
  lockstep_at h (pre ++ r.1.1) r.1.2.
Proof.
  induction l as [|p l IH]; intros pre m removed Hls; simpl; [done|].
  destruct (m_members channels !! _) eqn:E.
  - specialize (IH (pre ++ [p]) m removed).
    rewrite <- !app_assoc in IH. specialize (IH Hls).
    destruct (RemoveDeletedChannels_loop h g channels l m removed) as [[kept m'] rem'].
    simpl in *. by rewrite <- app_assoc in IH.
  - apply IH. by apply lockstep_at_remove.
Qed.

(** The member at [p] is missing from the fetched group [channels]. *)
Definition missing_from (h : Heap) (channels : CPVRChannelGroup) (p : ptr) : Prop :=
  m_members channels !! StorageId (deref_channel (Member.Channel (deref h p))) = None.

(** What the loop of [RemoveDeletedChannels] keeps, drops and reports. *)
Lemma RemoveDeletedChannels_loop_spec h g channels l : ∀ m removed,
  let r := RemoveDeletedChannels_loop h g channels l m removed in
  (∀ p, p ∈ r.1.1 ↔ p ∈ l ∧ ¬ missing_from h channels p)
  ∧ (∀ k q, r.1.2 !! k = Some q ↔
       m !! k = Some q
       ∧ ¬ ∃ p, p ∈ l ∧ missing_from h channels p
                ∧ StorageId (deref_channel (Member.Channel (deref h p))) = k)
  ∧ (∀ c, c ∈ r.2 ↔
       c ∈ removed
       ∨ ∃ p, p ∈ l ∧ missing_from h channels p
              ∧ c = deref_channel (Member.Channel (deref h p))
              ∧ HasValidDataFromClient g (ClientID c) = true).
Proof.
  unfold missing_from.
  induction l as [|p l IH]; intros m removed; simpl.
  - split; [|split].
    + intros q. rewrite elem_of_nil. tauto.
    + intros k q. split; [intros ?; split; [done|]|tauto].
      intros (q' & Hq' & _). by apply elem_of_nil in Hq'.
    + intros c. split; [by left|]. intros [?|(q & Hq & _)]; [done|].
      by apply elem_of_nil in Hq.
  - destruct (m_members channels !! _) as [x|] eqn:E.
    + specialize (IH m removed).
      destruct (RemoveDeletedChannels_loop h g channels l m removed)
        as [[kept m'] rem'].
      simpl in *. destruct IH as (IH1 & IH2 & IH3). split; [|split].
      * intros q. rewrite !elem_of_cons, IH1. split.
        -- intros [->|[? ?]]; [|tauto]. split; [by left|]. congruence.
        -- intros [[->|?] ?]; tauto.
      * intros k q. rewrite IH2. split; intros [Hm Hno]; (split; [done|]).
        -- intros (q' & [->|Hq']%elem_of_cons & Hmiss & Hk); [congruence|].
           apply Hno. eauto.
        -- intros (q' & Hq' & Hmiss & Hk). apply Hno. exists q'.
           split; [by right|done].
      * intros c. rewrite IH3. split.
        -- intros [?|(q & Hq & ?)]; [by left|]. right. exists q.
           split; [by right|done].
        -- intros [?|(q & [->|Hq]%elem_of_cons & Hmiss & ?)]; [by left| |].
           ++ congruence.
           ++ right. eauto.
    + set (c := deref_channel (Member.Channel (deref h p))) in *.
      specialize (IH (delete (StorageId c) m)
                    (if HasValidDataFromClient g (ClientID c)
                     then removed ++ [c] else removed)).
      destruct (RemoveDeletedChannels_loop h g channels l _ _) as [[kept m'] rem'].
      simpl in *. destruct IH as (IH1 & IH2 & IH3). split; [|split].
      * intros q. rewrite IH1, elem_of_cons. split; [tauto|].
        intros [[->|?] Hq]; [|done]. by destruct Hq.
      * intros k q. rewrite IH2, lookup_delete_Some. split.
        -- intros [[Hne Hm] Hno]. split; [done|].
           intros (q' & [->|Hq']%elem_of_cons & Hmiss & Hk); [done|].
           apply Hno. eauto.
        -- intros [Hm Hno]. split; [split; [|done]|].
           ++ intros Hk. apply Hno. exists p. split; [by left|done].
           ++ intros (q' & Hq' & Hmiss & Hk). apply Hno. exists q'.
              split; [by right|done].
      * intros c'. rewrite IH3. split.
        -- intros [Hc'|(q & Hq & Hmiss & -> & Hvalid)].
           ++ destruct (HasValidDataFromClient g (ClientID c)) eqn:Hv;
                [|by left].
              apply elem_of_app in Hc' as [?|Hc'%list_elem_of_singleton];
                [by left|]. subst c'.
              right. exists p. split; [by left|done].
           ++ right. exists q. split; [by right|done].
        -- intros [?|(q & [->|Hq]%elem_of_cons & Hmiss & -> & Hvalid)].
           ++ left. destruct (HasValidDataFromClient g (ClientID c)); [|done].
              apply elem_of_app. by left.
           ++ left. fold c. fold c in Hvalid. rewrite Hvalid.
              apply elem_of_app. right. by apply list_elem_of_singleton.
           ++ right. eauto.
Qed.

(** ** Adding a member *)

(** The member [AddToGroup] creates from the member [real] of the all
    channels group. *)
Definition new_member_of (real : Member.t) (channelNumber : CPVRChannelNumber)
    (iOrder : Z) (clientChannelNumber : CPVRChannelNumber) : Member.t :=
  Member.create (Member.Channel real)
    (ChannelNumber
       (if IsValid channelNumber then GetChannelNumber channelNumber
        else GetChannelNumber (Member.ChannelNumber real))
       (GetSubChannelNumber channelNumber))
    (Member.ClientPriority real) iOrder
    (if IsValid clientChannelNumber then clientChannelNumber
     else Member.ClientChannelNumber real).

Section Adding.

Context {sorter : StdSort}.
Variable broker : CServiceBroker.

(** [AddToGroup] adds nothing to a group that has the channel, to the
    internal group, or when the all channels group does not know the
    channel; otherwise the new member goes to the end of the sequence and
    into the map, and [SortAndRenumber()] runs. *)
Lemma AddToGroup_spec channel channelNumber iOrder bU clientChannelNumber s :
  sentinel_empty (st_heap s) →
  keyed (st_heap s) (m_allChannelsGroup (this s)) →
  AddToGroup broker channel channelNumber iOrder bU clientChannelNumber s =
    if IsGroupMember (this s) channel then (false, s)
    else if IsInternalGroup (this s) then (false, s)
    else match m_allChannelsGroup (this s) !! StorageId channel with
         | None => (false, s)
         | Some r =>
             (true,
              (SortAndRenumber broker
                 (upd s
                    (st_heap s ++ [new_member_of (deref (st_heap s) r) channelNumber
                                     iOrder clientChannelNumber])
                    (m_sortedMembers (this s) ++ [length (st_heap s)])
                    (<[StorageId channel := length (st_heap s)]> (m_members (this s))))).2)
         end.
Proof.
  intros Hsent Hall. unfold AddToGroup.
  destruct (IsGroupMember (this s) channel) eqn:Hmember; [done|]. simpl.
  assert (m_members (this s) !! StorageId channel = None) as Hnone.
  { unfold IsGroupMember in Hmember. by destruct (m_members (this s) !! _). }
  destruct (IsInternalGroup (this s)).
  - unfold GetByUniqueID. rewrite Hnone. by rewrite (proj2 Hsent).
  - pose proof (GetByUniqueID_keyed _ _ (StorageId channel) Hsent Hall) as Hget.
    destruct (m_allChannelsGroup (this s) !! StorageId channel) as [r|] eqn:Hr.
    + destruct Hget as (-> & Halloc & (c & Hc & Hkey)%key_of_Some).
      rewrite Hc. unfold new_member_of. rewrite Hc.
      unfold map_insert_new.
      cbn [m_members with_sortedMembers]. rewrite Hkey, Hnone.
      destruct (IsValid channelNumber), (IsValid clientChannelNumber);
        simpl; by destruct s as [h0 [] t].
    + by rewrite Hget.
Qed.

Lemma lockstep_at_add h l m new k :
  lockstep_at h l m →
  m !! k = None →
  key_of [new] 0%nat = Some k →
  lockstep_at (h ++ [new]) (l ++ [length h]) (<[k := length h]> m).
Proof.
  intros Hls Hnone Hnew.
  assert (heap_extends h (h ++ [new])) as Hext by apply (heap_extends_make_shared h new).
  assert (key_of (h ++ [new]) (length h) = Some k) as Hkey.
  { unfold key_of in *. rewrite <- Hnew. f_equal. f_equal.
    apply (deref_make_shared_new h new). }
  pose proof (lockstep_at_heap_extends _ _ _ _ Hext Hls) as Hls'.
  assert (length h ∉ l) as Hfresh.
  { intros Hin. destruct (lockstep_at_sequence _ _ _ _ Hls Hin). lia. }
  split; [|split].
  - apply NoDup_app. split; [by destruct Hls|]. split; [|apply NoDup_singleton].
    intros x Hx ->%list_elem_of_singleton. done.
  - apply Forall_app. split.
    + apply Forall_forall. intros p Hp.
      destruct (lockstep_at_sequence _ _ _ _ Hls' Hp) as (Halloc & kp & Hkp & Hmp).
      split; [done|]. rewrite Hkp. simpl.
      rewrite lookup_insert_ne; [done|]. congruence.
    + apply Forall_singleton. split; [rewrite length_app; simpl; lia|].
      rewrite Hkey. simpl. apply lookup_insert_eq.
  - intros k' q Hq. apply lookup_insert_Some in Hq as [[<- <-]|[Hne Hq]].
    + split; [|done]. apply elem_of_app. right. by apply list_elem_of_singleton.
    + destruct (lockstep_at_map _ _ _ _ _ Hls' Hq). split; [|done].
      apply elem_of_app. by left.
Qed.

Lemma SortAndRenumber_lockstep s :
  lockstep (st_heap s) (this s) →
  lockstep (st_heap (SortAndRenumber broker s).2) (this (SortAndRenumber broker s).2).
Proof.
  intros Hls. destruct (SortAndRenumber_upd broker s) as (h & l & Hl & Hlen & Hch & ->).
  unfold lockstep. cbn. apply (lockstep_at_permutation _ _ _ _ Hl).
  eapply lockstep_at_heap_extends; [|exact Hls]. split; [lia|]. intros; apply Hch.
Qed.

Lemma Renumber_lockstep mode s :
  lockstep (st_heap s) (this s) →
  lockstep (st_heap (Renumber broker mode s).2) (this (Renumber broker mode s).2).
Proof.
  intros Hls. destruct (Renumber_upd broker mode s) as (h & l & Hl & Hlen & Hch & ->).
  unfold lockstep. cbn. apply (lockstep_at_permutation _ _ _ _ Hl).
  eapply lockstep_at_heap_extends; [|exact Hls]. split; [lia|]. intros; apply Hch.
Qed.

Lemma AddToGroup_lockstep channel channelNumber iOrder bU clientChannelNumber s :
  sentinel_empty (st_heap s) →
  keyed (st_heap s) (m_allChannelsGroup (this s)) →
  lockstep (st_heap s) (this s) →
  let s' := (AddToGroup broker channel channelNumber iOrder bU clientChannelNumber s).2 in
  lockstep (st_heap s') (this s').
Proof.
  intros Hsent Hall Hls. rewrite AddToGroup_spec by done.
  destruct (IsGroupMember (this s) channel) eqn:Hmember; [done|].
  destruct (IsInternalGroup (this s)); [done|].
  destruct (m_allChannelsGroup (this s) !! StorageId channel) as [r|] eqn:Hr; [|done].
  cbn [snd]. apply SortAndRenumber_lockstep. unfold lockstep. cbn.
  apply lockstep_at_add; [done| |].
  - unfold IsGroupMember in Hmember. by destruct (m_members (this s) !! _).
  - destruct (Hall _ _ Hr) as [_ Hk]. unfold key_of in *. exact Hk.
Qed.

End Adding.

(** ** The member index after a mutation *)

(** The two views hold the same member objects, and as many. *)
Definition same_members (s : State) : Prop :=
  (∀ p, p ∈ m_sortedMembers (this s) ↔ ∃ k, m_members (this s) !! k = Some p)
  ∧ length (m_sortedMembers (this s)) = size (m_members (this s)).

Definition index_consistent (s : State) : Prop :=
  lockstep (st_heap s) (this s) ∧ same_members s.

Lemma lockstep_index_consistent s :
  lockstep (st_heap s) (this s) → index_consistent s.
Proof. intros Hls. split; [done|]. by apply lockstep_at_same_members in Hls. Qed.

Section Index.

Context {sorter : StdSort}.
Variable broker : CServiceBroker.

Lemma RemoveFromGroup_lockstep channel s :
  lockstep (st_heap s) (this s) →
  let s' := (RemoveFromGroup broker channel s).2 in
  lockstep (st_heap s') (this s').
Proof.
  intros Hls. unfold RemoveFromGroup.
  destruct (RemoveFromGroup_loop_spec (st_heap s) channel
              (m_sortedMembers (this s)) (m_members (this s)))
    as [->|(l1 & p & l2 & Hl & Hp & ->)].
  - cbn. by destruct s as [h0 [] t].
  - cbn [snd]. apply Renumber_lockstep. unfold lockstep in *. cbn.
    apply lockstep_at_remove. by rewrite <- Hl.
Qed.

Lemma RemoveDeletedChannels_lockstep channels s :
  lockstep (st_heap s) (this s) →
  let s' := (RemoveDeletedChannels channels s).2 in
  lockstep (st_heap s') (this s').
Proof.
  intros Hls. unfold RemoveDeletedChannels.
  pose proof (RemoveDeletedChannels_loop_lockstep (st_heap s) (this s) channels
                (m_sortedMembers (this s)) [] (m_members (this s)) [] Hls) as H.
  destruct (RemoveDeletedChannels_loop _ _ _ _ _ _) as [[l m] removed].
  exact H.
Qed.

(** C6: a member index that is in lockstep is in lockstep after
    [AddToGroup], [AppendToGroup], [RemoveFromGroup], the removal pass of
    reconciliation and [Unload]: the map and the sequence hold the same
    member objects, so the size of the one is the length of the other. *)
Theorem member_index_stays_in_lockstep (s : State) :
  sentinel_empty (st_heap s) →
  keyed (st_heap s) (m_allChannelsGroup (this s)) →
  lockstep (st_heap s) (this s) →
  (∀ channel channelNumber iOrder bUseBackendChannelNumbers clientChannelNumber,
     index_consistent
       (AddToGroup broker channel channelNumber iOrder bUseBackendChannelNumbers
          clientChannelNumber s).2)
  ∧ (∀ channel, index_consistent (AppendToGroup broker channel s).2)
  ∧ (∀ channel, index_consistent (RemoveFromGroup broker channel s).2)
  ∧ (∀ channels, index_consistent (RemoveDeletedChannels channels s).2)
  ∧ index_consistent (Unload s).
Proof.
  intros Hsent Hall Hls. repeat split_and.
  - intros. by apply lockstep_index_consistent, AddToGroup_lockstep.
  - intros. by apply lockstep_index_consistent, AddToGroup_lockstep.
  - intros. by apply lockstep_index_consistent, RemoveFromGroup_lockstep.
  - intros. by apply lockstep_index_consistent, RemoveDeletedChannels_lockstep.
  - apply lockstep_index_consistent. unfold lockstep, lockstep_at. cbn.
    split; [constructor|]. split; [constructor|]. apply map_Forall_empty.
Qed.

End Index.

Lemma member_index_stays_in_lockstep_witness :
  lockstep (st_heap Example.loaded_group_state) (this Example.loaded_group_state)
  ∧ length (m_sortedMembers
              (this (AppendToGroup (sorter := stable_sorter)
                       Example.broker_without_database Example.chC
                       Example.loaded_group_state).2)) = 3%nat
  ∧ index_consistent
      (AppendToGroup (sorter := stable_sorter) Example.broker_without_database
         Example.chC Example.loaded_group_state).2.
Proof.
  assert (lockstep (st_heap Example.loaded_group_state)
            (this Example.loaded_group_state)) as Hls.
  { apply (bool_decide_unpack _). vm_compute. exact I. }
  split; [exact Hls|]. split; [vm_compute; reflexivity|].
  apply (member_index_stays_in_lockstep (sorter := stable_sorter)
           Example.broker_without_database Example.loaded_group_state).
  - apply (bool_decide_unpack _). vm_compute. exact I.
  - apply (bool_decide_unpack _). vm_compute. exact I.
  - exact Hls.
Defined.

(** ** Reconciliation: what happens to the store and the views *)

#[global] Arguments UpdateClientPriorities_step : simpl never.
#[global] Arguments AddAndUpdateChannels_step : simpl never.

Section Reconciliation.

Context {sorter : StdSort}.
Variable broker : CServiceBroker.

Lemma UpdateClientPriorities_step_frame g p h b :
  let r := UpdateClientPriorities_step broker g p (h, b) in
  heap_extends h r.1 ∧ length r.1 = length h.
Proof.
  unfold UpdateClientPriorities_step.
  destruct (m_bUsingBackendChannelOrder g); [destruct (GetCreatedClient _ _)|];
    cbn [fst]; try (split; [apply heap_extends_refl|done]);
    (split; [apply heap_extends_store, SetClientPriority_channel|apply length_store]).
Qed.

Lemma UpdateClientPriorities_frame s :
  ∃ h, heap_extends (st_heap s) h
       ∧ length h = length (st_heap s)
       ∧ (UpdateClientPriorities broker s).2 = with_heap s h.
Proof.
  unfold UpdateClientPriorities.
  assert (∀ l h b,
            let r := foldl (λ locals member,
                              UpdateClientPriorities_step broker (this s) member locals)
                           (h, b) l in
            heap_extends h r.1 ∧ length r.1 = length h) as Hfold.
  { induction l as [|p l IH]; intros h b; simpl; [by split|].
    pose proof (UpdateClientPriorities_step_frame (this s) p h b) as [Hext Hlen].
    destruct (UpdateClientPriorities_step broker (this s) p (h, b)) as [h1 b1].
    simpl in *. destruct (IH h1 b1) as [Hext' Hlen'].
    split; [by eapply heap_extends_trans|lia]. }
  specialize (Hfold (m_sortedMembers (this s)) (st_heap s) false).
  destruct (foldl _ _ _) as [h b]. simpl in *. exists h. by destruct Hfold.
Qed.

(** The store after [Persist()]: the objects of the store before, which
    differ from them in their dirty flags at most. *)
Lemma Persist_heap s :
  length (st_heap (Persist broker s).2) = length (st_heap s)
  ∧ ∀ p, Member.SetSaved (deref (st_heap (Persist broker s).2) p)
         = Member.SetSaved (deref (st_heap s) p).
Proof.
  unfold Persist. destruct (_ && _); [done|].
  set (s1 := if m_iGroupId (this s) =? INVALID_GROUP_ID then _ else s).
  assert (st_heap s1 = st_heap s) as <-.
  { unfold s1. by destruct (m_iGroupId (this s) =? INVALID_GROUP_ID). }
  clearbody s1. destruct (GetTVDatabase broker) as [db|]; [|done].
  cbn [fst snd st_heap with_this emit with_heap].
  split; [apply database_Persist_length|intros p; apply database_Persist_SetSaved].
Qed.

Lemma Persist_heap_extends s :
  heap_extends (st_heap s) (st_heap (Persist broker s).2).
Proof.
  destruct (Persist_heap s) as [Hlen Hsaved]. split; [lia|].
  intros p _. exact (f_equal Member.Channel (Hsaved p)).
Qed.

(** [Persist()] touches neither of the two views, leaves every object of
    the store its channel, and adds at most the one call of the database
    to the effects. *)
Lemma Persist_frame s :
  heap_extends (st_heap s) (st_heap (Persist broker s).2)
  ∧ m_sortedMembers (this (Persist broker s).2) = m_sortedMembers (this s)
  ∧ m_members (this (Persist broker s).2) = m_members (this s)
  ∧ ∃ t, st_trace (Persist broker s).2 = st_trace s ++ t
         ∧ Forall (λ e, e = DatabasePersist (Persist broker s).1) t.
Proof.
  split; [apply Persist_heap_extends|].
  unfold Persist. destruct (_ && _).
  { repeat split. exists []. by rewrite app_nil_r. }
  destruct (m_iGroupId (this s) =? INVALID_GROUP_ID);
    destruct (GetTVDatabase broker) as [db|]; cbn; repeat split;
    (eexists; split; [reflexivity|]) || (exists []; split; [by rewrite app_nil_r|]);
    repeat constructor.
Qed.

Lemma Persist_without_database s :
  GetTVDatabase broker = None →
  (Persist broker s).1
  = negb (m_bLoaded (this s)) && negb (m_iGroupId (this s) =? INVALID_GROUP_ID).
Proof.
  intros Hdb. unfold Persist. rewrite Hdb. by destruct (_ && _).
Qed.

(** One round of the loop of [AddAndUpdateChannels], on the pair filed
    under [k]: objects are only added to the store, members only added at
    the end of the sequence, and the map only gains the key [k]. *)
Lemma AddAndUpdateChannels_step_frame bU b s k np :
  sentinel_empty (st_heap s) →
  keyed (st_heap s) (m_allChannelsGroup (this s)) →
  ∃ h l m,
    (AddAndUpdateChannels_step broker bU (b, s) (k, np)).2 = upd s h l m
    ∧ heap_extends (st_heap s) h
    ∧ (∀ q, q ∈ l → q ∈ m_sortedMembers (this s) ∨ (length (st_heap s) ≤ q)%nat)
    ∧ (∀ k' q, m !! k' = Some q → m_members (this s) !! k' = Some q ∨ k' = k)
    ∧ (lockstep (st_heap s) (this s) → lockstep_at h l m).
Proof.
  intros Hsent Hall.
  assert (∃ h l m, s = upd s h l m
            ∧ heap_extends (st_heap s) h
            ∧ (∀ q, q ∈ l → q ∈ m_sortedMembers (this s) ∨ (length (st_heap s) ≤ q)%nat)
            ∧ (∀ k' q, m !! k' = Some q → m_members (this s) !! k' = Some q ∨ k' = k)
            ∧ (lockstep (st_heap s) (this s) → lockstep_at h l m)) as Hsame.
  { exists (st_heap s), (m_sortedMembers (this s)), (m_members (this s)).
    rewrite upd_same. split; [done|]. split; [apply heap_extends_refl|]. auto. }
  unfold AddAndUpdateChannels_step. cbn [fst snd].
  pose proof (GetByUniqueID_keyed _ _ k Hsent Hall) as Hget.
  destruct (m_allChannelsGroup (this s) !! k) as [r|] eqn:Hr;
    [|by rewrite Hget].
  destruct Hget as (-> & Halloc & (c & Hc & Hkey)%key_of_Some). rewrite Hc.
  destruct (IsGroupMember (this s) c) eqn:Hmember; cbn [negb].
  - (* the channel is a member: its backend number and order are refreshed *)
    destruct (_ || _); [|exact Hsame]. cbn [snd].
    set (e := GetByUniqueID (m_members (this s)) k).
    set (h1 := store (st_heap s) e _).
    set (h2 := store h1 e _).
    assert (heap_extends (st_heap s) h2) as Hext.
    { eapply heap_extends_trans; apply heap_extends_store.
      - apply SetClientChannelNumber_channel.
      - apply SetOrder_channel. }
    exists h2, (m_sortedMembers (this s)), (m_members (this s)).
    split; [by destruct s as [h0 [] t]|]. split; [done|].
    split; [auto|]. split; [auto|].
    intros Hls. by eapply lockstep_at_heap_extends.
  - (* the channel is new to the group *)
    pose proof (AddToGroup_lockstep broker c
                  (Member.ChannelNumber (deref (st_heap s) np))
                  (Member.Order (deref (st_heap s) np)) bU
                  (Member.ClientChannelNumber (deref (st_heap s) np)) s Hsent Hall)
      as Hlock.
    rewrite AddToGroup_spec in * by done. rewrite Hmember in *.
    destruct (IsInternalGroup (this s)); [exact Hsame|].
    rewrite Hkey, Hr in *. cbn [snd] in *.
    set (new := new_member_of _ _ _ _) in *.
    set (s1 := upd s _ _ _) in *.
    destruct (SortAndRenumber_upd broker s1) as (h & l & Hl & Hlen & Hch & Heq).
    rewrite Heq in *. unfold s1 in *. rewrite upd_upd in *.
    cbn in Hl, Hlen, Hch, Hlock.
    exists h, l, (<[k := length (st_heap s)]> (m_members (this s))).
    split; [done|]. split; [|split; [|split]].
    + eapply heap_extends_trans; [apply (heap_extends_make_shared _ new)|].
      split; [simpl; lia|]. intros; apply Hch.
    + intros q Hq. rewrite Hl in Hq.
      apply elem_of_app in Hq as [?|Hq%list_elem_of_singleton]; [by left|].
      right. lia.
    + intros k' q Hq. apply lookup_insert_Some in Hq as [[<- _]|[_ ?]]; auto.
    + exact Hlock.
Qed.

End Reconciliation.

#[global] Arguments SortAndRenumber : simpl never.
#[global] Arguments Renumber : simpl never.
#[global] Arguments Persist : simpl never.
#[global] Arguments AddAndUpdateChannels : simpl never.
#[global] Arguments UpdateClientPriorities : simpl never.
#[global] Arguments RemoveDeletedChannels_loop : simpl never.
#[global] Arguments HasNewChannels : simpl never.

Section ReconciliationRun.

Context {sorter : StdSort}.
Variable broker : CServiceBroker.

Lemma AddAndUpdateChannels_fold_frame bU (K : Z * Z → Prop) pairs : ∀ b s,
  (∀ kp : Z * Z * ptr, kp ∈ pairs → K kp.1) →
  sentinel_empty (st_heap s) →
  keyed (st_heap s) (m_allChannelsGroup (this s)) →
  ∃ h l m,
    (foldl (AddAndUpdateChannels_step broker bU) (b, s) pairs).2 = upd s h l m
    ∧ heap_extends (st_heap s) h
    ∧ (∀ q, q ∈ l → q ∈ m_sortedMembers (this s) ∨ (length (st_heap s) ≤ q)%nat)
    ∧ (∀ k' q, m !! k' = Some q → m_members (this s) !! k' = Some q ∨ K k')
    ∧ (lockstep (st_heap s) (this s) → lockstep_at h l m).
Proof.
  induction pairs as [|[k np] pairs IH]; intros b s HK Hsent Hall.
  - exists (st_heap s), (m_sortedMembers (this s)), (m_members (this s)).
    cbn. rewrite upd_same. split; [done|]. split; [apply heap_extends_refl|]. auto.
  - cbn [foldl].
    destruct (AddAndUpdateChannels_step_frame broker bU b s k np Hsent Hall)
      as (h1 & l1 & m1 & Heq1 & Hext1 & Hl1 & Hm1 & Hls1).
    destruct (AddAndUpdateChannels_step broker bU (b, s) (k, np)) as [b1 s1].
    cbn [snd] in Heq1. subst s1.
    destruct (IH b1 (upd s h1 l1 m1)) as (h2 & l2 & m2 & Heq2 & Hext2 & Hl2 & Hm2 & Hls2).
    + intros kp Hkp. apply HK. by right.
    + by eapply sentinel_empty_heap_extends.
    + cbn. by eapply keyed_heap_extends.
    + rewrite upd_upd in Heq2. cbn in Hext2, Hl2, Hm2, Hls2.
      exists h2, l2, m2. split; [done|].
      split; [by eapply heap_extends_trans|]. split; [|split].
      * intros q Hq. destruct (Hl2 q Hq) as [Hq1|Hq1].
        -- by apply Hl1.
        -- right. destruct Hext1. lia.
      * intros k' q Hq. destruct (Hm2 k' q Hq) as [Hq1|?]; [|by right].
        destruct (Hm1 k' q Hq1) as [?|Hk']; [by left|]. subst k'.
        right. apply (HK (k, np)). by left.
      * intros Hls. apply Hls2. unfold lockstep. cbn. by apply Hls1.
Qed.

Lemma AddAndUpdateChannels_frame channels bU s :
  sentinel_empty (st_heap s) →
  keyed (st_heap s) (m_allChannelsGroup (this s)) →
  ∃ h l m,
    (AddAndUpdateChannels broker channels bU s).2 = upd s h l m
    ∧ heap_extends (st_heap s) h
    ∧ (∀ q, q ∈ l → q ∈ m_sortedMembers (this s) ∨ (length (st_heap s) ≤ q)%nat)
    ∧ (∀ k' q, m !! k' = Some q →
         m_members (this s) !! k' = Some q ∨ is_Some (m_members channels !! k'))
    ∧ (lockstep (st_heap s) (this s) → lockstep_at h l m).
Proof.
  intros Hsent Hall. unfold AddAndUpdateChannels.
  destruct (AddAndUpdateChannels_fold_frame bU
              (λ k, is_Some (m_members channels !! k))
              (in_key_order (m_members channels)) false s)
    as (h1 & l1 & m1 & Heq1 & Hext1 & Hl1 & Hm1 & Hls1); [|done|done|].
  { intros [k np] Hkp%elem_of_in_key_order. by exists np. }
  destruct (foldl _ _ _) as [b1 s1]. cbn [snd] in *. subst s1.
  destruct (SortAndRenumber_upd broker (upd s h1 l1 m1))
    as (h2 & l2 & Hl2 & Hlen2 & Hch2 & ->).
  rewrite upd_upd. cbn in Hl2, Hlen2, Hch2.
  exists h2, l2, m1. split; [done|]. split; [|split; [|split]].
  - eapply heap_extends_trans; [exact Hext1|]. split; [lia|]. intros; apply Hch2.
  - intros q Hq. rewrite Hl2 in Hq. by apply Hl1.
  - done.
  - intros Hls. apply (lockstep_at_permutation _ _ _ _ Hl2).
    eapply lockstep_at_heap_extends; [|by apply Hls1].
    split; [lia|]. intros; apply Hch2.
Qed.

End ReconciliationRun.

Section UpdateGroupEntriesRun.

Context {sorter : StdSort}.
Variable broker : CServiceBroker.

(** What [UpdateGroupEntries] does with a member that the fetched group
    [channels] does not have. *)
Lemma UpdateGroupEntries_missing_member channels s p :
  sentinel_empty (st_heap s) →
  keyed (st_heap s) (m_allChannelsGroup (this s)) →
  p ∈ m_sortedMembers (this s) →
  (p < length (st_heap s))%nat →
  missing_from (st_heap s) channels p →
  let c := deref_channel (Member.Channel (deref (st_heap s) p)) in
  let r := UpdateGroupEntries broker channels s in
  (p ∉ m_sortedMembers (this (r.2)))
  ∧ m_members (this (r.2)) !! StorageId c = None
  ∧ (c ∈ r.1.2 ↔ HasValidDataFromClient (this s) (ClientID c) = true)
  ∧ (c ∈ r.1.2 →
     ∃ s5, (p ∉ m_sortedMembers (this s5))
           ∧ m_members (this s5) !! StorageId c = None
           ∧ m_bLoaded (this s5) = m_bLoaded (this s)
           ∧ m_iGroupId (this s5) = m_iGroupId (this s)
           ∧ st_trace s5 = st_trace s
           ∧ r.1.1 = (Persist broker s5).1
           ∧ r.2 = emit (Persist broker s5).2 (Publish ChannelGroupInvalidated)).
Proof.
  intros Hsent Hall Hp Halloc Hmiss c r. subst r. unfold UpdateGroupEntries.
  set (s0 := SetPreventSortAndRenumber true s).
  set (bU := orb (bool_decide _) _). clearbody bU.
  unfold RemoveDeletedChannels.
  pose proof (RemoveDeletedChannels_loop_spec (st_heap s0) (this s0) channels
                (m_sortedMembers (this s0)) (m_members (this s0)) [])
    as (Hkept & Hmap & Hrem).
  destruct (RemoveDeletedChannels_loop _ _ _ _ _ _) as [[l1 m1] removed].
  cbn [fst snd] in Hkept, Hmap, Hrem.
  set (s1 := with_this s0 _).
  destruct (AddAndUpdateChannels_frame broker channels bU s1)
    as (h2 & l2 & m2 & Heq2 & _ & Hl2 & Hm2 & _); [done|done|].
  destruct (AddAndUpdateChannels broker channels bU s1) as [bAdded s2] eqn:E2.
  cbn [snd] in Heq2. subst s2.
  set (s3 := SetPreventSortAndRenumber false _).
  destruct (UpdateClientPriorities_frame broker s3) as (h4 & _ & _ & Heq4).
  destruct (UpdateClientPriorities broker s3) as [bPriorities s4].
  cbn [snd] in Heq4. subst s4.
  (* the member is gone after the removal pass, and is not added again *)
  assert (p ∉ l2) as Hpl2.
  { intros Hin. destruct (Hl2 p Hin) as [Hin1|Hge]; [|cbn in Hge; lia].
    cbn in Hin1. apply Hkept in Hin1 as [_ Hnot]. by apply Hnot. }
  assert (m2 !! StorageId c = None) as Hm2c.
  { destruct (m2 !! StorageId c) as [q|] eqn:E; [|done]. exfalso.
    destruct (Hm2 _ _ E) as [Hq|[x Hx]].
    - cbn in Hq. apply Hmap in Hq as [_ Hno]. apply Hno. by exists p.
    - unfold missing_from in Hmiss. fold c in Hmiss. congruence. }
  assert (c ∈ removed ↔ HasValidDataFromClient (this s) (ClientID c) = true) as Hc.
  { rewrite Hrem. split.
    - intros [Hnil|(q & _ & _ & -> & Hvalid)]; [by apply elem_of_nil in Hnil|].
      exact Hvalid.
    - intros Hvalid. right. by exists p. }
  destruct (bAdded || negb (bool_decide (removed = [])) || bPriorities) eqn:Hchanged.
  - destruct (SortAndRenumber_upd broker (with_heap s3 h4))
      as (h5 & l5 & Hl5 & _ & _ & Heq5).
    destruct (SortAndRenumber broker (with_heap s3 h4)) as [bRenumbered s5] eqn:E5.
    cbn [snd] in Heq5. subst s5.
    set (s5 := upd (with_heap s3 h4) h5 l5 _).
    pose proof (Persist_frame broker s5) as (_ & Hsorted & Hmembers & _).
    cbn in Hsorted, Hmembers.
    destruct (Persist broker s5) as [bReturn s6] eqn:E6.
    unfold emit. cbn [fst snd this st_trace] in *. rewrite Hsorted, Hmembers.
    split; [by rewrite Hl5|]. split; [done|]. split; [done|].
    intros Hin. exists s5. rewrite E6.
    assert (bool_decide (removed = []) = false) as ->.
    { apply bool_decide_eq_false. intros ->. by apply elem_of_nil in Hin. }
    rewrite orb_true_r. cbn [fst snd negb orb].
    split; [cbn; by rewrite Hl5|]. by repeat split.
  - cbn. split; [done|]. split; [done|]. split; [done|].
    intros Hin. exfalso.
    apply orb_false_iff in Hchanged as [Hchanged _].
    apply orb_false_iff in Hchanged as [_ Hnil].
    apply negb_false_iff, bool_decide_eq_true in Hnil. subst removed.
    by apply elem_of_nil in Hin.
Qed.

End UpdateGroupEntriesRun.

(** ** Members missing from the fetched group *)

Section MissingMembers.

Context {sorter : StdSort}.
Variable broker : CServiceBroker.

(** C3, amended: a member whose channel is missing from the fetched group
    and whose backend is in the failed set is taken out of the sequence and
    out of the map, by the removal pass and so by the whole reconciliation,
    and its channel is not among the channels reported as removed. *)
Theorem missing_member_of_failed_backend_is_dropped_unreported
    (channels : CPVRChannelGroup) (s : State) (p : ptr) :
  sentinel_empty (st_heap s) →
  keyed (st_heap s) (m_allChannelsGroup (this s)) →
  members_have_channel (st_heap s) (this s) →
  p ∈ m_sortedMembers (this s) →
  (p < length (st_heap s))%nat →
  missing_from (st_heap s) channels p →
  HasValidDataFromClient (this s)
    (ClientID (deref_channel (Member.Channel (deref (st_heap s) p)))) = false →
  let c := deref_channel (Member.Channel (deref (st_heap s) p)) in
  let removal := RemoveDeletedChannels channels s in
  let reconciliation := UpdateGroupEntries broker channels s in
  ((p ∉ m_sortedMembers (this (removal.2)))
   ∧ m_members (this (removal.2)) !! StorageId c = None
   ∧ c ∉ removal.1)
  ∧ ((p ∉ m_sortedMembers (this (reconciliation.2)))
     ∧ m_members (this (reconciliation.2)) !! StorageId c = None
     ∧ c ∉ reconciliation.1.2).
Proof.
  intros Hsent Hall _ Hp Halloc Hmiss Hfailed c removal reconciliation. split.
  - subst removal. unfold RemoveDeletedChannels.
    pose proof (RemoveDeletedChannels_loop_spec (st_heap s) (this s) channels
                  (m_sortedMembers (this s)) (m_members (this s)) [])
      as (Hkept & Hmap & Hrem).
    destruct (RemoveDeletedChannels_loop _ _ _ _ _ _) as [[l1 m1] removed].
    cbn [fst snd this with_this m_sortedMembers m_members with_sortedMembers
         with_members] in *.
    split; [|split].
    + intros [_ Hnot]%Hkept. by apply Hnot.
    + destruct (m1 !! StorageId c) as [q|] eqn:E; [|done]. exfalso.
      apply Hmap in E as [_ Hno]. apply Hno. by exists p.
    + intros [Hnil|(q & _ & _ & Hq & Hvalid)]%Hrem; [by apply elem_of_nil in Hnil|].
      unfold c in *. congruence.
  - destruct (UpdateGroupEntries_missing_member broker channels s p
                Hsent Hall Hp Halloc Hmiss) as (H1 & H2 & H3 & _).
    split; [done|]. split; [done|].
    intros Hin%H3. unfold c in *. congruence.
Qed.

(** C7, amended: a member whose channel is missing from the fetched group
    and whose backend is not in the failed set is taken out of the
    sequence and out of the map, and its channel is among the channels
    reported as removed.  The group counts as changed: [Persist()] is
    called on the group without the member, and after it a
    [ChannelGroupInvalidated] event is published.  What
    [UpdateGroupEntries] returns is what that [Persist()] returns, which
    is not always [true]: it is success for a group [Persist()] skips
    (never loaded, with a valid id), otherwise the result of the one write
    of the database, and failure when there is no database.  The effects
    are that one write, when it takes place, and then the event. *)
Theorem missing_member_of_valid_backend_is_removed_and_reported
    (channels : CPVRChannelGroup) (s : State) (p : ptr) :
  sentinel_empty (st_heap s) →
  keyed (st_heap s) (m_allChannelsGroup (this s)) →
  members_have_channel (st_heap s) (this s) →
  p ∈ m_sortedMembers (this s) →
  (p < length (st_heap s))%nat →
  missing_from (st_heap s) channels p →
  HasValidDataFromClient (this s)
    (ClientID (deref_channel (Member.Channel (deref (st_heap s) p)))) = true →
  let c := deref_channel (Member.Channel (deref (st_heap s) p)) in
  let r := UpdateGroupEntries broker channels s in
  let skipped :=
    negb (m_bLoaded (this s)) && negb (m_iGroupId (this s) =? INVALID_GROUP_ID) in
  (p ∉ m_sortedMembers (this (r.2)))
  ∧ m_members (this (r.2)) !! StorageId c = None
  ∧ c ∈ r.1.2
  ∧ (∃ s5, (p ∉ m_sortedMembers (this s5))
           ∧ m_members (this s5) !! StorageId c = None
           ∧ r.1.1 = (Persist broker s5).1
           ∧ r.2 = emit (Persist broker s5).2 (Publish ChannelGroupInvalidated)
           ∧ (∀ db, GetTVDatabase broker = Some db → skipped = false →
                r.1.1 = db_Persist db (st_heap s5) (with_bLoaded (this s5) true)))
  ∧ st_trace (r.2)
    = st_trace s
      ++ (if skipped then []
          else match GetTVDatabase broker with
               | Some _ => [DatabasePersist r.1.1]
               | None => []
               end)
      ++ [Publish ChannelGroupInvalidated]
  ∧ (skipped = true → r.1.1 = true)
  ∧ (skipped = false → GetTVDatabase broker = None → r.1.1 = false).
Proof.
  intros Hsent Hall _ Hp Halloc Hmiss Hvalid c r skipped.
  destruct (UpdateGroupEntries_missing_member broker channels s p
              Hsent Hall Hp Halloc Hmiss) as (H1 & H2 & H3 & H4).
  split; [done|]. split; [done|].
  assert (c ∈ r.1.2) as Hin by by apply H3.
  split; [done|].
  destruct (H4 Hin) as (s5 & Hp5 & Hc5 & Hloaded & Hid & Htrace & Hret & Hstate).
  fold r in Hret, Hstate.
  assert (negb (m_bLoaded (this s5))
          && negb (m_iGroupId (this s5) =? INVALID_GROUP_ID) = skipped) as Hguard.
  { unfold skipped. by rewrite Hloaded, Hid. }
  rewrite Hstate, Hret. clearbody skipped. clear Hstate Hret.
  destruct skipped.
  - rewrite (Persist_skipped broker s5 Hguard). cbn [fst snd this st_trace emit].
    split; [|by rewrite Htrace].
    exists s5. rewrite (Persist_skipped broker s5 Hguard). by repeat split.
  - rewrite (Persist_past_guard broker s5 Hguard).
    split.
    { exists s5. rewrite (Persist_past_guard broker s5 Hguard).
      split; [done|]. split; [done|]. split; [done|]. split; [done|].
      intros db Hdb _. by rewrite Hdb. }
    destruct (GetTVDatabase broker) as [db|]; cbn [fst snd this st_trace emit with_this].
    + rewrite Htrace, <- app_assoc. by repeat split.
    + rewrite Htrace. by repeat split.
Qed.

End MissingMembers.

(** C3, as stated, fails: B is a member, the fetched group does not have
    it and its backend is in the failed set; after the reconciliation B is
    in neither view of the group (and nothing was reported as removed). *)
Lemma missing_member_of_failed_backend_is_not_retained :
  5%nat ∈ m_sortedMembers (this Example.failed_backend_state)
  ∧ m_members (this Example.failed_backend_state) !! StorageId Example.chB = Some 5%nat
  ∧ m_members Example.fetched !! StorageId Example.chB = None
  ∧ ClientID Example.chB ∈ m_failedClients (this Example.failed_backend_state)
  ∧ m_sortedMembers
      (this (UpdateGroupEntries (sorter := stable_sorter) Example.broker_with_database
               Example.fetched Example.failed_backend_state).2) = [4%nat]
  ∧ m_members
      (this (UpdateGroupEntries (sorter := stable_sorter) Example.broker_with_database
               Example.fetched Example.failed_backend_state).2)
      !! StorageId Example.chB = None
  ∧ (UpdateGroupEntries (sorter := stable_sorter) Example.broker_with_database
       Example.fetched Example.failed_backend_state).1.2 = [].
Proof.
  split; [apply (bool_decide_unpack _); vm_compute; exact I|].
  split; [by vm_compute|]. split; [by vm_compute|].
  split; [apply (bool_decide_unpack _); vm_compute; exact I|].
  split; [by vm_compute|]. split; by vm_compute.
Qed.

Lemma missing_member_of_failed_backend_is_dropped_unreported_witness :
  HasValidDataFromClient (this Example.failed_backend_state) (ClientID Example.chB) = false
  ∧ (5%nat ∉ m_sortedMembers
               (this (UpdateGroupEntries (sorter := stable_sorter)
                        Example.broker_with_database Example.fetched
                        Example.failed_backend_state).2))
  ∧ Example.chB ∉ (UpdateGroupEntries (sorter := stable_sorter)
                      Example.broker_with_database Example.fetched
                      Example.failed_backend_state).1.2.
Proof.
  split; [reflexivity|].
  destruct (missing_member_of_failed_backend_is_dropped_unreported
              (sorter := stable_sorter) Example.broker_with_database
              Example.fetched Example.failed_backend_state 5%nat)
    as [_ (H1 & _ & H3)].
  - apply (bool_decide_unpack _); vm_compute; exact I.
  - apply (bool_decide_unpack _); vm_compute; exact I.
  - apply (bool_decide_unpack _); vm_compute; exact I.
  - apply (bool_decide_unpack _); vm_compute; exact I.
  - vm_compute. lia.
  - reflexivity.
  - reflexivity.
  - split; [exact H1|exact H3].
Defined.

(** C7, as stated, fails on the value returned: B is missing from the
    fetched group and its backend is not in the failed set; B is removed
    and reported, but with no database at hand [UpdateGroupEntries]
    returns [false]. *)
Lemma reconciliation_with_a_removal_can_return_false :
  m_members Example.fetched !! StorageId Example.chB = None
  ∧ HasValidDataFromClient (this Example.loaded_group_state) (ClientID Example.chB) = true
  ∧ (UpdateGroupEntries (sorter := stable_sorter) Example.broker_without_database
       Example.fetched Example.loaded_group_state).1.2 = [Example.chB]
  ∧ (UpdateGroupEntries (sorter := stable_sorter) Example.broker_without_database
       Example.fetched Example.loaded_group_state).1.1 = false.
Proof. split; [by vm_compute|]. split; [by vm_compute|]. split; by vm_compute. Qed.

Lemma missing_member_of_valid_backend_is_removed_and_reported_witness :
  HasValidDataFromClient (this Example.loaded_group_state) (ClientID Example.chB) = true
  ∧ (5%nat ∉ m_sortedMembers
               (this (UpdateGroupEntries (sorter := stable_sorter)
                        Example.broker_with_database Example.fetched
                        Example.loaded_group_state).2))
  ∧ Example.chB ∈ (UpdateGroupEntries (sorter := stable_sorter)
                     Example.broker_with_database Example.fetched
                     Example.loaded_group_state).1.2
  ∧ st_trace (UpdateGroupEntries (sorter := stable_sorter)
                Example.broker_with_database Example.fetched
                Example.loaded_group_state).2
    = [DatabasePersist (UpdateGroupEntries (sorter := stable_sorter)
                          Example.broker_with_database Example.fetched
                          Example.loaded_group_state).1.1;
       Publish ChannelGroupInvalidated]
  ∧ (UpdateGroupEntries (sorter := stable_sorter)
       Example.broker_with_database Example.fetched
       Example.loaded_group_state).1.1 = true.
Proof.
  split; [reflexivity|].
  destruct (missing_member_of_valid_backend_is_removed_and_reported
              (sorter := stable_sorter) Example.broker_with_database
              Example.fetched Example.loaded_group_state 5%nat)
    as (H1 & _ & H3 & (s5 & _ & _ & _ & _ & Hdb) & Htrace & _).
  - apply (bool_decide_unpack _); vm_compute; exact I.
  - apply (bool_decide_unpack _); vm_compute; exact I.
  - apply (bool_decide_unpack _); vm_compute; exact I.
  - apply (bool_decide_unpack _); vm_compute; exact I.
  - vm_compute. lia.
  - reflexivity.
  - reflexivity.
  - split; [exact H1|]. split; [exact H3|]. split; [exact Htrace|].
    exact (Hdb _ eq_refl eq_refl).
Defined.

(** ** Update *)

Section UpdateFacts.

Context {sorter : StdSort}.
Variable broker : CServiceBroker.

Lemma SortAndRenumber_trace s : st_trace (SortAndRenumber broker s).2 = st_trace s.
Proof. by destruct (SortAndRenumber_upd broker s) as (h & l & _ & _ & _ & ->). Qed.

Lemma AddToGroup_trace channel channelNumber iOrder bU clientChannelNumber s :
  st_trace (AddToGroup broker channel channelNumber iOrder bU clientChannelNumber s).2
  = st_trace s.
Proof.
  unfold AddToGroup. destruct (negb _); [|done].
  destruct (Member.Channel _); [|done]. cbn [snd make_shared].
  by rewrite SortAndRenumber_trace.
Qed.

Lemma AddAndUpdateChannels_trace channels bU s :
  st_trace (AddAndUpdateChannels broker channels bU s).2 = st_trace s.
Proof.
  unfold AddAndUpdateChannels.
  assert (∀ pairs b s0,
            st_trace (foldl (AddAndUpdateChannels_step broker bU) (b, s0) pairs).2
            = st_trace s0) as Hfold.
  { induction pairs as [|[k np] pairs IH]; intros b s0; cbn [foldl]; [done|].
    destruct (AddAndUpdateChannels_step broker bU (b, s0) (k, np)) as [b1 s1] eqn:E.
    rewrite IH. unfold AddAndUpdateChannels_step in E. cbn [fst snd] in E.
    destruct (Member.Channel _); [|by inversion E].
    destruct (negb _).
    - inversion E. apply AddToGroup_trace.
    - destruct (_ || _); by inversion E. }
  specialize (Hfold (in_key_order (m_members channels)) false s).
  destruct (foldl _ _ _) as [b1 s1]. cbn [snd] in *.
  by rewrite SortAndRenumber_trace.
Qed.

(** [UpdateGroupEntries] only adds to the effects. *)
Lemma UpdateGroupEntries_trace channels s :
  ∃ t, st_trace (UpdateGroupEntries broker channels s).2 = st_trace s ++ t.
Proof.
  unfold UpdateGroupEntries.
  set (s0 := SetPreventSortAndRenumber true s).
  set (bU := orb (bool_decide _) _). clearbody bU.
  unfold RemoveDeletedChannels.
  destruct (RemoveDeletedChannels_loop _ _ _ _ _ _) as [[l1 m1] removed].
  set (s1 := with_this s0 _).
  pose proof (AddAndUpdateChannels_trace channels bU s1) as Ht2.
  destruct (AddAndUpdateChannels broker channels bU s1) as [bAdded s2].
  set (s3 := SetPreventSortAndRenumber false s2).
  destruct (UpdateClientPriorities_frame broker s3) as (h4 & _ & _ & Heq4).
  destruct (UpdateClientPriorities broker s3) as [bPriorities s4].
  cbn [snd] in *. subst s4.
  destruct (_ || _).
  - pose proof (SortAndRenumber_trace (with_heap s3 h4)) as Ht5.
    destruct (SortAndRenumber broker (with_heap s3 h4)) as [bRenumbered s5].
    pose proof (Persist_frame broker s5) as (_ & _ & _ & t & Ht & _).
    destruct (Persist broker s5) as [bReturn s6].
    cbn in *. eexists. rewrite Ht, Ht5, Ht2, <- app_assoc. reflexivity.
  - cbn in *. exists []. by rewrite Ht2, app_nil_r.
Qed.

(** C2, amended: [Update()] fetches from the backends into a transient
    group and reconciles against it precisely when the group is NOT
    user-defined and the sync-groups setting is on; for a user-defined
    group, or with the setting off, it returns success and touches
    nothing, the caller's vector included. *)
Theorem Update_reconciles_iff_synced_and_not_user_defined
    (channelsToRemove : list CPVRChannel) (s : State) :
  if negb (GroupType (this s) =? PVR_GROUP_TYPE_USER_DEFINED)
     && SETTING_PVRMANAGER_SYNCCHANNELGROUPS (GetSettings broker)
  then
    let fetched :=
      LoadFromClients broker (st_heap s)
        (with_bPreventSortAndRenumber
           (new_group (m_path (this s)) (m_iGroupId (this s))
              (m_allChannelsGroup (this s))) true) in
    Update broker channelsToRemove s
    = UpdateGroupEntries broker fetched.1.2
        (with_this (emit (with_heap s fetched.1.1) FetchChannelGroupMembers)
           (with_failedClients (this s) (m_failedClients fetched.1.2)))
    ∧ ∃ t, st_trace (Update broker channelsToRemove s).2
           = st_trace s ++ FetchChannelGroupMembers :: t
  else Update broker channelsToRemove s = (true, channelsToRemove, s).
Proof.
  unfold Update.
  destruct (GroupType (this s) =? PVR_GROUP_TYPE_USER_DEFINED); [done|].
  destruct (SETTING_PVRMANAGER_SYNCCHANNELGROUPS (GetSettings broker)); [|done].
  cbn [negb andb orb]. cbv zeta.
  destruct (LoadFromClients broker (st_heap s) _) as [[h tmp] status].
  cbn [fst snd]. split; [done|].
  match goal with
  | |- context [UpdateGroupEntries broker tmp ?s1] =>
      destruct (UpdateGroupEntries_trace tmp s1) as (t & ->)
  end.
  exists t. cbn. by rewrite <- app_assoc.
Qed.

End UpdateFacts.

(** C2, as stated, fails in both directions: with the sync-groups setting
    on, [Update()] leaves a user-defined group alone (the backends report
    no members, yet A and B stay), and it does fetch and reconcile a group
    that is not user-defined (its members go). *)
Lemma Update_skips_user_defined_groups :
  SETTING_PVRMANAGER_SYNCCHANNELGROUPS (GetSettings Example.broker_with_database) = true
  ∧ GroupType (this Example.user_defined_state) = PVR_GROUP_TYPE_USER_DEFINED
  ∧ Update (sorter := stable_sorter) Example.broker_with_database []
      Example.user_defined_state = (true, [], Example.user_defined_state)
  ∧ GroupType (this Example.loaded_group_state) ≠ PVR_GROUP_TYPE_USER_DEFINED
  ∧ m_sortedMembers
      (this (Update (sorter := stable_sorter) Example.broker_with_database []
               Example.loaded_group_state).2) = []
  ∧ st_trace (Update (sorter := stable_sorter) Example.broker_with_database []
                Example.loaded_group_state).2
    = [FetchChannelGroupMembers; DatabasePersist true; Publish ChannelGroupInvalidated].
Proof.
  split; [reflexivity|]. split; [reflexivity|]. split; [by vm_compute|].
  split; [by vm_compute|]. split; by vm_compute.
Qed.

(** ** AppendToGroup *)

(** The largest group number among the members of the sequence, 0 when
    there is none. *)
Definition current_maximum (h : Heap) (l : list ptr) : Z :=
  foldr (λ p acc, Z.max (GetChannelNumber (Member.ChannelNumber (deref h p))) acc) 0 l.

Lemma current_maximum_nonneg h l : 0 ≤ current_maximum h l.
Proof. induction l as [|p l IH]; simpl; lia. Qed.

Lemma current_maximum_bounds h l p :
  p ∈ l → GetChannelNumber (Member.ChannelNumber (deref h p)) ≤ current_maximum h l.
Proof.
  induction l as [|q l IH]; intros Hp; [by apply elem_of_nil in Hp|].
  simpl. apply elem_of_cons in Hp as [->|Hp]; [lia|]. specialize (IH Hp). lia.
Qed.

Lemma current_maximum_attained h l :
  current_maximum h l = 0
  ∨ ∃ p, p ∈ l ∧ GetChannelNumber (Member.ChannelNumber (deref h p)) = current_maximum h l.
Proof.
  induction l as [|q l IH]; simpl; [by left|].
  destruct (Z.max_spec (GetChannelNumber (Member.ChannelNumber (deref h q)))
              (current_maximum h l)) as [[_ ->]|[_ ->]].
  - destruct IH as [?|(p & Hp & Hmax)]; [by left|].
    right. exists p. split; [by right|done].
  - right. exists q. split; [by left|done].
Qed.

(** The loop of [AppendToGroup] computes that maximum. *)
Lemma AppendToGroup_loop_maximum h l : ∀ a,
  0 ≤ a →
  foldl (λ channelNumberMax member,
           if channelNumberMax <? GetChannelNumber (Member.ChannelNumber (deref h member))
           then GetChannelNumber (Member.ChannelNumber (deref h member))
           else channelNumberMax) a l
  = Z.max a (current_maximum h l).
Proof.
  induction l as [|p l IH]; intros a Ha; simpl; [lia|].
  destruct (Z.ltb_spec a (GetChannelNumber (Member.ChannelNumber (deref h p))));
    rewrite IH by lia; lia.
Qed.

Lemma uint32_small z : 0 ≤ z < UINT_MOD → uint32 z = z.
Proof. intros Hz. unfold uint32. by apply Z.mod_small. Qed.

Section Appending.

Context {sorter : StdSort}.
Variable broker : CServiceBroker.

(** C8, amended: on a group that is not the internal group, for a channel
    that is not a member and that the all channels group knows,
    [AppendToGroup] creates the member with group number M + 1, M being
    the current maximum (and M + 1 fitting an unsigned int), puts it at
    the end of the sequence and runs [SortAndRenumber()].  When sorting
    and renumbering are prevented the member keeps M + 1; otherwise its
    number is the one [Renumber()] computes. *)
Theorem AppendToGroup_creates_member_one_past_maximum
    (channel : CPVRChannel) (s : State) (r : ptr) :
  sentinel_empty (st_heap s) →
  keyed (st_heap s) (m_allChannelsGroup (this s)) →
  IsGroupMember (this s) channel = false →
  IsInternalGroup (this s) = false →
  m_allChannelsGroup (this s) !! StorageId channel = Some r →
  current_maximum (st_heap s) (m_sortedMembers (this s)) + 1 < UINT_MOD →
  let M := current_maximum (st_heap s) (m_sortedMembers (this s)) in
  let real := deref (st_heap s) r in
  let created :=
    Member.create (Member.Channel real) (mkChannelNumber (M + 1) 0)
      (Member.ClientPriority real) 0 (Member.ClientChannelNumber real) in
  let added :=
    upd s (st_heap s ++ [created])
      (m_sortedMembers (this s) ++ [length (st_heap s)])
      (<[StorageId channel := length (st_heap s)]> (m_members (this s))) in
  AppendToGroup broker channel s = (true, (SortAndRenumber broker added).2)
  ∧ (PreventSortAndRenumber (this s) = true →
     (AppendToGroup broker channel s).2 = added
     ∧ Member.ChannelNumber (deref (st_heap added) (length (st_heap s)))
       = mkChannelNumber (M + 1) 0).
Proof.
  intros Hsent Hall Hmember Hinternal Hr Hfit M real created added.
  assert (AppendToGroup broker channel s = (true, (SortAndRenumber broker added).2))
    as Heq.
  { unfold AppendToGroup. rewrite AppendToGroup_loop_maximum by done.
    rewrite AddToGroup_spec by done. rewrite Hmember, Hinternal, Hr.
    pose proof (current_maximum_nonneg (st_heap s) (m_sortedMembers (this s))) as Hge.
    fold M in Hge, Hfit |- *. rewrite (Z.max_r 0 M) by done.
    unfold new_member_of, ChannelNumber, IsValid, GetChannelNumber,
      GetSubChannelNumber. cbn [m_iChannelNumber m_iSubChannelNumber ChannelNumber0].
    assert (uint32 (M + 1) = M + 1) as Hu by (apply uint32_small; lia).
    rewrite !Hu. change (uint32 0) with 0. change (0 <? 0) with false.
    destruct (Z.ltb_spec 0 (M + 1)); [|lia]. rewrite ?Hu. reflexivity. }
  split; [done|]. intros Hprevent. rewrite Heq. cbn [snd].
  unfold SortAndRenumber.
  assert (PreventSortAndRenumber (this added) = true) as -> by done.
  split; [done|]. unfold added. cbn [st_heap upd].
  pose proof (deref_make_shared_new (st_heap s) created) as Hnew.
  cbn [make_shared fst snd] in Hnew. by rewrite Hnew.
Qed.

End Appending.

(** C8, as stated, fails: A and B have the group numbers 1 and 7, C is
    not a member; after [AppendToGroup(C)] the number of C is 3, the one it
    has in the all channels group, not 8. *)
Lemma AppendToGroup_number_is_renumbered :
  current_maximum (st_heap Example.loaded_group_state)
    (m_sortedMembers (this Example.loaded_group_state)) = 7
  ∧ IsGroupMember (this Example.loaded_group_state) Example.chC = false
  ∧ (AppendToGroup (sorter := stable_sorter) Example.broker_without_database
       Example.chC Example.loaded_group_state).1 = true
  ∧ m_members
      (this (AppendToGroup (sorter := stable_sorter) Example.broker_without_database
               Example.chC Example.loaded_group_state).2)
      !! StorageId Example.chC = Some 7%nat
  ∧ Member.ChannelNumber
      (deref (st_heap (AppendToGroup (sorter := stable_sorter)
                         Example.broker_without_database Example.chC
                         Example.loaded_group_state).2) 7%nat)
    = ChannelNumber 3 0.
Proof.
  split; [by vm_compute|]. split; [by vm_compute|]. split; [by vm_compute|].
  split; by vm_compute.
Qed.

Lemma AppendToGroup_creates_member_one_past_maximum_witness :
  current_maximum (st_heap Example.prevented_state)
    (m_sortedMembers (this Example.prevented_state)) = 7
  ∧ Member.ChannelNumber
      (deref (st_heap (AppendToGroup (sorter := stable_sorter)
                         Example.broker_without_database Example.chC
                         Example.prevented_state).2) 7%nat)
    = mkChannelNumber 8 0.
Proof.
  split; [reflexivity|].
  destruct (AppendToGroup_creates_member_one_past_maximum (sorter := stable_sorter)
              Example.broker_without_database Example.chC Example.prevented_state 3%nat)
    as [_ Hprevented].
  - apply (bool_decide_unpack _); vm_compute; exact I.
  - apply (bool_decide_unpack _); vm_compute; exact I.
  - reflexivity.
  - reflexivity.
  - reflexivity.
  - reflexivity.
  - destruct (Hprevented eq_refl) as [-> Hnumber]. exact Hnumber.
Defined.

(** ** Renumbering twice *)

(** The member of the all channels group the loop body consults for the
    member at [q] ([EmptyMember] when there is none). *)
Definition all_member_of (g : CPVRChannelGroup) (h : Heap) (q : ptr) : ptr :=
  GetByUniqueID (m_allChannelsGroup g)
    (StorageId (deref_channel (Member.Channel (deref h q)))).

(** The numbers computed for [q] depend on the store through the channel
    and the backend number of [q] and through the member consulted. *)
Lemma Renumber_values_ext bU bS mode g h h' q i :
  Member.Channel (deref h' q) = Member.Channel (deref h q) →
  Member.ClientChannelNumber (deref h' q) = Member.ClientChannelNumber (deref h q) →
  deref h' (all_member_of g h q) = deref h (all_member_of g h q) →
  Renumber_values bU bS mode g h' q i = Renumber_values bU bS mode g h q i.
Proof.
  intros Hch Hccn Hall. unfold Renumber_values, group_GetClientChannelNumber,
    group_GetChannelNumber. cbv zeta. unfold all_member_of in Hall.
  by rewrite Hch, Hccn, Hall.
Qed.

(** Once the member has the numbers computed for it, the same numbers are
    computed again. *)
Lemma Renumber_values_assigned bU bS mode g h h' q i :
  deref h' q = assign (deref h q) (Renumber_values bU bS mode g h q i).1.1
                 (Renumber_values bU bS mode g h q i).1.2 →
  deref h' (all_member_of g h q) = deref h (all_member_of g h q) →
  Renumber_values bU bS mode g h' q i = Renumber_values bU bS mode g h q i.
Proof.
  intros Hq Hall. unfold Renumber_values, group_GetClientChannelNumber,
    group_GetChannelNumber in *. cbv zeta in *. cbn [fst snd] in *.
  unfold all_member_of in Hall. rewrite Hq, assign_channel, assign_client, Hall.
  destruct (IsValid (Member.ClientChannelNumber (deref h q))) eqn:Hvalid.
  - by rewrite Hvalid.
  - set (c := Member.ClientChannelNumber (deref h (GetByUniqueID _ _))).
    by destruct (IsValid c).
Qed.

(** The sequence [l] is ready for the loop: it has no member twice, its
    members are objects of the store, the map files each under the key of
    its channel, and the members consulted are not in [l]. *)
Definition loop_ready (g : CPVRChannelGroup) (h : Heap) (l : list ptr) : Prop :=
  NoDup l
  ∧ Forall (λ q, (q < length h)%nat ∧ unsorted_of g h q = q
                 ∧ all_member_of g h q ∉ l) l.

Lemma loop_ready_same_channels g h h' l :
  length h' = length h →
  (∀ p, Member.Channel (deref h' p) = Member.Channel (deref h p)) →
  loop_ready g h l → loop_ready g h' l.
Proof.
  intros Hlen Hch [Hnd Hl]. split; [done|].
  eapply Forall_impl; [exact Hl|]. intros q (Halloc & Hu & Hall).
  unfold unsorted_of, all_member_of in *. rewrite Hch. split; [lia|done].
Qed.

Lemma loop_ready_cons g h q l :
  loop_ready g h (q :: l) →
  (q < length h)%nat ∧ unsorted_of g h q = q ∧ (all_member_of g h q ≠ q)
  ∧ (all_member_of g h q ∉ l) ∧ (q ∉ l) ∧ loop_ready g h l.
Proof.
  intros [Hnd Hl]. apply NoDup_cons in Hnd as [Hq Hnd].
  apply Forall_cons in Hl as [(Halloc & Hu & Hall) Hl].
  apply not_elem_of_cons in Hall as [Hne Hall].
  repeat split; try done.
  eapply Forall_impl; [exact Hl|]. intros p (? & ? & Hp).
  apply not_elem_of_cons in Hp as [_ Hp]. done.
Qed.

Lemma loop_ready_permutation g h l l' :
  l' ≡ₚ l → loop_ready g h l → loop_ready g h l'.
Proof.
  intros Hperm [Hnd Hl]. split; [by rewrite Hperm|]. rewrite Hperm.
  eapply Forall_impl; [exact Hl|]. intros q (? & ? & Hq). by rewrite Hperm.
Qed.

(** A round of the loop on a member that is ready writes that member only. *)
Lemma Renumber_step_ready bU bS mode g q h i b :
  (q < length h)%nat → unsorted_of g h q = q →
  let v := Renumber_values bU bS mode g h q i in
  let r := Renumber_step bU bS mode g q (h, i, b) in
  r.1.2 = v.2
  ∧ deref r.1.1 q = assign (deref h q) v.1.1 v.1.2
  ∧ (∀ p, p ≠ q → deref r.1.1 p = deref h p)
  ∧ length r.1.1 = length h.
Proof.
  intros Halloc Hu v r. subst r. rewrite Renumber_step_values. fold v. cbv zeta.
  destruct (_ || _) eqn:Hchanged; cbn [fst snd].
  - split; [done|].
    assert (∀ p, deref (Renumber_write g h q v.1.1 v.1.2) p
                 = if bool_decide (p = q) then assign (deref h p) v.1.1 v.1.2
                   else deref h p) as Hderef.
    { intros p. rewrite Renumber_write_deref by (rewrite ?Hu; done).
      rewrite Hu. destruct (decide (p = q)) as [->|Hne].
      - by rewrite !bool_decide_true by auto.
      - by rewrite !bool_decide_false by tauto. }
    split; [by rewrite Hderef, bool_decide_true|].
    split; [|apply length_Renumber_write].
    intros p Hp. by rewrite Hderef, bool_decide_false.
  - apply orb_false_iff in Hchanged as [H1 H2].
    apply number_neb_false in H1, H2. split; [done|].
    split; [by rewrite <- H1, <- H2, assign_same|done].
Qed.

#[global] Arguments Renumber_values : simpl never.

(** Every member of [l], visited in order with the counter starting at
    [i], already has the numbers the loop computes for it. *)
Fixpoint assigned (bU bS : bool) (mode : RenumberMode) (g : CPVRChannelGroup)
    (h : Heap) (l : list ptr) (i : Z) : Prop :=
  match l with
  | [] => True
  | q :: l' =>
      Member.ChannelNumber (deref h q) = (Renumber_values bU bS mode g h q i).1.1
      ∧ Member.ClientChannelNumber (deref h q) = (Renumber_values bU bS mode g h q i).1.2
      ∧ assigned bU bS mode g h l' (Renumber_values bU bS mode g h q i).2
  end.

(** On such a sequence the loop changes nothing and reports no change. *)
Lemma Renumber_loop_assigned bU bS mode g h l : ∀ i b,
  assigned bU bS mode g h l i →
  (Renumber_loop bU bS mode g l (h, i, b)).1.1 = h
  ∧ (Renumber_loop bU bS mode g l (h, i, b)).2 = b.
Proof.
  induction l as [|q l IH]; intros i b Hl; simpl; [done|].
  destruct Hl as (Hcn & Hccn & Hl). rewrite Renumber_step_values. cbv zeta.
  rewrite <- Hcn, <- Hccn, !number_neb_refl. cbn [orb]. by apply IH.
Qed.

(** The loop writes the members of the sequence only, and each gets the
    backend number computed from the store the loop started with. *)
Lemma Renumber_loop_members bU bS mode g l : ∀ h i b,
  loop_ready g h l →
  let h1 := (Renumber_loop bU bS mode g l (h, i, b)).1.1 in
  length h1 = length h
  ∧ (∀ p, p ∉ l → deref h1 p = deref h p)
  ∧ (∀ q, q ∈ l → ∃ cn, deref h1 q
                        = assign (deref h q) cn (Renumber_values bU bS mode g h q 0).1.2).
Proof.
  induction l as [|q l IH]; intros h i b Hready; simpl.
  - split; [done|]. split; [done|]. intros q Hq. by apply elem_of_nil in Hq.
  - destruct (loop_ready_cons _ _ _ _ Hready)
      as (Halloc & Hu & Hne & Hall & Hq & Hready').
    pose proof (Renumber_step_ready bU bS mode g q h i b Halloc Hu)
      as (Hi & Hdq & Hother & Hlen).
    destruct (Renumber_step bU bS mode g q (h, i, b)) as [[h' i'] b'].
    cbn [fst snd] in *.
    assert (∀ p, Member.Channel (deref h' p) = Member.Channel (deref h p)) as Hch.
    { intros p. destruct (decide (p = q)) as [->|Hp].
      - by rewrite Hdq, assign_channel.
      - by rewrite Hother. }
    destruct (IH h' i' b') as (Hlen1 & Hframe1 & Hmem1).
    { by apply (loop_ready_same_channels g h). }
    split; [lia|]. split.
    + intros p [Hpq Hpl]%not_elem_of_cons. rewrite Hframe1 by done. by apply Hother.
    + intros p [->|Hp]%elem_of_cons.
      * rewrite Hframe1 by done. rewrite Hdq. eauto.
      * destruct (Hmem1 p Hp) as (cn & ->).
        assert (p ≠ q) by (intros ->; done).
        rewrite Hother by done. exists cn. f_equal.
        unfold Renumber_values. cbv zeta. cbn [fst snd].
        unfold group_GetClientChannelNumber.
        rewrite Hother by done.
        destruct (IsValid _); [done|].
        assert (all_member_of g h p ∉ l) as Hap.
        { destruct Hready' as [_ Hl]. by apply (proj1 (Forall_forall _ _) Hl p Hp). }
        destruct (decide (all_member_of g h p = q)) as [Heq|Hneq].
        -- exfalso. destruct Hready as [_ Hl].
           apply Forall_cons in Hl as [_ Hl].
           destruct (proj1 (Forall_forall _ _) Hl p Hp) as (_ & _ & Hnot).
           apply Hnot. rewrite Heq. by left.
        -- unfold all_member_of in Hneq. by rewrite Hother.
Qed.

(** After the loop every member of the sequence has the numbers the loop
    would compute for it in the same order. *)
Lemma Renumber_loop_establishes bU bS mode g l : ∀ h i b,
  loop_ready g h l →
  assigned bU bS mode g (Renumber_loop bU bS mode g l (h, i, b)).1.1 l i.
Proof.
  induction l as [|q l IH]; intros h i b Hready;
    cbn [Renumber_loop assigned]; [done|].
  destruct (loop_ready_cons _ _ _ _ Hready)
    as (Halloc & Hu & Hne & Hall & Hq & Hready').
  pose proof (Renumber_step_ready bU bS mode g q h i b Halloc Hu)
    as (Hi & Hdq & Hother & Hlen).
  destruct (Renumber_step bU bS mode g q (h, i, b)) as [[h' i'] b'].
  cbn [fst snd] in *. subst i'.
  assert (∀ p, Member.Channel (deref h' p) = Member.Channel (deref h p)) as Hch.
  { intros p. destruct (decide (p = q)) as [->|Hp].
    - by rewrite Hdq, assign_channel.
    - by rewrite Hother. }
  assert (loop_ready g h' l) as Hready1
    by by apply (loop_ready_same_channels g h).
  destruct (Renumber_loop_members bU bS mode g l h'
              (Renumber_values bU bS mode g h q i).2 b' Hready1)
    as (_ & Hframe & _).
  set (h1 := (Renumber_loop bU bS mode g l (h', _, b')).1.1) in *.
  assert (Renumber_values bU bS mode g h1 q i = Renumber_values bU bS mode g h q i)
    as Hv.
  { apply Renumber_values_assigned.
    - by rewrite Hframe.
    - rewrite Hframe by done. by apply Hother. }
  rewrite Hv, Hframe, Hdq by done. rewrite assign_number, assign_client.
  split; [done|]. split; [done|]. by apply IH.
Qed.

(** Whether group numbers are handed out by counting, and whether the
    member at [q] takes part in the count. *)
Definition counting (bU bS : bool) (mode : RenumberMode) (g : CPVRChannelGroup) : bool :=
  negb bU && (IsInternalGroup g
              || (bS && negb (bool_decide (mode = IGNORE_NUMBERING_FROM_ONE)))).

Definition counts (bU bS : bool) (mode : RenumberMode) (g : CPVRChannelGroup)
    (h : Heap) (q : ptr) : bool :=
  counting bU bS mode g && negb (IsHidden (deref_channel (Member.Channel (deref h q)))).

Lemma Renumber_values_counts bU bS mode g h q i :
  counts bU bS mode g h q = true →
  Renumber_values bU bS mode g h q i
  = (ChannelNumber (uint32 (i + 1)) 0, (Renumber_values bU bS mode g h q 0).1.2,
     uint32 (i + 1)).
Proof.
  unfold counts, counting, Renumber_values. cbv zeta.
  destruct bU, (IsHidden _), (IsInternalGroup g), (bS && _); cbn; congruence.
Qed.

Lemma Renumber_values_fixed bU bS mode g h q i :
  counts bU bS mode g h q = false →
  Renumber_values bU bS mode g h q i
  = ((Renumber_values bU bS mode g h q 0).1.1,
     (Renumber_values bU bS mode g h q 0).1.2, i).
Proof.
  unfold counts, counting, Renumber_values. cbv zeta.
  destruct bU, (IsHidden _), (IsInternalGroup g), (bS && _); cbn; congruence.
Qed.

(** The members of [l] have the numbers [i + 1], [i + 2], ... in order. *)
Fixpoint numbered (h : Heap) (l : list ptr) (i : Z) : Prop :=
  match l with
  | [] => True
  | q :: l' =>
      Member.ChannelNumber (deref h q) = ChannelNumber (uint32 (i + 1)) 0
      ∧ numbered h l' (uint32 (i + 1))
  end.

(** The member at [q] has its backend number, and its group number if
    that does not come from the count. *)
Definition settled (bU bS : bool) (mode : RenumberMode) (g : CPVRChannelGroup)
    (h : Heap) (q : ptr) : Prop :=
  Member.ClientChannelNumber (deref h q) = (Renumber_values bU bS mode g h q 0).1.2
  ∧ (counts bU bS mode g h q = false →
     Member.ChannelNumber (deref h q) = (Renumber_values bU bS mode g h q 0).1.1).

Lemma assigned_split bU bS mode g h l : ∀ i,
  assigned bU bS mode g h l i
  ↔ Forall (settled bU bS mode g h) l
    ∧ numbered h (filter (λ q, counts bU bS mode g h q = true) l) i.
Proof.
  induction l as [|q l IH]; intros i; cbn [assigned].
  - split; [by split|done].
  - destruct (counts bU bS mode g h q) eqn:Hc.
    + rewrite filter_cons_True by done. rewrite Renumber_values_counts by done.
      cbn [fst snd numbered]. rewrite IH, Forall_cons. unfold settled.
      rewrite Hc. split.
      * intros (? & ? & ? & ?). repeat split; done.
      * intros ([[? ?] ?] & ? & ?). repeat split; done.
    + rewrite filter_cons_False by (by rewrite Hc).
      rewrite Renumber_values_fixed by done.
      cbn [fst snd]. rewrite IH, Forall_cons. unfold settled. split.
      * intros (? & ? & ? & ?). repeat split; done.
      * intros ([[? Hcn] ?] & ?). split; [by apply Hcn|]. repeat split; done.
Qed.

(** Being assigned survives a reordering that keeps the counted members
    in their order. *)
Lemma assigned_reordered bU bS mode g h l l' i :
  l' ≡ₚ l →
  filter (λ q, counts bU bS mode g h q = true) l'
  = filter (λ q, counts bU bS mode g h q = true) l →
  assigned bU bS mode g h l i → assigned bU bS mode g h l' i.
Proof.
  intros Hperm Hfilter. rewrite !assigned_split, Hfilter.
  intros [Hl Hn]. split; [by rewrite Hperm|done].
Qed.

(** The major part of the group number of the member at [q]. *)
Definition major (h : Heap) (q : ptr) : Z :=
  GetChannelNumber (Member.ChannelNumber (deref h q)).

Lemma numbered_increasing h l : ∀ i,
  numbered h l i → 0 ≤ i → i + Z.of_nat (length l) < UINT_MOD →
  Forall (λ q, i < major h q) l
  ∧ StronglySorted (λ a b, major h a < major h b) l.
Proof.
  induction l as [|q l IH]; intros i Hn Hi Hfit; cbn [numbered] in *.
  - split; constructor.
  - destruct Hn as [Hq Hn]. cbn [length] in Hfit.
    assert (uint32 (i + 1) = i + 1) as Hu by (apply uint32_small; lia).
    rewrite Hu in Hn.
    assert (major h q = i + 1) as Hmq.
    { unfold major. rewrite Hq. unfold ChannelNumber, GetChannelNumber. cbn.
      by rewrite !Hu. }
    destruct (IH (i + 1) Hn) as [Hall Hsorted]; [lia|lia|].
    split.
    + constructor; [lia|]. eapply Forall_impl; [exact Hall|]. intros; cbn in *; lia.
    + constructor; [done|]. eapply Forall_impl; [exact Hall|]. intros; cbn in *; lia.
Qed.

Lemma StronglySorted_filter (R : ptr → ptr → Prop) (P : ptr → Prop)
    `{∀ q, Decision (P q)} (l : list ptr) :
  StronglySorted R l → StronglySorted R (filter P l).
Proof.
  induction 1 as [|q l Hl IH Hq]; [constructor|].
  rewrite filter_cons. destruct (decide (P q)) as [HP|HP]; [|done].
  constructor; [done|]. apply Forall_forall. intros x [_ Hx]%list_elem_of_filter.
  by apply (proj1 (Forall_forall _ _) Hq).
Qed.

Lemma StronglySorted_weaken (R R' : ptr → ptr → Prop) (l : list ptr) :
  (∀ a b, R a b → R' a b) → StronglySorted R l → StronglySorted R' l.
Proof.
  intros HR. induction 1 as [|q l Hl IH Hq]; constructor; [done|].
  eapply Forall_impl; [exact Hq|]. auto.
Qed.

Lemma strictly_sorted_injective (h : Heap) (l : list ptr) :
  StronglySorted (λ a b, major h a < major h b) l →
  ∀ x y, x ∈ l → y ∈ l → major h x = major h y → x = y.
Proof.
  induction 1 as [|q l Hl IH Hq]; intros x y Hx Hy Heq;
    [by apply elem_of_nil in Hx|].
  apply elem_of_cons in Hx as [->|Hx], Hy as [->|Hy]; try done.
  - pose proof (proj1 (Forall_forall _ _) Hq y Hy) as Hlt. cbn beta in Hlt. lia.
  - pose proof (proj1 (Forall_forall _ _) Hq x Hx) as Hlt. cbn beta in Hlt. lia.
  - by apply IH.
Qed.

(** Sorted by group number, the counted members come in the order of
    their numbers: the order in which they were counted. *)
Lemma counted_members_keep_order (P : ptr → Prop) `{∀ q, Decision (P q)}
    (h : Heap) (l l' : list ptr) :
  l' ≡ₚ l →
  StronglySorted (not_after (sortByChannelNumber h)) l' →
  numbered h (filter P l) 0 →
  Z.of_nat (length l) < UINT_MOD →
  filter P l' = filter P l.
Proof.
  intros Hperm Hsorted Hn Hfit.
  assert (Z.of_nat (length (filter P l)) ≤ Z.of_nat (length l)) as Hlen.
  { apply inj_le, sublist_length, sublist_filter. }
  destruct (numbered_increasing h (filter P l) 0 Hn) as [_ Hstrict]; [done|lia|].
  apply (StronglySorted_unique_strong (not_after (sortByChannelNumber h))).
  - intros x1 x2 Hx1 Hx2 H12 H21.
    apply (strictly_sorted_injective h (filter P l) Hstrict); [|done|].
    + by rewrite <- Hperm.
    + unfold not_after, sortByChannelNumber in H12, H21. unfold major.
      by rewrite (number_ltb_total _ _ H21 H12).
  - by apply StronglySorted_filter.
  - eapply StronglySorted_weaken; [|exact Hstrict].
    intros a b Hab. unfold not_after, sortByChannelNumber, number_ltb.
    unfold major, GetChannelNumber in Hab.
    destruct (Z.eqb_spec (m_iChannelNumber (Member.ChannelNumber (deref h b)))
                (m_iChannelNumber (Member.ChannelNumber (deref h a)))); [lia|].
    apply Z.ltb_ge. lia.
  - by rewrite Hperm.
Qed.

(** The group is ready to be renumbered: its index is in lockstep,
    [EmptyMember] is empty, and the members of the all channels group are
    other objects than the members of the group. *)
Definition renumber_ready (h : Heap) (g : CPVRChannelGroup) : Prop :=
  lockstep h g
  ∧ sentinel_empty h
  ∧ map_Forall (λ _ r, r ∉ m_sortedMembers g) (m_allChannelsGroup g).

#[global] Instance renumber_ready_dec h g : Decision (renumber_ready h g).
Proof. unfold renumber_ready. apply _. Defined.

Lemma renumber_ready_loop_ready h g :
  renumber_ready h g → loop_ready g h (m_sortedMembers g).
Proof.
  intros (Hls & [_ Hsent] & Hsep). split; [by destruct Hls|].
  apply Forall_forall. intros q Hq.
  destruct (lockstep_at_sequence _ _ _ _ Hls Hq) as (Halloc & k & Hk & Hmk).
  split; [done|]. split.
  - unfold unsorted_of, GetByUniqueID.
    by rewrite (key_of_deref_channel _ _ _ Hk), Hmk.
  - unfold all_member_of, GetByUniqueID.
    destruct (m_allChannelsGroup g !! _) as [r|] eqn:Hr.
    + by apply (Hsep _ _ Hr).
    + intros Hin. destruct (lockstep_at_sequence _ _ _ _ Hls Hin) as (_ & k' & Hk' & _).
      unfold key_of in Hk'. by rewrite Hsent in Hk'.
Qed.

Lemma renumber_ready_permutation h g l :
  l ≡ₚ m_sortedMembers g → renumber_ready h g →
  renumber_ready h (with_sortedMembers g l).
Proof.
  intros Hperm (Hls & Hsent & Hsep). split; [|split; [done|]].
  - unfold lockstep. cbn. by apply (lockstep_at_permutation _ _ _ _ Hperm).
  - cbn. intros k r Hr. rewrite Hperm. by apply (Hsep k r).
Qed.

Lemma assigned_with_sortedMembers bU bS mode g l0 h l : ∀ i,
  assigned bU bS mode (with_sortedMembers g l0) h l i ↔ assigned bU bS mode g h l i.
Proof.
  induction l as [|q l IH]; intros i; cbn [assigned]; [done|].
  rewrite IH. reflexivity.
Qed.

Lemma filter_counts_none bU bS mode g h l :
  counting bU bS mode g = false →
  filter (λ q, counts bU bS mode g h q = true) l = [].
Proof.
  intros Hc. induction l as [|q l IH]; [done|].
  rewrite filter_cons_False; [done|]. unfold counts. by rewrite Hc.
Qed.

(** The comparison [Sort()] uses in the state [s]. *)
Definition active_comparison (s : State) : ptr → ptr → bool :=
  if m_bUsingBackendChannelOrder (this s)
  then sortByClientChannelNumber (st_heap s)
  else sortByChannelNumber (st_heap s).

Lemma active_comparison_swo s : StrictWeakOrdering (active_comparison s).
Proof.
  unfold active_comparison. destruct (m_bUsingBackendChannelOrder (this s)).
  - apply sortByClientChannelNumber_swo.
  - apply sortByChannelNumber_swo.
Qed.

(** No two members of [l] are equivalent under [comp]: neither is before
    the other.  [std::sort] has no choice then. *)
Definition tie_free (comp : ptr → ptr → bool) (l : list ptr) : Prop :=
  ∀ a b, a ∈ l → b ∈ l → comp a b = false → comp b a = false → a = b.

Lemma tie_free_permutation comp l l' :
  l' ≡ₚ l → tie_free comp l → tie_free comp l'.
Proof. intros Hperm Hfree a b Ha Hb. apply Hfree; by rewrite <- Hperm. Qed.

(** Without ties there is one sequence in order. *)
Lemma sorted_unique comp (l l' : list ptr) :
  tie_free comp l →
  StronglySorted (not_after comp) l → StronglySorted (not_after comp) l' →
  l ≡ₚ l' → l = l'.
Proof.
  intros Hfree Hl Hl' Hperm.
  apply (StronglySorted_unique_strong (not_after comp)); try done.
  intros a b Ha Hb Hab Hba. rewrite <- Hperm in Hb. by apply Hfree.
Qed.

Lemma with_sortedMembers_twice g l l' :
  with_sortedMembers (with_sortedMembers g l) l' = with_sortedMembers g l'.
Proof. by destruct g. Qed.

Lemma tie_free_Forall comp l :
  tie_free comp l
  ↔ Forall (λ a, Forall (λ b, comp a b = false → comp b a = false → a = b) l) l.
Proof.
  unfold tie_free. rewrite Forall_forall. setoid_rewrite Forall_forall.
  split; intros H a; [intros Ha b Hb|intros b Ha Hb]; by apply H.
Qed.

#[global] Instance tie_free_dec comp l : Decision (tie_free comp l).
Proof.
  refine (cast_if (decide (Forall (λ a, Forall (λ b,
            comp a b = false → comp b a = false → a = b) l) l)));
    by rewrite tie_free_Forall.
Defined.

Section Twice.

Context {sorter : StdSort}.
Variable broker : CServiceBroker.

(** Group numbers are handed out by counting: the backend numbers are not
    in use, and the group is the internal group or numbering starts from
    one in every group. *)
Definition numbers_by_count (g : CPVRChannelGroup) : bool :=
  negb (UsingBackendChannelNumbers broker (GetSettings broker))
  && (IsInternalGroup g
      || SETTING_PVRMANAGER_STARTGROUPCHANNELNUMBERSFROMONE (GetSettings broker)).

Lemma Sort_unprevented s :
  PreventSortAndRenumber (this s) = false →
  Sort s = with_this s (with_sortedMembers (this s)
                          (std_sort (active_comparison s) (m_sortedMembers (this s)))).
Proof.
  intros Hp. unfold Sort, SortByClientChannelNumber, SortByChannelNumber,
    active_comparison. rewrite Hp.
  by destruct (m_bUsingBackendChannelOrder (this s)).
Qed.

End Twice.

Section Idempotence.

Context {sorter : StdSort}.
Variable broker : CServiceBroker.

(** C5, amended: on a group that is ready to be renumbered and not flagged
    to prevent it, with fewer than 2^32 members, a second
    [SortAndRenumber()] right after the first returns [false] and writes
    to no member and to no field of the group but the sequence, which it
    leaves as a permutation of the sequence the first call left, in order
    under the same comparison as that one.  So the numbers are the same,
    and the order is the same up to members that are equivalent under the
    comparison, whose order [std::sort] does not specify: when no two
    members are equivalent, the state is exactly the one the first call
    left.  This holds provided that, where the backend order is in use and
    group numbers are handed out by counting, every member comes with a
    valid backend number and no two members are equivalent under the
    comparison by backend number. *)
Theorem SortAndRenumber_twice (s : State) :
  renumber_ready (st_heap s) (this s) →
  PreventSortAndRenumber (this s) = false →
  Z.of_nat (length (m_sortedMembers (this s))) < UINT_MOD →
  (m_bUsingBackendChannelOrder (this s) = true →
   numbers_by_count broker (this s) = true →
   Forall (λ q, IsValid (Member.ClientChannelNumber (deref (st_heap s) q)) = true)
          (m_sortedMembers (this s))
   ∧ tie_free (sortByClientChannelNumber (st_heap s)) (m_sortedMembers (this s))) →
  let s1 := (SortAndRenumber broker s).2 in
  let r := SortAndRenumber broker s1 in
  r.1 = false
  ∧ (∃ l, r.2 = with_this s1 (with_sortedMembers (this s1) l)
          ∧ l ≡ₚ m_sortedMembers (this s1)
          ∧ StronglySorted (not_after (active_comparison s1)) l)
  ∧ StronglySorted (not_after (active_comparison s1)) (m_sortedMembers (this s1))
  ∧ (tie_free (active_comparison s1) (m_sortedMembers (this s1)) → r.2 = s1).
Proof.
  intros Hready Hprevent Hfit Hvalid.
  set (bU := UsingBackendChannelNumbers broker (GetSettings broker)).
  set (bS := SETTING_PVRMANAGER_STARTGROUPCHANNELNUMBERSFROMONE (GetSettings broker)
             && negb bU).
  (* the first call: sort, the loop, sort *)
  set (l0 := std_sort (active_comparison s) (m_sortedMembers (this s))).
  assert (l0 ≡ₚ m_sortedMembers (this s)) as Hl0
    by apply std_sort_permutation, active_comparison_swo.
  set (g0 := with_sortedMembers (this s) l0).
  set (r0 := Renumber_loop bU bS NORMAL g0 l0 (st_heap s, 0, false)).
  set (h1 := r0.1.1).
  set (s' := with_heap (with_this s g0) h1).
  set (l1 := std_sort (active_comparison s') l0).
  set (s1 := with_this s' (with_sortedMembers g0 l1)).
  assert ((SortAndRenumber broker s).2 = s1) as Hfirst.
  { unfold SortAndRenumber. rewrite Hprevent, Sort_unprevented by done.
    rewrite Renumber_unprevented by done. cbv zeta. cbn [snd].
    rewrite Sort_unprevented by done. reflexivity. }
  cbv zeta. rewrite Hfirst.
  assert (renumber_ready (st_heap s) g0) as Hready0
    by by apply renumber_ready_permutation.
  pose proof (renumber_ready_loop_ready _ _ Hready0) as Hloop. cbn in Hloop.
  pose proof (Renumber_loop_establishes bU bS NORMAL g0 l0 (st_heap s) 0 false Hloop)
    as Hassigned.
  destruct (Renumber_loop_members bU bS NORMAL g0 l0 (st_heap s) 0 false Hloop)
    as (Hlen & Hframe & Hmembers).
  fold r0 h1 in Hassigned, Hlen, Hframe, Hmembers.
  assert (l1 ≡ₚ l0) as Hl1 by apply std_sort_permutation, active_comparison_swo.
  assert (StronglySorted (not_after (active_comparison s')) l1) as Hsorted1
    by apply std_sort_sorted, active_comparison_swo.
  (* the second call sorts again, by the same comparison *)
  assert (active_comparison s1 = active_comparison s') as Hcomp by done.
  set (l2 := std_sort (active_comparison s1) l1).
  assert (l2 ≡ₚ l1) as Hl2 by apply std_sort_permutation, active_comparison_swo.
  assert (StronglySorted (not_after (active_comparison s')) l2) as Hsorted2.
  { rewrite <- Hcomp. apply std_sort_sorted, active_comparison_swo. }
  (* the counted members are in the order in which they were counted *)
  assert (filter (λ q, counts bU bS NORMAL g0 h1 q = true) l2
          = filter (λ q, counts bU bS NORMAL g0 h1 q = true) l0) as Hfilter.
  { destruct (counting bU bS NORMAL g0) eqn:Hcounting;
      [|by rewrite !filter_counts_none].
    destruct (m_bUsingBackendChannelOrder (this s)) eqn:Horder.
    - (* backend order: no key has changed, and there is one order *)
      assert (numbers_by_count broker (this s) = true) as Hcount.
      { revert Hcounting. unfold numbers_by_count, counting, bS. fold bU.
        change (IsInternalGroup g0) with (IsInternalGroup (this s)).
        destruct bU, (IsInternalGroup (this s)),
          (SETTING_PVRMANAGER_STARTGROUPCHANNELNUMBERSFROMONE (GetSettings broker));
          done. }
      destruct (Hvalid eq_refl Hcount) as [Hnumbers Hfree].
      assert (∀ p, client_key h1 p = client_key (st_heap s) p) as Hkey.
      { intros p. destruct (decide (p ∈ l0)) as [Hp|Hp];
          [|unfold client_key; by rewrite Hframe].
        destruct (Hmembers p Hp) as (cn & Hdp). unfold client_key.
        rewrite Hdp, assign_priority, assign_client, assign_channel.
        unfold Renumber_values. cbv zeta. cbn [fst snd].
        rewrite Hl0 in Hp.
        by rewrite (proj1 (Forall_forall _ _) Hnumbers p Hp). }
      assert (∀ a b, active_comparison s' a b = active_comparison s a b) as Hsame.
      { intros a b. unfold active_comparison. cbn. rewrite Horder.
        by rewrite !sortByClientChannelNumber_key, !Hkey. }
      assert (StronglySorted (not_after (active_comparison s')) l0) as Hsorted0.
      { assert (StronglySorted (not_after (active_comparison s)) l0) as Hsorted0
          by apply std_sort_sorted, active_comparison_swo.
        eapply StronglySorted_weaken; [|exact Hsorted0].
        intros a b. unfold not_after. by rewrite Hsame. }
      assert (tie_free (active_comparison s') l0) as Hfree0.
      { apply (tie_free_permutation _ _ _ Hl0).
        intros a b Ha Hb. rewrite !Hsame. unfold active_comparison.
        rewrite Horder. by apply Hfree. }
      assert (l0 = l2) as <-; [|done].
      apply (sorted_unique (active_comparison s')); try done.
      by rewrite Hl2, Hl1.
    - (* sorted by group number: the counted members have distinct numbers *)
      apply (counted_members_keep_order _ h1).
      + by rewrite Hl2, Hl1.
      + unfold active_comparison in Hsorted2. cbn in Hsorted2.
        by rewrite Horder in Hsorted2.
      + by apply assigned_split in Hassigned as [_ ?].
      + by rewrite Hl0. }
  assert (l2 ≡ₚ l0) as Hl20 by by rewrite Hl2, Hl1.
  pose proof (assigned_reordered _ _ _ _ _ _ _ _ Hl20 Hfilter Hassigned) as Hassigned2.
  (* the second call *)
  assert (PreventSortAndRenumber (this s1) = false) as Hprevent1 by exact Hprevent.
  set (s2 := with_this s1 (with_sortedMembers (this s1) l2)).
  assert (Sort s1 = s2) as Hsort1 by by apply Sort_unprevented.
  unfold SortAndRenumber. rewrite Hprevent1, Hsort1.
  assert (PreventSortAndRenumber (this s2) = false) as Hprevent2 by exact Hprevent.
  rewrite Renumber_unprevented by done. cbv zeta. fold bU bS.
  destruct (Renumber_loop_assigned bU bS NORMAL (this s2) h1 l2 0 false)
    as [Hheap Hreturn].
  { unfold s2. cbn [this with_this]. rewrite assigned_with_sortedMembers.
    unfold s1. cbn [this with_this]. by rewrite assigned_with_sortedMembers. }
  change (m_sortedMembers (this s2)) with l2. change (st_heap s2) with h1.
  rewrite Hheap, Hreturn. cbn [fst snd].
  change (with_heap s2 h1) with s2.
  rewrite Sort_unprevented by done.
  set (l3 := std_sort (active_comparison s2) (m_sortedMembers (this s2))).
  assert (active_comparison s2 = active_comparison s') as Hcomp2 by done.
  assert (l3 ≡ₚ l1) as Hl3.
  { unfold l3. rewrite std_sort_permutation by apply active_comparison_swo. exact Hl2. }
  assert (StronglySorted (not_after (active_comparison s')) l3) as Hsorted3.
  { rewrite <- Hcomp2. apply std_sort_sorted, active_comparison_swo. }
  assert (with_this s2 (with_sortedMembers (this s2) l3)
          = with_this s1 (with_sortedMembers (this s1) l3)) as ->.
  { unfold s2. cbn [this with_this]. by rewrite with_sortedMembers_twice. }
  split; [done|]. split; [by exists l3|]. split; [done|].
  intros Hfree. change (m_sortedMembers (this s1)) with l1 in Hfree.
  rewrite Hcomp in Hfree.
  assert (l1 = l3) as <-.
  { apply (sorted_unique (active_comparison s')); done. }
  change l1 with (m_sortedMembers (this s1)).
  by rewrite with_sortedMembers_same, with_this_same.
Qed.

End Idempotence.

(** * Further properties *)

(** ** Sorting and renumbering twice, on the example *)

(** The broker of a setup in which numbering starts from one in every
    group. *)
Definition broker_from_one : CServiceBroker :=
  Example.broker (Example.settings true false true) None.

(** C5, as stated, fails where the backend order is in use, group numbers
    are handed out by counting and a member comes without a backend
    number.  The first [SortAndRenumber()] sorts A, which has no backend
    number yet, before B, counts A as 1 and B as 2, gives A the backend
    number 2 and sorts again: B, A.  The second call counts in that
    order: it returns [true] and leaves B as 1 and A as 2. *)
Lemma SortAndRenumber_twice_can_renumber :
  renumber_ready (st_heap Example.backend_order_state) (this Example.backend_order_state)
  ∧ PreventSortAndRenumber (this Example.backend_order_state) = false
  ∧ m_sortedMembers
      (this (SortAndRenumber (sorter := stable_sorter) broker_from_one
               Example.backend_order_state).2) = [5%nat; 4%nat]
  ∧ Member.ChannelNumber
      (deref (st_heap (SortAndRenumber (sorter := stable_sorter) broker_from_one
                         Example.backend_order_state).2) 4%nat) = ChannelNumber 1 0
  ∧ Member.ChannelNumber
      (deref (st_heap (SortAndRenumber (sorter := stable_sorter) broker_from_one
                         Example.backend_order_state).2) 5%nat) = ChannelNumber 2 0
  ∧ (SortAndRenumber (sorter := stable_sorter) broker_from_one
       (SortAndRenumber (sorter := stable_sorter) broker_from_one
          Example.backend_order_state).2).1 = true
  ∧ Member.ChannelNumber
      (deref (st_heap (SortAndRenumber (sorter := stable_sorter) broker_from_one
                         (SortAndRenumber (sorter := stable_sorter) broker_from_one
                            Example.backend_order_state).2).2) 4%nat) = ChannelNumber 2 0
  ∧ Member.ChannelNumber
      (deref (st_heap (SortAndRenumber (sorter := stable_sorter) broker_from_one
                         (SortAndRenumber (sorter := stable_sorter) broker_from_one
                            Example.backend_order_state).2).2) 5%nat) = ChannelNumber 1 0.
Proof.
  split; [apply (bool_decide_unpack _); vm_compute; exact I|].
  repeat split; by vm_compute.
Qed.

Lemma SortAndRenumber_twice_witness :
  renumber_ready (st_heap Example.loaded_group_state) (this Example.loaded_group_state)
  ∧ (SortAndRenumber (sorter := unstable_sorter) broker_from_one
       Example.loaded_group_state).1 = true
  ∧ SortAndRenumber (sorter := unstable_sorter) broker_from_one
      (SortAndRenumber (sorter := unstable_sorter) broker_from_one
         Example.loaded_group_state).2
    = (false, (SortAndRenumber (sorter := unstable_sorter) broker_from_one
                 Example.loaded_group_state).2).
Proof.
  assert (renumber_ready (st_heap Example.loaded_group_state)
            (this Example.loaded_group_state)) as Hready.
  { apply (bool_decide_unpack _). vm_compute. exact I. }
  split; [exact Hready|]. split; [by vm_compute|].
  destruct (SortAndRenumber_twice (sorter := unstable_sorter) broker_from_one
              Example.loaded_group_state) as (Hfalse & _ & _ & Hsame).
  - exact Hready.
  - reflexivity.
  - reflexivity.
  - intros Horder. discriminate Horder.
  - apply injective_projections; [exact Hfalse|]. apply Hsame.
    apply (bool_decide_unpack _). vm_compute. exact I.
Defined.

(** ** What the value returned by Renumber means *)

Section ReturnValue.

Context {sorter : StdSort}.
Variable broker : CServiceBroker.

Lemma Renumber_loop_reports_true bU bS mode g l : ∀ h i,
  (Renumber_loop bU bS mode g l (h, i, true)).2 = true.
Proof.
  induction l as [|q l IH]; intros h i; cbn [Renumber_loop]; [done|].
  rewrite Renumber_step_values. cbv zeta. by destruct (_ || _).
Qed.

Lemma Renumber_loop_false_unchanged bU bS mode g l : ∀ h i b,
  (Renumber_loop bU bS mode g l (h, i, b)).2 = false →
  (Renumber_loop bU bS mode g l (h, i, b)).1.1 = h.
Proof.
  induction l as [|q l IH]; intros h i b; cbn [Renumber_loop]; [done|].
  rewrite Renumber_step_values. cbv zeta. destruct (_ || _).
  - by rewrite Renumber_loop_reports_true.
  - apply IH.
Qed.

(** X2: When [Renumber(mode)] or [SortAndRenumber()] runs on a group that is
    not flagged to prevent it and returns [false], no member object has
    been written: the store is the one before.  The map is the one before
    in any case, and the sequence a permutation of the one before. *)
Theorem Renumber_returning_false_wrote_nothing (mode : RenumberMode) (s : State) :
  PreventSortAndRenumber (this s) = false →
  ((Renumber broker mode s).1 = false →
   st_heap (Renumber broker mode s).2 = st_heap s)
  ∧ ((SortAndRenumber broker s).1 = false →
     st_heap (SortAndRenumber broker s).2 = st_heap s)
  ∧ m_members (this (SortAndRenumber broker s).2) = m_members (this s)
  ∧ m_sortedMembers (this (SortAndRenumber broker s).2) ≡ₚ m_sortedMembers (this s).
Proof.
  intros Hprevent.
  assert (∀ mode' s', PreventSortAndRenumber (this s') = false →
            (Renumber broker mode' s').1 = false →
            st_heap (Renumber broker mode' s').2 = st_heap s') as Hrenumber.
  { intros mode' s' Hp. rewrite Renumber_unprevented by done. cbv zeta. cbn [fst snd].
    set (r := Renumber_loop _ _ _ _ _ _). intros Hfalse.
    destruct (Sort_upd (with_heap s' r.1.1)) as (l & _ & ->). cbn.
    by apply Renumber_loop_false_unchanged. }
  split; [by apply Hrenumber|]. split.
  - unfold SortAndRenumber. rewrite Hprevent. intros Hfalse.
    destruct (Sort_upd s) as (l & Hl & Hsort). rewrite Hsort in *.
    by rewrite Hrenumber.
  - destruct (SortAndRenumber_upd broker s) as (h & l & Hl & _ & _ & ->). by cbn.
Qed.

End ReturnValue.

Lemma Renumber_returning_false_wrote_nothing_witness :
  (Renumber (sorter := stable_sorter) Example.broker_without_database NORMAL
     Example.loaded_group_state).1 = false
  ∧ st_heap (Renumber (sorter := stable_sorter) Example.broker_without_database NORMAL
               Example.loaded_group_state).2
    = st_heap Example.loaded_group_state.
Proof.
  split; [by vm_compute|].
  apply (Renumber_returning_false_wrote_nothing (sorter := stable_sorter)
           Example.broker_without_database NORMAL Example.loaded_group_state).
  - reflexivity.
  - by vm_compute.
Defined.

(** ** The comparisons meet the requirement of std::sort *)

(** X3: Both comparisons [Sort()] hands to [std::sort] are strict weak
    orderings of the members, whatever the store holds; [std::sort] is
    never called outside its contract. *)
Theorem sort_comparisons_are_strict_weak_orderings (h : list Member.t) :
  StrictWeakOrdering (sortByChannelNumber h)
  ∧ StrictWeakOrdering (sortByClientChannelNumber h).
Proof.
  split; [apply sortByChannelNumber_swo|apply sortByClientChannelNumber_swo].
Qed.

(** ** Adding and removing a member *)

Lemma RemoveFromGroup_loop_false h channel l m :
  (RemoveFromGroup_loop h channel l m).1.1 = false →
  Forall (λ p, channel_eqb channel (deref_channel (Member.Channel (deref h p))) = false) l.
Proof.
  induction l as [|q l IH]; cbn [RemoveFromGroup_loop]; [by constructor|].
  destruct (channel_eqb _ _) eqn:E; [done|].
  destruct (RemoveFromGroup_loop h channel l m) as [[b k] m'].
  cbn [fst] in *. intros Hb. constructor; [done|by apply IH].
Qed.

(** Under lockstep the map knows a channel exactly when a member of the
    sequence has it. *)
Lemma lockstep_IsGroupMember h g channel :
  lockstep h g →
  IsGroupMember g channel = true
  ↔ ∃ p, p ∈ m_sortedMembers g
         ∧ channel_eqb channel (deref_channel (Member.Channel (deref h p))) = true.
Proof.
  intros Hls. unfold IsGroupMember, channel_eqb. split.
  - destruct (m_members g !! StorageId channel) as [p|] eqn:E; [intros _|done].
    destruct (lockstep_at_map _ _ _ _ _ Hls E) as [Hin Hkey].
    exists p. split; [done|]. apply bool_decide_eq_true.
    apply key_of_Some in Hkey as (c & Hc & Hk). by rewrite Hc.
  - intros (p & Hin & Heq%bool_decide_eq_true).
    destruct (lockstep_at_sequence _ _ _ _ Hls Hin) as (_ & k & Hk & Hm).
    apply key_of_Some in Hk as (c & Hc & Hk). rewrite Hc in Heq. simpl in Heq.
    by rewrite Heq, Hk, Hm.
Qed.

Section AddingAndRemoving.

Context {sorter : StdSort}.
Variable broker : CServiceBroker.

(** X4: [AddToGroup] returns [true] exactly when the channel is not yet a
    member, the group is not the internal one and the all channels group
    knows the channel.  When it returns [false] nothing has changed; when
    it returns [true] the channel is a member, every earlier member still
    is, and the map and the sequence have each grown by one. *)
Theorem AddToGroup_adds_exactly_known_channels
    (channel : CPVRChannel) (channelNumber : CPVRChannelNumber) (iOrder : Z)
    (bUseBackendChannelNumbers : bool) (clientChannelNumber : CPVRChannelNumber)
    (s : State) :
  sentinel_empty (st_heap s) →
  keyed (st_heap s) (m_allChannelsGroup (this s)) →
  let r := AddToGroup broker channel channelNumber iOrder bUseBackendChannelNumbers
             clientChannelNumber s in
  (r.1 = true ↔ IsGroupMember (this s) channel = false
               ∧ IsInternalGroup (this s) = false
               ∧ is_Some (m_allChannelsGroup (this s) !! StorageId channel))
  ∧ (r.1 = false → r.2 = s)
  ∧ (r.1 = true →
     IsGroupMember (this (r.2)) channel = true
     ∧ (∀ c, IsGroupMember (this s) c = true → IsGroupMember (this (r.2)) c = true)
     ∧ Size (this (r.2)) = S (Size (this s))
     ∧ length (m_sortedMembers (this (r.2))) = S (length (m_sortedMembers (this s)))).
Proof.
  intros Hsent Hall. cbv zeta. rewrite AddToGroup_spec by done.
  destruct (IsGroupMember (this s) channel) eqn:Hmember.
  { split; [|done]. split; [done|]. by intros [? _]. }
  destruct (IsInternalGroup (this s)).
  { split; [|done]. split; [done|]. by intros (_ & ? & _). }
  destruct (m_allChannelsGroup (this s) !! StorageId channel) as [r|] eqn:Hr.
  2:{ split; [|done]. split; [done|]. intros (_ & _ & [? ?]). done. }
  cbn [fst snd]. split; [by eauto|]. split; [done|]. intros _.
  match goal with |- context [SortAndRenumber broker ?s1] =>
    destruct (SortAndRenumber_upd broker s1) as (h & l & Hl & _ & _ & ->) end.
  cbn in Hl. unfold IsGroupMember, Size in *. cbn.
  assert (m_members (this s) !! StorageId channel = None) as Hnone.
  { by destruct (m_members (this s) !! _). }
  split; [by rewrite lookup_insert_eq|]. split; [|split].
  - intros c. destruct (decide (StorageId channel = StorageId c)) as [<-|Hne].
    + by rewrite lookup_insert_eq.
    + by rewrite lookup_insert_ne.
  - by rewrite map_size_insert_None.
  - rewrite Hl, length_app. simpl. lia.
Qed.

(** X5: [RemoveFromGroup] returns whether the channel was a member.  If it
    was not, nothing has changed; in any case the channel is no member
    afterwards, and the map and the sequence have shrunk by one exactly
    when [true] is returned. *)
Theorem RemoveFromGroup_removes_exactly_members (channel : CPVRChannel) (s : State) :
  lockstep (st_heap s) (this s) →
  let r := RemoveFromGroup broker channel s in
  r.1 = IsGroupMember (this s) channel
  ∧ (r.1 = false → r.2 = s)
  ∧ IsGroupMember (this (r.2)) channel = false
  ∧ Size (this s) = ((if r.1 then 1 else 0) + Size (this (r.2)))%nat
  ∧ length (m_sortedMembers (this s))
    = ((if r.1 then 1 else 0) + length (m_sortedMembers (this (r.2))))%nat.
Proof.
  intros Hls. cbv zeta. unfold RemoveFromGroup.
  destruct (RemoveFromGroup_loop_spec (st_heap s) channel
              (m_sortedMembers (this s)) (m_members (this s)))
    as [Hloop|(l1 & p & l2 & Hl & Hp & ->)].
  - destruct (IsGroupMember (this s) channel) eqn:Hmember.
    + apply (lockstep_IsGroupMember _ _ _ Hls) in Hmember as (p & Hin & Hp).
      exfalso. apply (f_equal (λ r, r.1.1)) in Hloop. cbn [fst] in Hloop.
      apply RemoveFromGroup_loop_false in Hloop.
      rewrite Forall_forall in Hloop. specialize (Hloop p Hin). congruence.
    + rewrite Hloop. cbn. assert (with_this s (with_members
        (with_sortedMembers (this s) (m_sortedMembers (this s))) (m_members (this s))) = s)
        as -> by by destruct s as [h0 [] t].
      done.
  - cbn [fst snd].
    assert (IsGroupMember (this s) channel = true) as Hmember.
    { apply (lockstep_IsGroupMember _ _ _ Hls). exists p. split; [|done].
      rewrite Hl. apply elem_of_app. right. by left. }
    rewrite Hmember. split; [done|]. split; [done|].
    match goal with |- context [Renumber broker NORMAL ?s1] =>
      destruct (Renumber_upd broker NORMAL s1) as (h & l & Hperm & _ & _ & ->) end.
    cbn in Hperm. unfold IsGroupMember, Size in *. cbn.
    apply bool_decide_eq_true in Hp. rewrite <- Hp.
    rewrite lookup_delete_eq. split; [done|].
    destruct (m_members (this s) !! StorageId channel) as [x|] eqn:E; [|done].
    split.
    + rewrite <- (insert_delete_id (m_members (this s)) _ _ E) at 1.
      rewrite map_size_insert_None by apply lookup_delete_eq. done.
    + rewrite Hperm, Hl, !length_app. simpl. lia.
Qed.

Lemma RemoveFromGroup_upd channel s h l m :
  RemoveFromGroup broker channel (upd s h l m)
  = let '(bReturn, l', m') := RemoveFromGroup_loop h channel l m in
    if bReturn then (true, (Renumber broker NORMAL (upd s h l' m')).2)
    else (false, upd s h l' m').
Proof.
  unfold RemoveFromGroup. cbn.
  destruct (RemoveFromGroup_loop h channel l m) as [[[] l'] m']; by rewrite ?upd_upd.
Qed.

(** X6: A channel [AddToGroup] has added is removed again by
    [RemoveFromGroup], which leaves the map as it was before the two calls
    and the sequence with the members it had. *)
Theorem AddToGroup_then_RemoveFromGroup
    (channel : CPVRChannel) (channelNumber : CPVRChannelNumber) (iOrder : Z)
    (bUseBackendChannelNumbers : bool) (clientChannelNumber : CPVRChannelNumber)
    (s : State) :
  sentinel_empty (st_heap s) →
  keyed (st_heap s) (m_allChannelsGroup (this s)) →
  lockstep (st_heap s) (this s) →
  (AddToGroup broker channel channelNumber iOrder bUseBackendChannelNumbers
     clientChannelNumber s).1 = true →
  let r := RemoveFromGroup broker channel
             (AddToGroup broker channel channelNumber iOrder bUseBackendChannelNumbers
                clientChannelNumber s).2 in
  r.1 = true
  ∧ m_members (this (r.2)) = m_members (this s)
  ∧ m_sortedMembers (this (r.2)) ≡ₚ m_sortedMembers (this s).
Proof.
  intros Hsent Hall Hls Hadded. cbv zeta.
  pose proof (AddToGroup_lockstep broker channel channelNumber iOrder
                bUseBackendChannelNumbers clientChannelNumber s Hsent Hall Hls) as Hls1.
  cbv zeta in Hls1. revert Hadded Hls1. rewrite AddToGroup_spec by done.
  destruct (IsGroupMember (this s) channel) eqn:Hmember; [done|].
  destruct (IsInternalGroup (this s)); [done|].
  destruct (m_allChannelsGroup (this s) !! StorageId channel) as [r|] eqn:Hr; [|done].
  cbn [fst snd]. intros _.
  assert (m_members (this s) !! StorageId channel = None) as Hnone.
  { unfold IsGroupMember in Hmember. by destruct (m_members (this s) !! _). }
  match goal with |- context [SortAndRenumber broker ?s1] =>
    destruct (SortAndRenumber_upd broker s1) as (h & l & Hl & _ & _ & ->) end.
  cbn in Hl. intros Hls1. unfold lockstep in Hls1. cbn in Hls1.
  rewrite RemoveFromGroup_upd.
  cbn [this upd m_members m_sortedMembers with_members with_sortedMembers].
  destruct (RemoveFromGroup_loop_spec h channel l
              (<[StorageId channel := length (st_heap s)]> (m_members (this s))))
    as [Hloop|(l1 & p & l2 & Hl' & Hp & ->)].
  - exfalso.
    assert (length (st_heap s) ∈ l) as Hin.
    { rewrite Hl. apply elem_of_app. right. by left. }
    assert (IsGroupMember (mkGroup 0 0 0 false false false false false false false
              (false, EmptyString) ∅ l
              (<[StorageId channel := length (st_heap s)]> (m_members (this s))) [])
              channel = true) as Hm.
    { unfold IsGroupMember. cbn. by rewrite lookup_insert_eq. }
    apply (lockstep_IsGroupMember h) in Hm as (p & Hp & Heq); [|exact Hls1].
    cbn in Hp. apply (f_equal (λ r, r.1.1)) in Hloop. cbn [fst] in Hloop.
    apply RemoveFromGroup_loop_false in Hloop.
    rewrite Forall_forall in Hloop. specialize (Hloop p Hp). congruence.
  - cbn [fst snd]. split; [done|].
    match goal with |- context [Renumber broker NORMAL ?s1] =>
      destruct (Renumber_upd broker NORMAL s1) as (h' & l' & Hperm & _ & _ & ->) end.
    cbn in Hperm. cbn [this upd m_members m_sortedMembers with_members with_sortedMembers].
    apply bool_decide_eq_true in Hp. rewrite <- Hp.
    rewrite delete_insert_eq, delete_id by done. split; [done|].
    (* the member removed is the one added *)
    assert (p ∈ l) as Hin by (rewrite Hl'; apply elem_of_app; right; by left).
    destruct (lockstep_at_sequence _ _ _ _ Hls1 Hin) as (_ & k & Hk & Hm).
    apply key_of_Some in Hk as (c & Hc & Hk). rewrite Hc in Hp. simpl in Hp.
    rewrite <- Hk, <- Hp, lookup_insert_eq in Hm. injection Hm as Hm.
    rewrite Hperm. apply (Permutation_app_inv_r [p]).
    rewrite <- Hm at 2. rewrite <- Hl, Hl'.
    rewrite <- app_assoc. apply Permutation_app_head. simpl.
    symmetry. apply Permutation_cons_append.
Qed.

End AddingAndRemoving.

(** ** The removal pass of reconciliation *)

(** The key of the channel the member at [p] has. *)
Definition channel_key (h : list Member.t) (p : nat) : Z * Z :=
  StorageId (deref_channel (Member.Channel (deref h p))).

#[global] Instance missing_from_dec h channels p : Decision (missing_from h channels p).
Proof. unfold missing_from. apply _. Defined.

Lemma RemoveDeletedChannels_loop_cons h g channels it rest members removed :
  RemoveDeletedChannels_loop h g channels (it :: rest) members removed
  = let channel := deref_channel (Member.Channel (deref h it)) in
    match m_members channels !! StorageId channel with
    | None =>
        RemoveDeletedChannels_loop h g channels rest
          (delete (StorageId channel) members)
          (if HasValidDataFromClient g (ClientID channel)
           then removed ++ [channel] else removed)
    | Some _ =>
        let '(kept, members, removedChannels) :=
          RemoveDeletedChannels_loop h g channels rest members removed in
        (it :: kept, members, removedChannels)
    end.
Proof. reflexivity. Qed.

Lemma RemoveDeletedChannels_loop_lists h g channels l : ∀ m removed,
  let r := RemoveDeletedChannels_loop h g channels l m removed in
  r.1.1 = filter (λ p, ¬ missing_from h channels p) l
  ∧ r.2 = removed
          ++ ((λ p, deref_channel (Member.Channel (deref h p)))
              <$> filter (λ p, missing_from h channels p
                               ∧ HasValidDataFromClient g
                                   (ClientID (deref_channel (Member.Channel (deref h p))))
                                 = true) l).
Proof.
  induction l as [|p l IH]; intros m removed.
  - cbn. by rewrite app_nil_r.
  - rewrite RemoveDeletedChannels_loop_cons. cbv zeta.
    destruct (m_members channels !! _) as [x|] eqn:E.
    + specialize (IH m removed).
      destruct (RemoveDeletedChannels_loop h g channels l m removed) as [[kept m'] rem'].
      cbn [fst snd] in *. destruct IH as [-> ->].
      rewrite filter_cons_True by (unfold missing_from; congruence).
      rewrite filter_cons_False; [done|]. unfold missing_from. intros [? _]. congruence.
    + cbv zeta.
      match goal with |- context [RemoveDeletedChannels_loop h g channels l ?m1 ?r1] =>
        specialize (IH m1 r1); cbv zeta in IH; destruct IH as [IH1 IH2];
        rewrite IH1, IH2 end.
      rewrite filter_cons_False by (unfold missing_from; tauto). split; [done|].
      destruct (HasValidDataFromClient g _) eqn:Hv.
      * rewrite filter_cons_True by done. rewrite fmap_cons, <- app_assoc. done.
      * rewrite filter_cons_False; [done|]. intros [_ ?]. congruence.
Qed.

(** X7: What [RemoveDeletedChannels] leaves and reports.  The store is not
    touched.  The sequence keeps, in their order, the members whose channel
    the fetched group has.  The map loses the keys of the channels of the
    members dropped, whichever object was filed there.  The channels
    reported are, in the order of the sequence, those of the members
    dropped whose backend delivered valid data; those of a backend that
    failed are dropped without being reported. *)
Theorem RemoveDeletedChannels_drops_what_the_fetch_lacks
    (channels : CPVRChannelGroup) (s : State) :
  let r := RemoveDeletedChannels channels s in
  let h := st_heap s in
  st_heap (r.2) = h
  ∧ st_trace (r.2) = st_trace s
  ∧ m_sortedMembers (this (r.2))
    = filter (λ p, ¬ missing_from h channels p) (m_sortedMembers (this s))
  ∧ (∀ k q, m_members (this (r.2)) !! k = Some q ↔
       m_members (this s) !! k = Some q
       ∧ ¬ ∃ p, p ∈ m_sortedMembers (this s) ∧ missing_from h channels p
                ∧ channel_key h p = k)
  ∧ r.1 = (λ p, deref_channel (Member.Channel (deref h p)))
          <$> filter (λ p, missing_from h channels p
                           ∧ HasValidDataFromClient (this s)
                               (ClientID (deref_channel (Member.Channel (deref h p))))
                             = true)
                     (m_sortedMembers (this s)).
Proof.
  cbv zeta. unfold RemoveDeletedChannels.
  pose proof (RemoveDeletedChannels_loop_lists (st_heap s) (this s) channels
                (m_sortedMembers (this s)) (m_members (this s)) []) as Hlists.
  pose proof (RemoveDeletedChannels_loop_spec (st_heap s) (this s) channels
                (m_sortedMembers (this s)) (m_members (this s)) []) as Hspec.
  cbv zeta in Hlists, Hspec.
  destruct (RemoveDeletedChannels_loop _ _ _ _ _ _) as [[l m] removed].
  cbn [fst snd] in *. destruct Hlists as [Hl Hr]. destruct Hspec as (_ & Hm & _).
  split; [done|]. split; [done|]. split; [by destruct s as [h0 [] t]|].
  split; [|done]. intros k q. rewrite <- Hm. by destruct s as [h0 [] t].
Qed.

(** ** Refreshing the priorities *)

Section Priorities.

Context {sorter : StdSort}.
Variable broker : CServiceBroker.

(** The priority [UpdateClientPriorities] gives the member [m] of the
    group [g]: 0 when the backend order is not in use, the priority of the
    client of its channel when that client is created, and the one it has
    otherwise. *)
Definition refreshed_priority (g : CPVRChannelGroup) (m : Member.t) : Z :=
  if m_bUsingBackendChannelOrder g then
    match GetCreatedClient (Clients broker) (ClientID (deref_channel (Member.Channel m))) with
    | Some iNewPriority => iNewPriority
    | None => Member.ClientPriority m
    end
  else 0.

Lemma UpdateClientPriorities_step_refreshed g p h b :
  UpdateClientPriorities_step broker g p (h, b)
  = (store h p (Member.SetClientPriority (deref h p) (refreshed_priority g (deref h p))),
     b || negb (Member.ClientPriority (deref h p) =? refreshed_priority g (deref h p))).
Proof.
  unfold UpdateClientPriorities_step, refreshed_priority.
  destruct (m_bUsingBackendChannelOrder g); [|done].
  destruct (GetCreatedClient _ _); [done|].
  rewrite Z.eqb_refl, orb_false_r. f_equal.
  unfold Member.SetClientPriority, Member.ClientPriority.
  rewrite bool_decide_true by done. by rewrite store_deref.
Qed.

Lemma SetClientPriority_priority m n :
  Member.ClientPriority (Member.SetClientPriority m n) = n.
Proof.
  unfold Member.SetClientPriority, Member.ClientPriority. by case_bool_decide.
Qed.

Lemma refreshed_priority_SetClientPriority g m :
  refreshed_priority g (Member.SetClientPriority m (refreshed_priority g m))
  = refreshed_priority g m.
Proof.
  unfold refreshed_priority.
  rewrite SetClientPriority_channel, SetClientPriority_priority.
  destruct (m_bUsingBackendChannelOrder g); [|done].
  by destruct (GetCreatedClient _ _).
Qed.

Lemma UpdateClientPriorities_fold g l : ∀ h b,
  Forall (λ q, (q < length h)%nat) l →
  let r := foldl (λ locals member, UpdateClientPriorities_step broker g member locals)
                 (h, b) l in
  length r.1 = length h
  ∧ (∀ q, deref r.1 q
          = if bool_decide (q ∈ l)
            then Member.SetClientPriority (deref h q) (refreshed_priority g (deref h q))
            else deref h q)
  ∧ (r.2 = true ↔
     b = true
     ∨ ∃ q, q ∈ l ∧ Member.ClientPriority (deref h q) ≠ refreshed_priority g (deref h q)).
Proof.
  induction l as [|p l IH]; intros h b Halloc; cbn [foldl].
  - cbn. split; [done|]. split; [done|]. split; [by left|].
    intros [?|(q & Hq & _)]; [done|]. by apply elem_of_nil in Hq.
  - rewrite UpdateClientPriorities_step_refreshed.
    apply Forall_cons in Halloc as [Hp Halloc].
    set (h1 := store h p _). set (b1 := b || _).
    assert (length h1 = length h) as Hlen by apply length_store.
    specialize (IH h1 b1). cbv zeta in IH.
    destruct IH as (IHlen & IHobj & IHb); [by rewrite Hlen|].
    split; [lia|]. split.
    + intros q. rewrite IHobj.
      destruct (decide (q = p)) as [->|Hne].
      * rewrite (bool_decide_true (p ∈ p :: l)) by by left.
        unfold h1. rewrite deref_store_eq by done.
        rewrite refreshed_priority_SetClientPriority.
        case_bool_decide; [|done].
        unfold Member.SetClientPriority at 1.
        rewrite bool_decide_true; [done|]. apply SetClientPriority_priority.
      * unfold h1. rewrite deref_store_ne by done.
        case_bool_decide as Hin.
        -- rewrite bool_decide_true; [done|]. by right.
        -- rewrite bool_decide_false; [done|].
           intros [?|?]%elem_of_cons; done.
    + rewrite IHb. unfold b1. rewrite orb_true_iff, negb_true_iff, Z.eqb_neq.
      split.
      * intros [[?|Hchanged]|(q & Hq & Hchanged)]; [by left| |].
        -- right. exists p. split; [by left|done].
        -- destruct (decide (q = p)) as [->|Hne].
           ++ exfalso. apply Hchanged. unfold h1. rewrite deref_store_eq by done.
              by rewrite refreshed_priority_SetClientPriority, SetClientPriority_priority.
           ++ right. exists q. split; [by right|].
              unfold h1 in Hchanged. by rewrite deref_store_ne in Hchanged.
      * intros [?|(q & [->|Hq]%elem_of_cons & Hchanged)]; [by left; left|by left; right|].
        destruct (decide (q = p)) as [->|Hne]; [by left; right|].
        right. exists q. split; [done|]. unfold h1. by rewrite deref_store_ne.
Qed.

(** X8: [UpdateClientPriorities] leaves every member of the sequence with the
    priority of the client of its channel when the backend order is in
    use and that client is created, with 0 when the backend order is not in
    use, and with the priority it had otherwise.  Nothing but the priority
    (and the dirty flag) of a member of the sequence changes, and [true] is
    returned exactly when the priority of some member did. *)
Theorem UpdateClientPriorities_refreshes_priorities (s : State) :
  Forall (λ q, (q < length (st_heap s))%nat) (m_sortedMembers (this s)) →
  let r := UpdateClientPriorities broker s in
  let h := st_heap s in
  let h' := st_heap (r.2) in
  this (r.2) = this s
  ∧ st_trace (r.2) = st_trace s
  ∧ length h' = length h
  ∧ (∀ q, q ∈ m_sortedMembers (this s) →
          Member.ClientPriority (deref h' q) = refreshed_priority (this s) (deref h q))
  ∧ (∀ q, Member.Channel (deref h' q) = Member.Channel (deref h q)
          ∧ Member.ChannelNumber (deref h' q) = Member.ChannelNumber (deref h q)
          ∧ Member.ClientChannelNumber (deref h' q)
            = Member.ClientChannelNumber (deref h q)
          ∧ Member.Order (deref h' q) = Member.Order (deref h q))
  ∧ (∀ q, q ∉ m_sortedMembers (this s) → deref h' q = deref h q)
  ∧ (r.1 = true ↔
     ∃ q, q ∈ m_sortedMembers (this s)
          ∧ Member.ClientPriority (deref h q) ≠ Member.ClientPriority (deref h' q)).
Proof.
  intros Halloc. cbv zeta. unfold UpdateClientPriorities.
  pose proof (UpdateClientPriorities_fold (this s) (m_sortedMembers (this s))
                (st_heap s) false Halloc) as Hfold.
  cbv zeta in Hfold. destruct (foldl _ _ _) as [h' b].
  cbn [fst snd] in *. destruct Hfold as (Hlen & Hobj & Hb). cbn.
  split; [done|]. split; [done|]. split; [done|]. split; [|split; [|split]].
  - intros q Hq. rewrite Hobj, bool_decide_true by done.
    apply SetClientPriority_priority.
  - intros q. rewrite Hobj. case_bool_decide; [|done].
    unfold Member.SetClientPriority. by case_bool_decide.
  - intros q Hq. by rewrite Hobj, bool_decide_false.
  - rewrite Hb. split.
    + intros [?|(q & Hq & Hchanged)]; [done|]. exists q. split; [done|].
      by rewrite Hobj, bool_decide_true, SetClientPriority_priority.
    + intros (q & Hq & Hchanged). right. exists q. split; [done|].
      by rewrite Hobj, bool_decide_true, SetClientPriority_priority in Hchanged.
Qed.

End Priorities.

(** ** Reading the group *)

Lemma first_match {A} (P : A → bool) (l : list A) :
  Forall (λ x, P x = false) l
  ∨ ∃ l1 x l2, l = l1 ++ x :: l2 ∧ Forall (λ x, P x = false) l1 ∧ P x = true.
Proof.
  induction l as [|y l IH]; [by left|].
  destruct (P y) eqn:E.
  - right. exists [], y, l. by repeat split.
  - destruct IH as [IH|(l1 & x & l2 & -> & Hl1 & Hx)].
    + left. by constructor.
    + right. exists (y :: l1), x, l2. repeat split; [|done]. by constructor.
Qed.

(** X9: [GetMembers] hands out the whole sequence, or the members of it whose
    channel is hidden, or those whose channel is not, in the order of the
    sequence; the two selections share no member and together are the
    sequence. *)
Theorem GetMembers_splits_the_sequence (s : State) :
  GetMembers s ALL = m_sortedMembers (this s)
  ∧ GetMembers s ONLY_HIDDEN `sublist_of` GetMembers s ALL
  ∧ GetMembers s ONLY_VISIBLE `sublist_of` GetMembers s ALL
  ∧ GetMembers s ONLY_HIDDEN ++ GetMembers s ONLY_VISIBLE ≡ₚ GetMembers s ALL
  ∧ (∀ p, p ∈ GetMembers s ONLY_HIDDEN → p ∈ GetMembers s ONLY_VISIBLE → False).
Proof.
  unfold GetMembers. split; [done|]. split; [apply sublist_filter|].
  split; [apply sublist_filter|]. split.
  - induction (m_sortedMembers (this s)) as [|p l IH]; [done|].
    destruct (IsHidden (deref_channel (Member.Channel (deref (st_heap s) p)))) eqn:E.
    + rewrite filter_cons_True by done. rewrite filter_cons_False by congruence.
      cbn. by rewrite IH.
    + rewrite filter_cons_False by congruence. rewrite filter_cons_True by done.
      rewrite <- Permutation_middle. by rewrite IH.
  - intros p [Hh _]%list_elem_of_filter [Hv _]%list_elem_of_filter. congruence.
Qed.

(** The number that is shown for a member: the backend number when the
    group caches that backend numbers are in use, the group number
    otherwise. *)
Definition active_number (s : State) (p : nat) : CPVRChannelNumber :=
  if m_bUsingBackendChannelNumbers (this s)
  then Member.ClientChannelNumber (deref (st_heap s) p)
  else Member.ChannelNumber (deref (st_heap s) p).

Lemma GetByChannelNumber_loop_app h (bU : bool) n l1 p l2 :
  Forall (λ q, number_eqb (if bU then Member.ClientChannelNumber (deref h q)
                           else Member.ChannelNumber (deref h q)) n = false) l1 →
  GetByChannelNumber_loop h bU n (l1 ++ p :: l2)
  = GetByChannelNumber_loop h bU n (p :: l2).
Proof.
  induction 1 as [|q l1 Hq _ IH]; [done|].
  cbn [app GetByChannelNumber_loop]. cbv zeta. by rewrite Hq.
Qed.

(** X10: [GetByChannelNumber] answers with the channel of the first member of
    the sequence that shows the number asked for, and with a null pointer
    when no member shows it. *)
Theorem GetByChannelNumber_finds_first_member (s : State) (n : CPVRChannelNumber) :
  (Forall (λ q, active_number s q ≠ n) (m_sortedMembers (this s))
   ∧ GetByChannelNumber s n = None)
  ∨ ∃ l1 p l2,
      m_sortedMembers (this s) = l1 ++ p :: l2
      ∧ Forall (λ q, active_number s q ≠ n) l1
      ∧ active_number s p = n
      ∧ GetByChannelNumber s n = Member.Channel (deref (st_heap s) p).
Proof.
  unfold GetByChannelNumber.
  destruct (first_match (λ q, number_eqb (active_number s q) n) (m_sortedMembers (this s)))
    as [Hnone|(l1 & p & l2 & Hl & Hl1 & Hp)].
  - left. split.
    + eapply Forall_impl; [exact Hnone|]. cbn. intros q Hq Heq.
      apply number_eqb_eq in Heq. congruence.
    + induction Hnone as [|q l Hq _ IH]; [done|].
      cbn [GetByChannelNumber_loop]. cbv zeta. unfold active_number in Hq.
      by rewrite Hq.
  - right. exists l1, p, l2. split; [done|]. split; [|split].
    + eapply Forall_impl; [exact Hl1|]. cbn. intros q Hq Heq.
      apply number_eqb_eq in Heq. congruence.
    + by apply number_eqb_eq.
    + rewrite Hl, GetByChannelNumber_loop_app by exact Hl1.
      cbn [GetByChannelNumber_loop]. cbv zeta. unfold active_number in Hp.
      by rewrite Hp.
Qed.

(** X11: [GetByUniqueID(iUniqueChannelId, iClientID)] answers with a channel of
    that identity that is a member, and with a null pointer exactly when
    the group has no member of that identity. *)
Theorem GetByUniqueID_finds_members (s : State) (iUniqueChannelId iClientID : Z) :
  sentinel_empty (st_heap s) →
  keyed (st_heap s) (m_members (this s)) →
  match GetByUniqueID_ids s iUniqueChannelId iClientID with
  | Some channel =>
      StorageId channel = (iClientID, iUniqueChannelId)
      ∧ IsGroupMember (this s) channel = true
  | None =>
      ∀ channel, StorageId channel = (iClientID, iUniqueChannelId) →
                 IsGroupMember (this s) channel = false
  end.
Proof.
  intros Hsent Hkeyed. unfold GetByUniqueID_ids, IsGroupMember.
  pose proof (GetByUniqueID_keyed _ _ (iClientID, iUniqueChannelId) Hsent Hkeyed) as Hget.
  destruct (m_members (this s) !! (iClientID, iUniqueChannelId)) as [p|] eqn:E.
  - destruct Hget as (-> & _ & (c & Hc & Hk)%key_of_Some). rewrite Hc.
    split; [done|]. by rewrite Hk, E.
  - rewrite Hget. intros channel ->. by rewrite E.
Qed.

(** X12: [IsGroupMember(iChannelId)] and [GetByChannelID(iChannelId)] agree:
    the one answers [true] exactly when the other answers with a channel,
    and that channel has the id asked for and is a member. *)
Theorem GetByChannelID_agrees_with_IsGroupMember (s : State) (iChannelId : Z) :
  keyed (st_heap s) (m_members (this s)) →
  (IsGroupMember_id s iChannelId = true ↔ is_Some (GetByChannelID s iChannelId))
  ∧ (∀ channel, GetByChannelID s iChannelId = Some channel →
       ChannelID channel = iChannelId ∧ IsGroupMember (this s) channel = true).
Proof.
  intros Hkeyed. unfold IsGroupMember_id, GetByChannelID.
  assert (∀ kp, kp ∈ in_key_order (m_members (this s)) →
            ∃ c, Member.Channel (deref (st_heap s) kp.2) = Some c
                 ∧ StorageId c = kp.1
                 ∧ m_members (this s) !! kp.1 = Some kp.2) as Hpairs.
  { intros [k p] Hkp%elem_of_in_key_order.
    destruct (Hkeyed k p Hkp) as [_ (c & Hc & Hk)%key_of_Some]. eauto. }
  split.
  - rewrite existsb_exists. split.
    + intros ([k p] & Hin & Heq).
      destruct (find _ _) as [[k' p']|] eqn:Hfind.
      * apply find_some in Hfind as [Hin' _].
        apply list_elem_of_In in Hin'.
        destruct (Hpairs _ Hin') as (c & Hc & _). cbn [snd] in Hc |- *. rewrite Hc. by eexists.
      * exfalso. eapply find_none in Hfind; [|exact Hin]. cbn [fst snd] in *.
        apply Z.eqb_eq in Heq. apply Z.eqb_neq in Hfind. congruence.
    + destruct (find _ _) as [[k' p']|] eqn:Hfind; [intros _|by intros [? ?]].
      apply find_some in Hfind as [Hin' Heq]. exists (k', p'). split; [done|].
      cbn [fst snd] in *. apply Z.eqb_eq in Heq. by apply Z.eqb_eq.
  - intros channel. destruct (find _ _) as [[k' p']|] eqn:Hfind; [|done].
    apply find_some in Hfind as [Hin' Heq]. apply list_elem_of_In in Hin'.
    destruct (Hpairs _ Hin') as (c & Hc & Hk & Hm). cbn [fst snd] in *.
    rewrite Hc in *. intros [= <-]. cbn [fst snd] in Heq. apply Z.eqb_eq in Heq.
    split; [done|]. unfold IsGroupMember. by rewrite Hk, Hm.
Qed.

(** ** The order in which the map is walked *)

Lemma find_app_first {A} (P : A → bool) (l1 l2 : list A) (x : A) :
  Forall (λ y, P y = false) l1 → P x = true →
  List.find P (l1 ++ x :: l2) = Some x.
Proof.
  induction 1 as [|y l1 Hy _ IH]; intros Hx; cbn [app List.find].
  - by rewrite Hx.
  - rewrite Hy. by apply IH.
Qed.

(** Of the members whose channel has the id asked for, [GetByChannelID]
    answers with the one whose key comes first: the map is walked in the
    order of its keys. *)
Lemma GetByChannelID_first_in_key_order (s : State) (iChannelID : Z) k p :
  m_members (this s) !! k = Some p →
  ChannelID (deref_channel (Member.Channel (deref (st_heap s) p))) = iChannelID →
  ∃ k' p',
    m_members (this s) !! k' = Some p'
    ∧ key_le (k', p') (k, p)
    ∧ ChannelID (deref_channel (Member.Channel (deref (st_heap s) p'))) = iChannelID
    ∧ GetByChannelID s iChannelID = Member.Channel (deref (st_heap s) p').
Proof.
  intros Hk Hid. unfold GetByChannelID.
  set (P := λ memberPair : Z * Z * ptr,
              ChannelID (deref_channel (Member.Channel (deref (st_heap s) memberPair.2)))
              =? iChannelID).
  apply elem_of_in_key_order in Hk.
  destruct (in_key_order_sorted (m_members (this s))) as [Hsorted _].
  destruct (first_match P (in_key_order (m_members (this s))))
    as [Hnone|(l1 & [k' p'] & l2 & Hl & Hl1 & Hx)].
  - rewrite Forall_forall in Hnone. specialize (Hnone _ Hk).
    unfold P in Hnone. cbn [snd] in Hnone. apply Z.eqb_neq in Hnone. done.
  - rewrite Hl in Hk, Hsorted |- *. rewrite (find_app_first P l1 l2 _ Hl1 Hx).
    exists k', p'. split.
    { apply elem_of_in_key_order. rewrite Hl. apply elem_of_app. right. by left. }
    split; [|split; [by apply Z.eqb_eq in Hx|done]].
    apply elem_of_app in Hk as [Hk|Hk].
    + rewrite Forall_forall in Hl1. specialize (Hl1 _ Hk).
      unfold P in Hl1. cbn [snd] in Hl1. apply Z.eqb_neq in Hl1. done.
    + apply StronglySorted_app_1_r in Hsorted.
      apply elem_of_cons in Hk as [[= -> ->]|Hk].
      * unfold key_le. right. split; [done|lia].
      * apply StronglySorted_cons in Hsorted as [Hall _].
        rewrite Forall_forall in Hall. by apply Hall.
Qed.

(** [AddAndUpdateChannels] adds what the fetched group has in the order of
    the keys of its map: with A and B fetched and neither a member yet,
    the member for A is made first and the one for B next. *)
Lemma AddAndUpdateChannels_walks_in_key_order :
  let fetched :=
    with_members Example.fetched
      (<[(1, 101) := 5%nat]> (<[(1, 100) := 6%nat]> ∅)) in
  let s := mkState Example.members
             (with_bPreventSortAndRenumber
                (new_group (false, "Favourites") 5 Example.allChannels) true) [] in
  let s' := (AddAndUpdateChannels (sorter := stable_sorter)
               Example.broker_without_database fetched true s).2 in
  in_key_order (m_members fetched) = [((1, 100), 6%nat); ((1, 101), 5%nat)]
  ∧ m_sortedMembers (this s') = [7%nat; 8%nat]
  ∧ Member.Channel (deref (st_heap s') 7%nat) = Some Example.chA
  ∧ Member.Channel (deref (st_heap s') 8%nat) = Some Example.chB.
Proof. cbv zeta. repeat split; by vm_compute. Qed.

(** ** Setting the number of one channel *)

Lemma SetChannelNumber_loop_app h channel n l1 p l2 :
  Forall (λ q, channel_eqb (deref_channel (Member.Channel (deref h q))) channel = false) l1 →
  SetChannelNumber_loop h channel n (l1 ++ p :: l2)
  = SetChannelNumber_loop h channel n (p :: l2).
Proof.
  induction 1 as [|q l1 Hq _ IH]; [done|].
  cbn [app SetChannelNumber_loop]. by rewrite Hq.
Qed.

Lemma SetChannelNumber_loop_absent h channel n l :
  Forall (λ q, channel_eqb (deref_channel (Member.Channel (deref h q))) channel = false) l →
  SetChannelNumber_loop h channel n l = (false, h).
Proof.
  induction 1 as [|q l1 Hq _ IH]; [done|].
  cbn [SetChannelNumber_loop]. by rewrite Hq.
Qed.

(** X13: [SetChannelNumber(channel, channelNumber)] looks for the first
    member of the sequence that has the channel.  When there is one, that
    member has the number afterwards, no other object is written, and
    [true] is returned exactly when the member had another number; when
    there is none, nothing changes and [false] is returned.  So it writes
    to at most one member; when it returns [false] nothing has changed,
    and calling it again changes nothing. *)
Theorem SetChannelNumber_sets_first_member
    (channel : CPVRChannel) (channelNumber : CPVRChannelNumber) (s : State) :
  Forall (λ q, (q < length (st_heap s))%nat) (m_sortedMembers (this s)) →
  let r := SetChannelNumber channel channelNumber s in
  let h := st_heap s in
  let h' := st_heap (r.2) in
  let has_channel q :=
    channel_eqb (deref_channel (Member.Channel (deref h q))) channel in
  this (r.2) = this s
  ∧ st_trace (r.2) = st_trace s
  ∧ (∀ l1 p l2,
       m_sortedMembers (this s) = l1 ++ p :: l2 →
       Forall (λ q, has_channel q = false) l1 →
       has_channel p = true →
       (r.1 = true ↔ Member.ChannelNumber (deref h p) ≠ channelNumber)
       ∧ deref h' p = Member.SetChannelNumber (deref h p) channelNumber
       ∧ Member.ChannelNumber (deref h' p) = channelNumber
       ∧ ∀ q, q ≠ p → deref h' q = deref h q)
  ∧ (Forall (λ q, has_channel q = false) (m_sortedMembers (this s)) → r = (false, s))
  ∧ (r.1 = false → r.2 = s)
  ∧ (r.1 = true →
     ∃ l1 p l2,
       m_sortedMembers (this s) = l1 ++ p :: l2
       ∧ Forall (λ q, has_channel q = false) l1
       ∧ has_channel p = true
       ∧ Member.ChannelNumber (deref h p) ≠ channelNumber
       ∧ Member.ChannelNumber (deref h' p) = channelNumber
       ∧ ∀ q, q ≠ p → deref h' q = deref h q)
  ∧ SetChannelNumber channel channelNumber (r.2) = (false, r.2).
Proof.
  intros Halloc. cbv zeta.
  match goal with |- ?o1 ∧ ?o2 ∧ ?a ∧ ?b ∧ ?rest =>
    assert a as HA; [|assert b as HB; [|cut (o1 ∧ o2 ∧ rest)]] end.
  - intros l1 p l2 Hl Hl1 Hp. unfold SetChannelNumber.
    rewrite Hl, SetChannelNumber_loop_app by exact Hl1.
    cbn [SetChannelNumber_loop]. rewrite Hp.
    assert ((p < length (st_heap s))%nat) as Hpa.
    { rewrite Forall_forall in Halloc. apply Halloc. rewrite Hl.
      apply elem_of_app. right. by left. }
    assert (number_neb (Member.ChannelNumber (deref (st_heap s) p)) channelNumber = true
            ↔ Member.ChannelNumber (deref (st_heap s) p) ≠ channelNumber) as Hneb.
    { unfold number_neb. rewrite negb_true_iff, <- not_true_iff_false.
      by rewrite number_eqb_eq. }
    destruct (number_neb _ _) eqn:Hn; cbn [fst snd with_heap st_heap].
    + split; [done|]. rewrite deref_store_eq by done.
      split; [done|]. split; [apply SetChannelNumber_number|].
      intros q Hne. by rewrite deref_store_ne.
    + assert (Member.ChannelNumber (deref (st_heap s) p) = channelNumber) as Heq.
      { destruct (decide (Member.ChannelNumber (deref (st_heap s) p) = channelNumber))
          as [?|Hne]; [done|]. by apply Hneb in Hne. }
      split; [split; [done|by intros ?]|].
      split; [|done]. unfold Member.SetChannelNumber.
      unfold Member.ChannelNumber in Hn. by rewrite Hn.
  - intros Hnone. unfold SetChannelNumber.
    rewrite SetChannelNumber_loop_absent by exact Hnone. by rewrite with_heap_same.
  - intros (H1 & H2 & H3). by repeat (split; [assumption|]).
  - clear HA HB. unfold SetChannelNumber.
    destruct (first_match
                (λ q, channel_eqb (deref_channel (Member.Channel (deref (st_heap s) q))) channel)
                (m_sortedMembers (this s)))
      as [Hnone|(l1 & p & l2 & Hl & Hl1 & Hp)].
    + rewrite SetChannelNumber_loop_absent by exact Hnone. cbn [fst snd].
      rewrite !with_heap_same.
      rewrite SetChannelNumber_loop_absent by exact Hnone.
      rewrite with_heap_same. by repeat split.
    + rewrite Hl, SetChannelNumber_loop_app by exact Hl1.
      cbn [SetChannelNumber_loop]. rewrite Hp.
      destruct (number_neb _ _) eqn:Hn.
      * cbn [fst snd with_heap st_heap this st_trace].
        set (h' := store (st_heap s) p _).
        assert ((p < length (st_heap s))%nat) as Hpa.
        { rewrite Forall_forall in Halloc. apply Halloc. rewrite Hl.
          apply elem_of_app. right. by left. }
        assert (Member.ChannelNumber (deref h' p) = channelNumber) as Hnew.
        { unfold h'. rewrite deref_store_eq by done. apply SetChannelNumber_number. }
        assert (∀ q, Member.Channel (deref h' q) = Member.Channel (deref (st_heap s) q))
          as Hch.
        { intros q. unfold h'. apply store_channel, SetChannelNumber_channel. }
        split; [done|]. split; [done|]. split; [done|]. split.
        -- intros _. exists l1, p, l2. split; [done|]. split; [done|]. split; [done|].
          split; [|split; [done|]].
          ++ intros Heq. unfold number_neb in Hn. apply negb_true_iff in Hn.
             apply (not_true_iff_false _) in Hn. apply Hn. by apply number_eqb_eq.
          ++ intros q Hne. unfold h'. by rewrite deref_store_ne.
        -- rewrite Hl, SetChannelNumber_loop_app.
          ++ cbn [SetChannelNumber_loop]. rewrite Hch, Hp, Hnew.
             unfold number_neb. rewrite (proj2 (number_eqb_eq _ _)) by done.
             cbn. done.
          ++ eapply Forall_impl; [exact Hl1|]. cbn. intros q Hq. by rewrite Hch.
      * cbn [fst snd]. rewrite !with_heap_same.
        split; [done|]. split; [done|]. split; [done|]. split; [done|].
        rewrite Hl, SetChannelNumber_loop_app by exact Hl1.
        cbn [SetChannelNumber_loop]. by rewrite Hp, Hn, with_heap_same.
Qed.

(** ** The numbers Renumber hands out *)

Lemma assign_order m cn ccn : Member.Order (assign m cn ccn) = Member.Order m.
Proof.
  unfold assign, Member.SetClientChannelNumber, Member.SetChannelNumber.
  by repeat destruct (number_neb _ _).
Qed.

Lemma numbered_lookup h l : ∀ i j q,
  numbered h l i → 0 ≤ i → i + Z.of_nat (length l) < UINT_MOD →
  l !! j = Some q →
  Member.ChannelNumber (deref h q) = mkChannelNumber (i + Z.of_nat j + 1) 0.
Proof.
  induction l as [|p l IH]; intros i j q Hn Hi Hfit Hj; [done|].
  cbn [numbered length] in *. destruct Hn as [Hp Hn].
  assert (uint32 (i + 1) = i + 1) as Hu by (apply uint32_small; lia).
  destruct j as [|j]; cbn in Hj.
  - injection Hj as <-. rewrite Hp. unfold ChannelNumber. rewrite Hu.
    rewrite uint32_small by lia. f_equal. lia.
  - rewrite Hu in Hn. rewrite (IH (i + 1) j q Hn) by (done || lia). f_equal. lia.
Qed.

(** The members of the state [s] are numbered densely: the visible ones
    have the numbers 1, 2, ... in the order of the sequence, the hidden
    ones the number (0, 0). *)
Definition densely_numbered (s : State) : Prop :=
  (∀ j q, GetMembers s ONLY_VISIBLE !! j = Some q →
          Member.ChannelNumber (deref (st_heap s) q)
          = mkChannelNumber (Z.of_nat j + 1) 0)
  ∧ (∀ q, q ∈ GetMembers s ONLY_HIDDEN →
          Member.ChannelNumber (deref (st_heap s) q) = mkChannelNumber 0 0).

(** The backend number [Renumber] settles on for the member at [q]: its
    own when that is valid, the one its channel has in the all channels
    group otherwise. *)
Definition resolved_backend_number (g : CPVRChannelGroup) (h : list Member.t) (q : nat)
    : CPVRChannelNumber :=
  if IsValid (Member.ClientChannelNumber (deref h q))
  then Member.ClientChannelNumber (deref h q)
  else group_GetClientChannelNumber h (m_allChannelsGroup g) (Member.Channel (deref h q)).

Section Numbers.

Context {sorter : StdSort}.
Variable broker : CServiceBroker.

(** What a run of [Renumber(mode)] that is not prevented leaves. *)
Lemma Renumber_run mode s :
  renumber_ready (st_heap s) (this s) →
  PreventSortAndRenumber (this s) = false →
  let bU := UsingBackendChannelNumbers broker (GetSettings broker) in
  let bS := SETTING_PVRMANAGER_STARTGROUPCHANNELNUMBERSFROMONE (GetSettings broker)
            && negb bU in
  ∃ h1 l1,
    (Renumber broker mode s).2 = upd s h1 l1 (m_members (this s))
    ∧ l1 ≡ₚ m_sortedMembers (this s)
    ∧ StronglySorted
        (not_after (if m_bUsingBackendChannelOrder (this s)
                    then sortByClientChannelNumber h1 else sortByChannelNumber h1)) l1
    ∧ assigned bU bS mode (this s) h1 (m_sortedMembers (this s)) 0
    ∧ length h1 = length (st_heap s)
    ∧ (∀ p, p ∉ m_sortedMembers (this s) → deref h1 p = deref (st_heap s) p)
    ∧ (∀ q, q ∈ m_sortedMembers (this s) →
         ∃ cn, deref h1 q
               = assign (deref (st_heap s) q) cn
                   (resolved_backend_number (this s) (st_heap s) q)).
Proof.
  intros Hready Hprevent bU bS.
  rewrite Renumber_unprevented by done. cbv zeta. fold bU bS. cbn [snd].
  pose proof (renumber_ready_loop_ready _ _ Hready) as Hloop.
  pose proof (Renumber_loop_establishes bU bS mode (this s) (m_sortedMembers (this s))
                (st_heap s) 0 false Hloop) as Hassigned.
  destruct (Renumber_loop_members bU bS mode (this s) (m_sortedMembers (this s))
              (st_heap s) 0 false Hloop) as (Hlen & Hframe & Hmembers).
  set (h1 := (Renumber_loop bU bS mode (this s) (m_sortedMembers (this s))
                (st_heap s, 0, false)).1.1) in *.
  rewrite Sort_unprevented by done.
  set (l1 := std_sort _ _).
  exists h1, l1. split; [by destruct s as [h0 [] t]|].
  split; [apply std_sort_permutation, active_comparison_swo|].
  split; [apply (std_sort_sorted (active_comparison (with_heap s h1))),
            active_comparison_swo|].
  split; [done|]. split; [done|]. split; [done|]. exact Hmembers.
Qed.

Lemma Sort_ready s :
  renumber_ready (st_heap s) (this s) →
  ∃ l, l ≡ₚ m_sortedMembers (this s)
       ∧ Sort s = upd s (st_heap s) l (m_members (this s))
       ∧ renumber_ready (st_heap s) (this (upd s (st_heap s) l (m_members (this s)))).
Proof.
  intros Hready. destruct (Sort_upd s) as (l & Hl & Hsort).
  exists l. split; [done|]. split; [done|].
  exact (renumber_ready_permutation _ _ _ Hl Hready).
Qed.

(** Backend numbers *)

Lemma Renumber_backend_numbers mode s :
  renumber_ready (st_heap s) (this s) →
  PreventSortAndRenumber (this s) = false →
  let h := st_heap s in
  let h' := st_heap (Renumber broker mode s).2 in
  (∀ q, q ∈ m_sortedMembers (this s) →
        Member.ClientChannelNumber (deref h' q) = resolved_backend_number (this s) h q
        ∧ Member.Channel (deref h' q) = Member.Channel (deref h q)
        ∧ Member.ClientPriority (deref h' q) = Member.ClientPriority (deref h q)
        ∧ Member.Order (deref h' q) = Member.Order (deref h q))
  ∧ (∀ p, p ∉ m_sortedMembers (this s) → deref h' p = deref h p).
Proof.
  intros Hready Hprevent. cbv zeta.
  destruct (Renumber_run mode s Hready Hprevent)
    as (h1 & l1 & -> & _ & _ & _ & _ & Hframe & Hmembers).
  cbn [st_heap upd]. split; [|exact Hframe].
  intros q Hq. destruct (Hmembers q Hq) as (cn & ->).
  by rewrite assign_client, assign_channel, assign_priority, assign_order.
Qed.

(** X14: [Renumber(mode)] and [SortAndRenumber()], run on a group that is ready
    and not flagged to prevent it, leave every member with a backend
    number: the one it had when that was valid, the one its channel has in
    the all channels group otherwise.  A valid backend number is never
    overwritten; channel, priority and order of a member stay; no object
    outside the sequence is written. *)
Theorem Renumber_resolves_backend_numbers (mode : RenumberMode) (s : State) :
  renumber_ready (st_heap s) (this s) →
  PreventSortAndRenumber (this s) = false →
  let h := st_heap s in
  ∀ h', h' = st_heap (Renumber broker mode s).2
        ∨ h' = st_heap (SortAndRenumber broker s).2 →
  (∀ q, q ∈ m_sortedMembers (this s) →
        Member.ClientChannelNumber (deref h' q) = resolved_backend_number (this s) h q
        ∧ (IsValid (Member.ClientChannelNumber (deref h q)) = true →
           Member.ClientChannelNumber (deref h' q) = Member.ClientChannelNumber (deref h q))
        ∧ Member.Channel (deref h' q) = Member.Channel (deref h q)
        ∧ Member.ClientPriority (deref h' q) = Member.ClientPriority (deref h q)
        ∧ Member.Order (deref h' q) = Member.Order (deref h q))
  ∧ (∀ p, p ∉ m_sortedMembers (this s) → deref h' p = deref h p).
Proof.
  intros Hready Hprevent h h' Hh'.
  assert ((∀ q, q ∈ m_sortedMembers (this s) →
        Member.ClientChannelNumber (deref h' q) = resolved_backend_number (this s) h q
        ∧ Member.Channel (deref h' q) = Member.Channel (deref h q)
        ∧ Member.ClientPriority (deref h' q) = Member.ClientPriority (deref h q)
        ∧ Member.Order (deref h' q) = Member.Order (deref h q))
      ∧ (∀ p, p ∉ m_sortedMembers (this s) → deref h' p = deref h p)) as [Hm Hf].
  { destruct Hh' as [->| ->].
    - by apply Renumber_backend_numbers.
    - unfold SortAndRenumber. rewrite Hprevent.
      destruct (Sort_ready s Hready) as (l & Hl & -> & Hready').
      pose proof (Renumber_backend_numbers NORMAL _ Hready' Hprevent) as [Hm Hf].
      cbv zeta in Hm, Hf. cbn [st_heap this upd m_sortedMembers with_members
        with_sortedMembers] in Hm, Hf.
      split.
      + intros q Hq. apply Hm. by rewrite Hl.
      + intros p Hp. apply Hf. by rewrite Hl. }
  split; [|exact Hf]. intros q Hq. destruct (Hm q Hq) as (Hccn & Hrest).
  split; [done|]. split; [|done]. intros Hvalid. rewrite Hccn.
  unfold resolved_backend_number. fold h. by rewrite Hvalid.
Qed.

(** Numbers by counting *)

Lemma Renumber_dense mode s :
  renumber_ready (st_heap s) (this s) →
  PreventSortAndRenumber (this s) = false →
  m_bUsingBackendChannelOrder (this s) = false →
  counting (UsingBackendChannelNumbers broker (GetSettings broker))
    (SETTING_PVRMANAGER_STARTGROUPCHANNELNUMBERSFROMONE (GetSettings broker)
     && negb (UsingBackendChannelNumbers broker (GetSettings broker)))
    mode (this s) = true →
  Z.of_nat (length (m_sortedMembers (this s))) < UINT_MOD →
  densely_numbered (Renumber broker mode s).2.
Proof.
  intros Hready Hprevent Horder Hcounting Hfit.
  destruct (Renumber_run mode s Hready Hprevent)
    as (h1 & l1 & -> & Hl1 & Hsorted & Hassigned & Hlen & Hframe & Hmembers).
  cbv zeta in Hassigned. rewrite Horder in Hsorted.
  set (bU := UsingBackendChannelNumbers broker (GetSettings broker)) in *.
  set (bS := SETTING_PVRMANAGER_STARTGROUPCHANNELNUMBERSFROMONE (GetSettings broker)
             && negb bU) in *.
  pose proof Hassigned as [Hsettled Hnumbered]%assigned_split.
  assert (filter (λ q, counts bU bS mode (this s) h1 q = true) l1
          = filter (λ q, counts bU bS mode (this s) h1 q = true)
              (m_sortedMembers (this s))) as Hfilter.
  { by apply (counted_members_keep_order _ h1). }
  assert (∀ l : list nat, filter (λ q, counts bU bS mode (this s) h1 q = true) l
               = filter (λ q, IsHidden (deref_channel (Member.Channel (deref h1 q)))
                              = false) l) as Hvisible.
  { intros l. apply list_filter_iff. intros q. unfold counts. rewrite Hcounting.
    cbn. by rewrite negb_true_iff. }
  unfold densely_numbered, GetMembers. cbn. split.
  - intros j q Hj. rewrite <- Hvisible, Hfilter in Hj.
    rewrite (numbered_lookup h1 _ 0 j q Hnumbered); [f_equal; lia|done| |done].
    assert (Z.of_nat (length (filter (λ q, counts bU bS mode (this s) h1 q = true)
                                (m_sortedMembers (this s))))
            ≤ Z.of_nat (length (m_sortedMembers (this s)))) as Hle.
    { apply inj_le, sublist_length, sublist_filter. }
    lia.
  - intros q [Hhidden Hq]%list_elem_of_filter. rewrite Hl1 in Hq.
    rewrite Forall_forall in Hsettled. destruct (Hsettled q Hq) as [_ Hcn].
    assert (bU = false) as HbU.
    { unfold counting in Hcounting. by destruct bU. }
    rewrite Hcn by (unfold counts; rewrite Hhidden; apply andb_false_r).
    unfold Renumber_values. cbv zeta. cbn [fst snd]. by rewrite HbU, Hhidden.
Qed.

(** X15: When group numbers are handed out by counting and the group is kept
    in the order of its group numbers, [SortAndRenumber()] leaves the
    members numbered densely: the visible members have 1, 2, ... in the
    order of the sequence it leaves, the hidden ones (0, 0). *)
Theorem SortAndRenumber_numbers_densely (s : State) :
  renumber_ready (st_heap s) (this s) →
  PreventSortAndRenumber (this s) = false →
  m_bUsingBackendChannelOrder (this s) = false →
  numbers_by_count broker (this s) = true →
  Z.of_nat (length (m_sortedMembers (this s))) < UINT_MOD →
  densely_numbered (SortAndRenumber broker s).2.
Proof.
  intros Hready Hprevent Horder Hcount Hfit.
  unfold SortAndRenumber. rewrite Hprevent.
  destruct (Sort_ready s Hready) as (l & Hl & -> & Hready').
  apply Renumber_dense; [done|done|done| |by cbn; rewrite Hl].
  revert Hcount. unfold numbers_by_count, counting.
  change (IsInternalGroup (this (upd s (st_heap s) l (m_members (this s)))))
    with (IsInternalGroup (this s)).
  destruct (UsingBackendChannelNumbers broker (GetSettings broker)),
    (IsInternalGroup (this s)),
    (SETTING_PVRMANAGER_STARTGROUPCHANNELNUMBERSFROMONE (GetSettings broker)); done.
Qed.

(** Numbers taken from the all channels group *)

Lemma Renumber_inherits mode s :
  renumber_ready (st_heap s) (this s) →
  PreventSortAndRenumber (this s) = false →
  UsingBackendChannelNumbers broker (GetSettings broker) = false →
  IsInternalGroup (this s) = false →
  mode = IGNORE_NUMBERING_FROM_ONE
  ∨ SETTING_PVRMANAGER_STARTGROUPCHANNELNUMBERSFROMONE (GetSettings broker) = false →
  ∀ q, q ∈ m_sortedMembers (this s) →
    Member.ChannelNumber (deref (st_heap (Renumber broker mode s).2) q)
    = if IsHidden (deref_channel (Member.Channel (deref (st_heap s) q)))
      then mkChannelNumber 0 0
      else group_GetChannelNumber (st_heap s) (m_allChannelsGroup (this s))
             (Member.Channel (deref (st_heap s) q)).
Proof.
  intros Hready Hprevent HbU Hinternal Hmode q Hq.
  pose proof (renumber_ready_loop_ready _ _ Hready) as [_ Hloop].
  rewrite Forall_forall in Hloop. destruct (Hloop q Hq) as (_ & _ & Hall).
  destruct (Renumber_run mode s Hready Hprevent)
    as (h1 & l1 & -> & Hl1 & _ & Hassigned & Hlen & Hframe & Hmembers).
  cbv zeta in Hassigned. rewrite HbU in Hassigned. cbn [st_heap upd].
  apply assigned_split in Hassigned as [Hsettled _].
  rewrite Forall_forall in Hsettled. destruct (Hsettled q Hq) as [_ Hcn].
  rewrite Hcn.
  - unfold Renumber_values. cbv zeta. cbn [fst snd]. rewrite Hinternal.
    assert (Member.Channel (deref h1 q) = Member.Channel (deref (st_heap s) q)) as Hch.
    { destruct (Hmembers q Hq) as (cn & ->). apply assign_channel. }
    rewrite !Hch.
    destruct (IsHidden _); [done|].
    assert ((SETTING_PVRMANAGER_STARTGROUPCHANNELNUMBERSFROMONE (GetSettings broker)
             && negb false) && negb (bool_decide (mode = IGNORE_NUMBERING_FROM_ONE))
            = false) as ->.
    { destruct Hmode as [->| ->]; [apply andb_false_r|done]. }
    unfold group_GetChannelNumber. unfold all_member_of in Hall.
    by rewrite Hframe.
  - unfold counts, counting. rewrite Hinternal.
    destruct Hmode as [->| ->]; cbn; [|done].
    by rewrite andb_false_r.
Qed.

(** X16: When neither backend numbers nor counting apply - the group is not
    the internal one, and numbering from one is off or is ignored by the
    mode - [Renumber(mode)] leaves every visible member with the number
    its channel has in the all channels group, and every hidden member
    with (0, 0); so does [SortAndRenumber()] when numbering from one is
    off. *)
Theorem Renumber_takes_numbers_from_all_channels_group
    (mode : RenumberMode) (s : State) :
  renumber_ready (st_heap s) (this s) →
  PreventSortAndRenumber (this s) = false →
  UsingBackendChannelNumbers broker (GetSettings broker) = false →
  IsInternalGroup (this s) = false →
  ∀ h', (h' = st_heap (Renumber broker mode s).2
         ∧ (mode = IGNORE_NUMBERING_FROM_ONE
            ∨ SETTING_PVRMANAGER_STARTGROUPCHANNELNUMBERSFROMONE (GetSettings broker)
              = false))
        ∨ (h' = st_heap (SortAndRenumber broker s).2
           ∧ SETTING_PVRMANAGER_STARTGROUPCHANNELNUMBERSFROMONE (GetSettings broker)
             = false) →
  ∀ q, q ∈ m_sortedMembers (this s) →
    Member.ChannelNumber (deref h' q)
    = if IsHidden (deref_channel (Member.Channel (deref (st_heap s) q)))
      then mkChannelNumber 0 0
      else group_GetChannelNumber (st_heap s) (m_allChannelsGroup (this s))
             (Member.Channel (deref (st_heap s) q)).
Proof.
  intros Hready Hprevent HbU Hinternal h' [[-> Hmode]|[-> Hfrom]] q Hq.
  - by apply Renumber_inherits.
  - unfold SortAndRenumber. rewrite Hprevent.
    destruct (Sort_ready s Hready) as (l & Hl & -> & Hready').
    rewrite (Renumber_inherits NORMAL _ Hready' Hprevent HbU Hinternal); [done|auto|].
    cbn. by rewrite Hl.
Qed.

(** Asking for a number after renumbering *)

Lemma dense_lookup s :
  densely_numbered s →
  NoDup (m_sortedMembers (this s)) →
  m_bUsingBackendChannelNumbers (this s) = false →
  ∀ j q, GetMembers s ONLY_VISIBLE !! j = Some q →
    GetByChannelNumber s (mkChannelNumber (Z.of_nat j + 1) 0)
    = Member.Channel (deref (st_heap s) q).
Proof.
  intros [Hvisible Hhidden] Hnodup Hcached j q Hj.
  pose proof (list_elem_of_lookup_2 _ _ _ Hj) as Hq.
  unfold GetMembers in Hq. apply list_elem_of_filter in Hq as [Hqvisible Hq].
  apply list_elem_of_split in Hq as (l1 & l2 & Hsplit).
  unfold GetByChannelNumber. rewrite Hcached, Hsplit.
  rewrite GetByChannelNumber_loop_app.
  - cbn [GetByChannelNumber_loop]. cbv zeta. rewrite (Hvisible j q Hj).
    unfold number_eqb. by rewrite bool_decide_true.
  - rewrite Hsplit in Hnodup. apply NoDup_app in Hnodup as (_ & Hdisjoint & _).
    apply Forall_forall. intros x Hx.
    unfold number_eqb. apply bool_decide_eq_false. intros Heq.
    assert (x ∈ m_sortedMembers (this s)) as Hxl.
    { rewrite Hsplit. apply elem_of_app. by left. }
    destruct (IsHidden (deref_channel (Member.Channel (deref (st_heap s) x)))) eqn:Hx'.
    + rewrite Hhidden in Heq.
      * injection Heq as Heq. lia.
      * unfold GetMembers. by apply list_elem_of_filter.
    + assert (x ∈ GetMembers s ONLY_VISIBLE) as Hxv.
      { unfold GetMembers. by apply list_elem_of_filter. }
      apply list_elem_of_lookup in Hxv as [j' Hj'].
      rewrite (Hvisible j' x Hj') in Heq. injection Heq as Heq.
      assert (j' = j) as -> by lia.
      assert (x = q) as -> by congruence.
      apply (Hdisjoint q Hx). by left.
Qed.

(** X17: After [SortAndRenumber()] has numbered a group by counting, asking
    [GetByChannelNumber] for the number j + 1 gives the channel of the
    j-th visible member [GetMembers] hands out, as long as the group
    caches that backend numbers are not in use. *)
Theorem GetByChannelNumber_after_SortAndRenumber (s : State) :
  renumber_ready (st_heap s) (this s) →
  PreventSortAndRenumber (this s) = false →
  m_bUsingBackendChannelOrder (this s) = false →
  m_bUsingBackendChannelNumbers (this s) = false →
  numbers_by_count broker (this s) = true →
  Z.of_nat (length (m_sortedMembers (this s))) < UINT_MOD →
  let s' := (SortAndRenumber broker s).2 in
  ∀ j q, GetMembers s' ONLY_VISIBLE !! j = Some q →
    GetByChannelNumber s' (mkChannelNumber (Z.of_nat j + 1) 0)
    = Member.Channel (deref (st_heap s') q).
Proof.
  intros Hready Hprevent Horder Hcached Hcount Hfit s'.
  assert (densely_numbered s') as Hdense.
  { unfold s', SortAndRenumber. rewrite Hprevent.
    destruct (Sort_ready s Hready) as (l & Hl & -> & Hready').
    apply Renumber_dense; [done|done|done| |by cbn; rewrite Hl].
    revert Hcount. unfold numbers_by_count, counting.
    change (IsInternalGroup (this (upd s (st_heap s) l (m_members (this s)))))
      with (IsInternalGroup (this s)).
    destruct (UsingBackendChannelNumbers broker (GetSettings broker)),
      (IsInternalGroup (this s)),
      (SETTING_PVRMANAGER_STARTGROUPCHANNELNUMBERSFROMONE (GetSettings broker)); done. }
  apply dense_lookup; [done| |].
  - destruct Hready as (Hls & _ & _).
    by destruct (SortAndRenumber_lockstep broker s Hls) as [? _].
  - unfold s'. by destruct (SortAndRenumber_upd broker s) as (h & l & _ & _ & _ & ->).
Qed.

End Numbers.

(** ** Backend numbers as group numbers *)

Section BackendNumbers.

Context {sorter : StdSort}.
Variable broker : CServiceBroker.

(** C4, amended: after [SortAndRenumber()] on a group that is not flagged
    to prevent it, when the backend channel numbers are in use according
    to the settings as [Renumber] reads them - the live settings, not the
    flag the group caches - every member of the sequence has a group
    number equal to its backend number.  The members are the ones before:
    the sequence is a permutation of the old one, the map is the old one
    and the store has the objects it had.  On a group that is ready to be
    renumbered the numbers are tied to the store before: the backend
    number of a member is the one it had when that was valid, and the one
    its channel has in the all channels group otherwise; channel, priority
    and order of a member stay, and no object outside the sequence is
    written. *)
Theorem SortAndRenumber_uses_live_backend_numbers (s : State) :
  pointers_allocated (st_heap s) (this s) →
  members_have_channel (st_heap s) (this s) →
  PreventSortAndRenumber (this s) = false →
  UsingBackendChannelNumbers broker (GetSettings broker) = true →
  let s' := (SortAndRenumber broker s).2 in
  let h := st_heap s in
  let h' := st_heap s' in
  m_sortedMembers (this s') ≡ₚ m_sortedMembers (this s)
  ∧ m_members (this s') = m_members (this s)
  ∧ length h' = length h
  ∧ (∀ p, p ∈ m_sortedMembers (this s') →
          Member.ChannelNumber (deref h' p) = Member.ClientChannelNumber (deref h' p))
  ∧ (renumber_ready h (this s) →
     (∀ q, q ∈ m_sortedMembers (this s) →
           Member.ChannelNumber (deref h' q) = resolved_backend_number (this s) h q
           ∧ Member.ClientChannelNumber (deref h' q)
             = resolved_backend_number (this s) h q
           ∧ Member.Channel (deref h' q) = Member.Channel (deref h q)
           ∧ Member.ClientPriority (deref h' q) = Member.ClientPriority (deref h q)
           ∧ Member.Order (deref h' q) = Member.Order (deref h q))
     ∧ (∀ p, p ∉ m_sortedMembers (this s) → deref h' p = deref h p)).
Proof.
  intros (H0 & Hsorted & Hmap) _ Hp HbU. cbv zeta.
  assert (m_sortedMembers (this (SortAndRenumber broker s).2) ≡ₚ m_sortedMembers (this s)
          ∧ m_members (this (SortAndRenumber broker s).2) = m_members (this s)
          ∧ length (st_heap (SortAndRenumber broker s).2) = length (st_heap s))
    as (Hperm & Hsame & Hlen).
  { destruct (SortAndRenumber_upd broker s) as (h1 & l1 & Hl1 & Hlen1 & _ & ->).
    by cbn. }
  assert (∀ p, p ∈ m_sortedMembers (this (SortAndRenumber broker s).2) →
            Member.ChannelNumber (deref (st_heap (SortAndRenumber broker s).2) p)
            = Member.ClientChannelNumber
                (deref (st_heap (SortAndRenumber broker s).2) p)) as Hequal.
  { intros p Hpl. rewrite Hperm in Hpl. revert Hpl.
    unfold SortAndRenumber. rewrite Hp.
    destruct (Sort_permutes s) as (l1 & Hl1 & ->).
    rewrite Renumber_unprevented by done. cbv zeta. rewrite HbU.
    cbn [this with_this m_sortedMembers with_sortedMembers st_heap].
    set (r := Renumber_loop _ _ _ _ _ _).
    destruct (Sort_permutes
                (with_heap (with_this s (with_sortedMembers (this s) l1)) r.1.1))
      as (l2 & Hl2 & ->).
    cbn. intros Hpl.
    apply (Renumber_loop_backend_numbers _ NORMAL
             (with_sortedMembers (this s) l1) l1 (st_heap s) 0 false).
    - split; [done|]. split; cbn; [by rewrite Hl1|done].
    - intros q Hq. rewrite Hl1 in Hq. by eapply (proj1 (Forall_forall _ _) Hsorted).
    - left. by rewrite Hl1. }
  split; [done|]. split; [done|]. split; [done|]. split; [done|].
  intros Hready.
  assert ((∀ q, q ∈ m_sortedMembers (this s) →
             Member.ClientChannelNumber (deref (st_heap (SortAndRenumber broker s).2) q)
             = resolved_backend_number (this s) (st_heap s) q
             ∧ Member.Channel (deref (st_heap (SortAndRenumber broker s).2) q)
               = Member.Channel (deref (st_heap s) q)
             ∧ Member.ClientPriority (deref (st_heap (SortAndRenumber broker s).2) q)
               = Member.ClientPriority (deref (st_heap s) q)
             ∧ Member.Order (deref (st_heap (SortAndRenumber broker s).2) q)
               = Member.Order (deref (st_heap s) q))
          ∧ (∀ p, p ∉ m_sortedMembers (this s) →
               deref (st_heap (SortAndRenumber broker s).2) p = deref (st_heap s) p))
    as [Hm Hf].
  { unfold SortAndRenumber. rewrite Hp.
    destruct (Sort_ready s Hready) as (l & Hl & -> & Hready').
    pose proof (Renumber_backend_numbers broker NORMAL _ Hready' Hp) as [Hm Hf].
    cbv zeta in Hm, Hf. cbn [st_heap this upd m_sortedMembers with_members
      with_sortedMembers] in Hm, Hf.
    split.
    - intros q Hq. apply Hm. by rewrite Hl.
    - intros p Hpn. apply Hf. by rewrite Hl. }
  split; [|exact Hf].
  intros q Hq. destruct (Hm q Hq) as (Hccn & Hrest).
  split; [|done]. rewrite <- Hccn. apply Hequal. by rewrite Hperm.
Qed.

End BackendNumbers.

(** C4, as stated, fails for the policy the group holds.  The group caches
    that the backend numbers are in use; the settings, as [Renumber] reads
    them now, say they are not.  After [SortAndRenumber()] the group still
    caches the policy, and its member for A has the number A has in the
    all channels group, not its backend number. *)
Lemma SortAndRenumber_ignores_the_cached_policy :
  m_bUsingBackendChannelNumbers (this Example.state_caching_backend_numbers) = true
  ∧ PreventSortAndRenumber (this Example.state_caching_backend_numbers) = false
  ∧ UsingBackendChannelNumbers Example.broker_without_database
      (GetSettings Example.broker_without_database) = false
  ∧ m_bUsingBackendChannelNumbers
      (this (SortAndRenumber (sorter := stable_sorter) Example.broker_without_database
               Example.state_caching_backend_numbers).2) = true
  ∧ 4%nat ∈ m_sortedMembers
              (this (SortAndRenumber (sorter := stable_sorter)
                       Example.broker_without_database
                       Example.state_caching_backend_numbers).2)
  ∧ Member.ChannelNumber
      (deref (st_heap (SortAndRenumber (sorter := stable_sorter)
                         Example.broker_without_database
                         Example.state_caching_backend_numbers).2) 4%nat)
    = ChannelNumber 1 0
  ∧ Member.ClientChannelNumber
      (deref (st_heap (SortAndRenumber (sorter := stable_sorter)
                         Example.broker_without_database
                         Example.state_caching_backend_numbers).2) 4%nat)
    = ChannelNumber 2 0.
Proof.
  split; [by vm_compute|]. split; [by vm_compute|]. split; [by vm_compute|].
  split; [by vm_compute|].
  split; [apply (bool_decide_unpack _); vm_compute; exact I|].
  split; by vm_compute.
Qed.

Lemma SortAndRenumber_uses_live_backend_numbers_witness :
  renumber_ready (st_heap Example.loaded_group_state) (this Example.loaded_group_state)
  ∧ UsingBackendChannelNumbers Example.broker_backend_numbers
      (GetSettings Example.broker_backend_numbers) = true
  ∧ Member.ChannelNumber (deref (st_heap Example.loaded_group_state) 4%nat)
    = ChannelNumber 1 0
  ∧ Member.ChannelNumber
      (deref (st_heap (SortAndRenumber (sorter := stable_sorter)
                         Example.broker_backend_numbers
                         Example.loaded_group_state).2) 4%nat)
    = ChannelNumber 2 0
  ∧ ∀ p, p ∈ m_sortedMembers
               (this (SortAndRenumber (sorter := stable_sorter)
                        Example.broker_backend_numbers Example.loaded_group_state).2) →
      Member.ChannelNumber
        (deref (st_heap (SortAndRenumber (sorter := stable_sorter)
                           Example.broker_backend_numbers
                           Example.loaded_group_state).2) p)
      = Member.ClientChannelNumber
          (deref (st_heap (SortAndRenumber (sorter := stable_sorter)
                             Example.broker_backend_numbers
                             Example.loaded_group_state).2) p).
Proof.
  assert (renumber_ready (st_heap Example.loaded_group_state)
            (this Example.loaded_group_state)) as Hready.
  { apply (bool_decide_unpack _). vm_compute. exact I. }
  destruct (SortAndRenumber_uses_live_backend_numbers (sorter := stable_sorter)
              Example.broker_backend_numbers Example.loaded_group_state)
    as (_ & _ & _ & Hequal & Htied).
  - apply (bool_decide_unpack _). vm_compute. exact I.
  - apply (bool_decide_unpack _). vm_compute. exact I.
  - reflexivity.
  - reflexivity.
  - split; [exact Hready|]. split; [reflexivity|]. split; [reflexivity|].
    split; [|exact Hequal].
    destruct (Htied Hready) as [Hmembers _].
    destruct (Hmembers 4%nat) as [Hnumber _].
    + apply (bool_decide_unpack _). vm_compute. exact I.
    + exact Hnumber.
Defined.

(** ** What no method of the membership changes *)

(** Type, id, position, path and all channels group of a group, and the
    four policy flags it caches. *)
Definition identity_of (g : CPVRChannelGroup)
    : Z * Z * Z * (bool * string) * gmap (Z * Z) nat :=
  (m_iGroupType g, m_iGroupId g, m_iPosition g, m_path g, m_allChannelsGroup g).

Definition cached_policy (g : CPVRChannelGroup) : bool * bool * bool * bool :=
  (m_bSyncChannelGroups g, m_bUsingBackendChannelOrder g,
   m_bUsingBackendChannelNumbers g, m_bStartGroupChannelNumbersFromOne g).


(** What the methods that maintain the membership leave alone. *)
Definition fixed_of (g : CPVRChannelGroup) :=
  (identity_of g, cached_policy g, m_bPreventSortAndRenumber g).

Lemma fixed_of_eq g g' :
  fixed_of g' = fixed_of g →
  identity_of g' = identity_of g ∧ cached_policy g' = cached_policy g
  ∧ m_bPreventSortAndRenumber g' = m_bPreventSortAndRenumber g.
Proof.
  unfold fixed_of. intros [[H1 H2]%pair_equal_spec H3]%pair_equal_spec. done.
Qed.

Section Fixed.

Context {sorter : StdSort}.
Variable broker : CServiceBroker.

Lemma fixed_upd s h l m : fixed_of (this (upd s h l m)) = fixed_of (this s).
Proof. done. Qed.

Lemma fixed_SortAndRenumber s :
  fixed_of (this (SortAndRenumber broker s).2) = fixed_of (this s).
Proof. by destruct (SortAndRenumber_upd broker s) as (h & l & _ & _ & _ & ->). Qed.


Lemma fixed_Persist s : fixed_of (this (Persist broker s).2) = fixed_of (this s).
Proof.
  unfold Persist. destruct (_ && _); [done|].
  by destruct (m_iGroupId (this s) =? INVALID_GROUP_ID), (GetTVDatabase broker).
Qed.

Lemma fixed_UpdateClientPriorities s :
  fixed_of (this (UpdateClientPriorities broker s).2) = fixed_of (this s).
Proof. by destruct (UpdateClientPriorities_frame broker s) as (h & _ & _ & ->). Qed.

Lemma fixed_AddToGroup channel channelNumber iOrder bU clientChannelNumber s :
  fixed_of (this (AddToGroup broker channel channelNumber iOrder bU
                    clientChannelNumber s).2)
  = fixed_of (this s).
Proof.
  unfold AddToGroup. destruct (negb _); [|done].
  destruct (Member.Channel _); [|done]. cbn [snd make_shared].
  by rewrite fixed_SortAndRenumber.
Qed.

Lemma fixed_AddAndUpdateChannels channels bU s :
  fixed_of (this (AddAndUpdateChannels broker channels bU s).2) = fixed_of (this s).
Proof.
  unfold AddAndUpdateChannels.
  assert (∀ pairs b s0,
            fixed_of (this (foldl (AddAndUpdateChannels_step broker bU) (b, s0) pairs).2)
            = fixed_of (this s0)) as Hfold.
  { induction pairs as [|[k np] pairs IH]; intros b s0; cbn [foldl]; [done|].
    destruct (AddAndUpdateChannels_step broker bU (b, s0) (k, np)) as [b1 s1] eqn:E.
    rewrite IH. unfold AddAndUpdateChannels_step in E. cbn [fst snd] in E.
    destruct (Member.Channel _); [|by inversion E].
    destruct (negb _).
    - inversion E. apply fixed_AddToGroup.
    - destruct (_ || _); by inversion E. }
  specialize (Hfold (in_key_order (m_members channels)) false s).
  destruct (foldl _ _ _) as [b1 s1]. cbn [snd] in *.
  by rewrite fixed_SortAndRenumber.
Qed.

(** [UpdateGroupEntries] changes neither the identity nor the cached
    policy, and leaves the flag that prevents sorting and renumbering
    cleared. *)
Lemma fixed_UpdateGroupEntries channels s :
  fixed_of (this (UpdateGroupEntries broker channels s).2)
  = (identity_of (this s), cached_policy (this s), false).
Proof.
  unfold UpdateGroupEntries.
  set (s0 := SetPreventSortAndRenumber true s).
  set (bU := orb (bool_decide _) _). clearbody bU.
  unfold RemoveDeletedChannels.
  destruct (RemoveDeletedChannels_loop _ _ _ _ _ _) as [[l1 m1] removed].
  set (s1 := with_this s0 _).
  pose proof (fixed_AddAndUpdateChannels channels bU s1) as Hf2.
  destruct (AddAndUpdateChannels broker channels bU s1) as [bAdded s2].
  set (s3 := SetPreventSortAndRenumber false s2).
  assert (fixed_of (this s3) = (identity_of (this s), cached_policy (this s), false))
    as Hf3.
  { cbn [snd] in Hf2. apply fixed_of_eq in Hf2 as (Hi2 & Hp2 & _).
    unfold fixed_of. change (identity_of (this s3)) with (identity_of (this s2)).
    change (cached_policy (this s3)) with (cached_policy (this s2)).
    by rewrite Hi2, Hp2. }
  pose proof (fixed_UpdateClientPriorities s3) as Hf4.
  destruct (UpdateClientPriorities broker s3) as [bPriorities s4].
  cbn [snd] in Hf4.
  destruct (_ || _).
  - pose proof (fixed_SortAndRenumber s4) as Hf5.
    destruct (SortAndRenumber broker s4) as [bRenumbered s5].
    pose proof (fixed_Persist s5) as Hf6.
    destruct (Persist broker s5) as [bReturn s6].
    cbn [snd] in *. cbn [this emit]. by rewrite Hf6, Hf5, Hf4.
  - cbn [snd]. by rewrite Hf4.
Qed.


(** ** Loading, and reacting to the settings *)


End Fixed.

Section Settings.

Context {sorter : StdSort}.
Variable broker : CServiceBroker.







(** ** The setters of the group *)

(** X22: [SetGroupType] and [SetPosition] store the value and mark the group
    changed exactly when it is loaded and the value is new; called again
    with the same value they do nothing.  [SetGroupID] stores an id that
    is not negative and ignores any other; it never marks the group
    changed.  None of them touches the members. *)
Theorem setters_mark_loaded_groups_only (iGroupType iPosition iGroupId : Z) (s : State) :
  let s1 := SetGroupType iGroupType s in
  let s2 := SetPosition iPosition s in
  let s3 := SetGroupID iGroupId s in
  (m_iGroupType (this s1) = iGroupType
   ∧ HasChanges (this s1)
     = HasChanges (this s)
       || (m_bLoaded (this s) && negb (m_iGroupType (this s) =? iGroupType))
   ∧ SetGroupType iGroupType s1 = s1)
  ∧ (m_iPosition (this s2) = iPosition
     ∧ HasChanges (this s2)
       = HasChanges (this s)
         || (m_bLoaded (this s) && negb (m_iPosition (this s) =? iPosition))
     ∧ SetPosition iPosition s2 = s2)
  ∧ (m_iGroupId (this s3) = (if 0 <=? iGroupId then iGroupId else m_iGroupId (this s))
     ∧ HasChanges (this s3) = HasChanges (this s)
     ∧ (iGroupId < 0 → s3 = s))
  ∧ Forall (λ s', st_heap s' = st_heap s ∧ st_trace s' = st_trace s
                  ∧ m_sortedMembers (this s') = m_sortedMembers (this s)
                  ∧ m_members (this s') = m_members (this s)) [s1; s2; s3].
Proof.
  cbv zeta. unfold SetGroupType, SetPosition, SetGroupID, HasChanges.
  split; [|split; [|split]].
  - destruct (Z.eqb_spec (m_iGroupType (this s)) iGroupType) as [Heq|Hne]; cbn [negb].
    + rewrite andb_false_r, orb_false_r. split; [done|]. split; [done|].
      apply Z.eqb_eq in Heq. by rewrite Heq.
    + destruct (m_bLoaded (this s)) eqn:Hl; cbn; rewrite ?Hl, ?orb_true_r, ?orb_false_r;
        rewrite Z.eqb_refl; done.
  - destruct (Z.eqb_spec (m_iPosition (this s)) iPosition) as [Heq|Hne]; cbn [negb].
    + rewrite andb_false_r, orb_false_r. split; [done|]. split; [done|].
      apply Z.eqb_eq in Heq. by rewrite Heq.
    + destruct (m_bLoaded (this s)) eqn:Hl; cbn; rewrite ?Hl, ?orb_true_r, ?orb_false_r;
        rewrite Z.eqb_refl; done.
  - destruct (Z.leb_spec 0 iGroupId); cbn; repeat split; try done; lia.
  - repeat constructor;
      try (destruct (negb _); [destruct (m_bLoaded _)|]; done);
      try (destruct (0 <=? iGroupId); done).
Qed.

(** X23: [SetPath] does nothing when the path is the one the group has.
    Otherwise it stores the path; an unloaded group is left at that, a
    loaded one is persisted at once, which with a database at hand leaves
    it unchanged as far as [HasChanges()] tells.  [SetGroupName] is
    [SetPath] with the radio flag the group has. *)
Theorem SetPath_persists_loaded_groups (path : bool * string) (s : State) :
  let s' := SetPath broker path s in
  (m_path (this s) = path → s' = s)
  ∧ m_path (this s') = path
  ∧ (m_path (this s) ≠ path → m_bLoaded (this s) = false →
     s' = with_this s (with_path (this s) path))
  ∧ (m_path (this s) ≠ path → m_bLoaded (this s) = true →
     match GetTVDatabase broker with
     | Some db =>
         HasChanges (this s') = false
         ∧ ∃ b, st_trace s' = st_trace s ++ [DatabasePersist b]
     | None => HasChanges (this s') = true ∧ st_trace s' = st_trace s
     end)
  ∧ (∀ strGroupName,
       SetGroupName broker strGroupName s
       = SetPath broker ((m_path (this s)).1, strGroupName) s).
Proof.
  cbv zeta.
  match goal with |- _ ∧ _ ∧ _ ∧ _ ∧ ?P =>
    assert P as Hname; [|set (X := P) in *; clearbody X] end.
  { intros strGroupName. unfold SetGroupName, SetPath.
    destruct (m_path (this s)) as [bRadio name] eqn:Hpath. cbn [fst snd].
    destruct (decide (name = strGroupName)) as [->|Hne].
    - by rewrite !bool_decide_true.
    - rewrite !bool_decide_false; [done|congruence|done]. }
  unfold SetPath, HasChanges.
  case_bool_decide as Hpath; cbn [negb].
  { repeat split; done. }
  destruct (m_bLoaded (this s)) eqn:Hloaded.
  - unfold Persist. cbn. rewrite Hloaded. cbn.
    destruct (m_iGroupId (this s) =? INVALID_GROUP_ID);
      destruct (GetTVDatabase broker) as [db|]; cbn; repeat split; eauto; done.
  - cbn. rewrite Hloaded. repeat split; done.
Qed.

End Settings.

(** ** Size and equality of groups *)

(** X24: With the index in lockstep, [Size()] is the length of the sequence
    [GetMembers] hands out, and [HasChannels()] tells whether that
    sequence has a member.  After [Unload()] the group is empty. *)
Theorem Size_is_the_length_of_the_sequence (s : State) :
  lockstep (st_heap s) (this s) →
  Size (this s) = length (GetMembers s ALL)
  ∧ (HasChannels (this s) = true ↔ GetMembers s ALL ≠ [])
  ∧ Size (this (Unload s)) = 0%nat
  ∧ HasChannels (this (Unload s)) = false.
Proof.
  intros Hls. destruct (lockstep_at_same_members _ _ _ Hls) as [_ Hsize].
  unfold Size, HasChannels, GetMembers. split; [done|]. split; [|done].
  rewrite negb_true_iff, bool_decide_eq_false.
  rewrite <- map_size_empty_iff, <- Hsize. by rewrite length_zero_iff_nil.
Qed.

(** X25: [operator==] on groups is an equivalence that looks at type, id,
    position and path only: groups that differ in members, store or flags
    compare equal. *)
Theorem group_equality_ignores_members (g1 g2 g3 : CPVRChannelGroup) :
  group_eqb g1 g1 = true
  ∧ group_eqb g1 g2 = group_eqb g2 g1
  ∧ (group_eqb g1 g2 = true → group_eqb g2 g3 = true → group_eqb g1 g3 = true)
  ∧ (group_eqb g1 g2 = true ↔
     m_iGroupType g1 = m_iGroupType g2 ∧ m_iGroupId g1 = m_iGroupId g2
     ∧ m_iPosition g1 = m_iPosition g2 ∧ m_path g1 = m_path g2)
  ∧ (∀ l m b, group_eqb (with_bChanged (with_members (with_sortedMembers g1 l) m) b) g1
              = true).
Proof.
  assert (∀ a b, group_eqb a b = true ↔
            m_iGroupType a = m_iGroupType b ∧ m_iGroupId a = m_iGroupId b
            ∧ m_iPosition a = m_iPosition b ∧ m_path a = m_path b) as Hspec.
  { intros a b. unfold group_eqb.
    rewrite !andb_true_iff, !Z.eqb_eq, bool_decide_eq_true. tauto. }
  split; [by apply Hspec|]. split; [|split; [|split; [apply Hspec|]]].
  - destruct (group_eqb g1 g2) eqn:E12, (group_eqb g2 g1) eqn:E21; try done.
    + apply Hspec in E12 as (? & ? & ? & ?).
      assert (group_eqb g2 g1 = true) as Ht by (apply Hspec; done). congruence.
    + apply Hspec in E21 as (? & ? & ? & ?).
      assert (group_eqb g1 g2 = true) as Ht by (apply Hspec; done). congruence.
  - intros (? & ? & ? & ?)%Hspec (? & ? & ? & ?)%Hspec. apply Hspec.
    repeat split; congruence.
  - intros l m b. by apply Hspec.
Qed.

(** ** Reconciliation against the fetched group *)

Section Reconciling.

Context {sorter : StdSort}.
Variable broker : CServiceBroker.

(** One round of the loop of [AddAndUpdateChannels] on the pair filed
    under [k]: the map keeps what it holds, and holds [k] afterwards when
    the all channels group knows [k] and the group is not the internal
    one. *)
Lemma AddAndUpdateChannels_step_adds bU b s k np :
  sentinel_empty (st_heap s) →
  keyed (st_heap s) (m_allChannelsGroup (this s)) →
  let s' := (AddAndUpdateChannels_step broker bU (b, s) (k, np)).2 in
  (IsInternalGroup (this s) = false →
   is_Some (m_allChannelsGroup (this s) !! k) → is_Some (m_members (this s') !! k))
  ∧ (∀ k' q, m_members (this s) !! k' = Some q → m_members (this s') !! k' = Some q).
Proof.
  intros Hsent Hall. cbv zeta. unfold AddAndUpdateChannels_step. cbn [fst snd].
  pose proof (GetByUniqueID_keyed _ _ k Hsent Hall) as Hget.
  destruct (m_allChannelsGroup (this s) !! k) as [r|] eqn:Hr.
  2:{ rewrite Hget. split; [|done]. by intros _ [? ?]. }
  destruct Hget as (-> & Halloc & (c & Hc & Hkey)%key_of_Some). rewrite Hc.
  destruct (IsGroupMember (this s) c) eqn:Hmember; cbn [negb].
  - assert (is_Some (m_members (this s) !! k)) as Hk.
    { unfold IsGroupMember in Hmember. rewrite Hkey in Hmember.
      by destruct (m_members (this s) !! k). }
    destruct (_ || _); by split.
  - rewrite AddToGroup_spec by done. rewrite Hmember, Hkey, Hr.
    assert (m_members (this s) !! k = None) as Hnone.
    { unfold IsGroupMember in Hmember. rewrite Hkey in Hmember.
      by destruct (m_members (this s) !! k). }
    destruct (IsInternalGroup (this s)); [by split|]. cbn [snd].
    match goal with |- context [SortAndRenumber broker ?s1] =>
      destruct (SortAndRenumber_upd broker s1) as (h & l & _ & _ & _ & ->) end.
    cbn. split; [by rewrite lookup_insert_eq|].
    intros k' q Hq. rewrite lookup_insert_ne; [done|]. congruence.
Qed.

Lemma AddAndUpdateChannels_fold_adds bU pairs : ∀ b s,
  sentinel_empty (st_heap s) →
  keyed (st_heap s) (m_allChannelsGroup (this s)) →
  let s' := (foldl (AddAndUpdateChannels_step broker bU) (b, s) pairs).2 in
  (IsInternalGroup (this s) = false →
   ∀ kp : Z * Z * nat, kp ∈ pairs →
     is_Some (m_allChannelsGroup (this s) !! kp.1) →
     is_Some (m_members (this s') !! kp.1))
  ∧ (∀ k' q, m_members (this s) !! k' = Some q → m_members (this s') !! k' = Some q).
Proof.
  induction pairs as [|[k np] pairs IH]; intros b s Hsent Hall; cbn [foldl].
  - split; [|done]. intros _ kp Hkp. by apply elem_of_nil in Hkp.
  - destruct (AddAndUpdateChannels_step_frame broker bU b s k np Hsent Hall)
      as (h1 & l1 & m1 & Heq1 & Hext1 & _).
    pose proof (AddAndUpdateChannels_step_adds bU b s k np Hsent Hall) as [Hadd1 Hkeep1].
    destruct (AddAndUpdateChannels_step broker bU (b, s) (k, np)) as [b1 s1].
    cbn [snd] in *. subst s1.
    destruct (IH b1 (upd s h1 l1 m1)) as [Hadd2 Hkeep2].
    + by eapply sentinel_empty_heap_extends.
    + cbn. by eapply keyed_heap_extends.
    + cbn in Hadd1, Hkeep1, Hadd2, Hkeep2. split.
      * intros Hint kp [->|Hkp]%elem_of_cons Hknown.
        -- destruct (Hadd1 Hint Hknown) as [q Hq]. exists q. by apply Hkeep2.
        -- by apply Hadd2.
      * intros k' q Hq. by apply Hkeep2, Hkeep1.
Qed.

Lemma AddAndUpdateChannels_adds channels bU s :
  sentinel_empty (st_heap s) →
  keyed (st_heap s) (m_allChannelsGroup (this s)) →
  let s' := (AddAndUpdateChannels broker channels bU s).2 in
  (IsInternalGroup (this s) = false →
   ∀ k, is_Some (m_members channels !! k) →
        is_Some (m_allChannelsGroup (this s) !! k) →
        is_Some (m_members (this s') !! k))
  ∧ (∀ k' q, m_members (this s) !! k' = Some q → m_members (this s') !! k' = Some q).
Proof.
  intros Hsent Hall. cbv zeta. unfold AddAndUpdateChannels.
  pose proof (AddAndUpdateChannels_fold_adds bU (in_key_order (m_members channels))
                false s Hsent Hall) as [Hadd Hkeep].
  destruct (foldl _ _ _) as [b1 s1]. cbn [snd] in *.
  destruct (SortAndRenumber_upd broker s1) as (h & l & _ & _ & _ & ->). cbn.
  split; [|done]. intros Hint k [np Hnp] Hknown.
  apply (Hadd Hint (k, np)); [|done]. by apply elem_of_in_key_order.
Qed.

(** The two views [UpdateGroupEntries] leaves are those its two passes
    over the fetched group leave, up to the order of the sequence; the
    rest of it writes to members and flags only. *)
Lemma UpdateGroupEntries_views channels s :
  let bU := bool_decide (m_members (this s) = ∅) || m_bUsingBackendChannelOrder (this s) in
  let s1 := (RemoveDeletedChannels channels (SetPreventSortAndRenumber true s)).2 in
  let s2 := (AddAndUpdateChannels broker channels bU s1).2 in
  let s' := (UpdateGroupEntries broker channels s).2 in
  m_members (this s') = m_members (this s2)
  ∧ m_sortedMembers (this s') ≡ₚ m_sortedMembers (this s2)
  ∧ heap_extends (st_heap s2) (st_heap s')
  ∧ length (st_heap s') = length (st_heap s2).
Proof.
  cbv zeta. unfold UpdateGroupEntries.
  set (bU := orb (bool_decide _) _). clearbody bU.
  destruct (RemoveDeletedChannels channels (SetPreventSortAndRenumber true s))
    as [removed s1].
  cbn [snd].
  destruct (AddAndUpdateChannels broker channels bU s1) as [bAdded s2].
  cbn [snd].
  set (s3 := SetPreventSortAndRenumber false s2).
  destruct (UpdateClientPriorities_frame broker s3) as (h4 & Hext4 & Hlen4 & Heq4).
  destruct (UpdateClientPriorities broker s3) as [bPriorities s4].
  cbn [snd] in Heq4. subst s4.
  destruct (_ || _).
  - destruct (SortAndRenumber_upd broker (with_heap s3 h4))
      as (h5 & l5 & Hl5 & Hlen5 & Hch5 & Heq5).
    destruct (SortAndRenumber broker (with_heap s3 h4)) as [bRenumbered s5].
    cbn [snd] in Heq5. subst s5.
    set (s5 := upd (with_heap s3 h4) h5 l5 _).
    pose proof (Persist_frame broker s5) as (Hheap & Hsorted & Hmembers & _).
    pose proof (Persist_heap broker s5) as [Hlen6 _].
    destruct (Persist broker s5) as [bReturn s6].
    cbn [fst snd this st_heap emit] in *. rewrite Hsorted, Hmembers. cbn.
    split; [done|]. split; [done|]. cbn in Hlen5, Hch5, Hlen4, Hlen6, Hheap.
    split; [|lia].
    eapply heap_extends_trans; [exact Hext4|].
    eapply heap_extends_trans; [|exact Hheap].
    split; [lia|]. intros; apply Hch5.
  - cbn. done.
Qed.

Lemma UpdateGroupEntries_lockstep channels s :
  sentinel_empty (st_heap s) →
  keyed (st_heap s) (m_allChannelsGroup (this s)) →
  lockstep (st_heap s) (this s) →
  lockstep (st_heap (UpdateGroupEntries broker channels s).2)
    (this (UpdateGroupEntries broker channels s).2).
Proof.
  intros Hsent Hall Hls.
  pose proof (UpdateGroupEntries_views channels s) as Hviews. cbv zeta in Hviews.
  set (bU := orb (bool_decide _) _) in Hviews. clearbody bU.
  set (s0 := SetPreventSortAndRenumber true s) in *.
  pose proof (RemoveDeletedChannels_lockstep channels s0 Hls) as Hls1.
  cbv zeta in Hls1.
  assert (st_heap (RemoveDeletedChannels channels s0).2 = st_heap s
          ∧ m_allChannelsGroup (this (RemoveDeletedChannels channels s0).2)
            = m_allChannelsGroup (this s)) as [Hh1 Hall1].
  { unfold RemoveDeletedChannels.
    by destruct (RemoveDeletedChannels_loop _ _ _ _ _ _) as [[l1 m1] removed]. }
  set (s1 := (RemoveDeletedChannels channels s0).2) in *.
  assert (sentinel_empty (st_heap s1)) as Hsent1 by by rewrite Hh1.
  assert (keyed (st_heap s1) (m_allChannelsGroup (this s1))) as Hkeyed1
    by by rewrite Hh1, Hall1.
  destruct (AddAndUpdateChannels_frame broker channels bU s1 Hsent1 Hkeyed1)
    as (h2 & l2 & m2 & Heq2 & _ & _ & _ & Hls2).
  rewrite Heq2 in Hviews.
  cbn [this st_heap upd m_members m_sortedMembers with_members with_sortedMembers]
    in Hviews.
  destruct Hviews as (Hmembers & Hsorted & Hext & _).
  unfold lockstep. rewrite Hmembers.
  apply (lockstep_at_permutation _ _ _ _ Hsorted).
  eapply lockstep_at_heap_extends; [exact Hext|]. by apply Hls2.
Qed.

(** X26: [UpdateGroupEntries], run on a group whose index is in lockstep,
    leaves it in lockstep and with the flag that prevents renumbering
    cleared.  Afterwards every member is a channel of the fetched group;
    a member the fetched group has is kept as the object it was; and,
    unless the group is the internal one, every channel of the fetched
    group that the all channels group knows is a member. *)
Theorem UpdateGroupEntries_reconciles_the_membership
    (channels : CPVRChannelGroup) (s : State) :
  sentinel_empty (st_heap s) →
  keyed (st_heap s) (m_allChannelsGroup (this s)) →
  lockstep (st_heap s) (this s) →
  let s' := (UpdateGroupEntries broker channels s).2 in
  lockstep (st_heap s') (this s')
  ∧ PreventSortAndRenumber (this s') = false
  ∧ (∀ k, is_Some (m_members (this s') !! k) → is_Some (m_members channels !! k))
  ∧ (∀ k q, m_members (this s) !! k = Some q → is_Some (m_members channels !! k) →
            m_members (this s') !! k = Some q)
  ∧ (IsInternalGroup (this s) = false →
     ∀ k, is_Some (m_members channels !! k) →
          is_Some (m_allChannelsGroup (this s) !! k) →
          is_Some (m_members (this s') !! k)).
Proof.
  intros Hsent Hall Hls. cbv zeta.
  pose proof (UpdateGroupEntries_views channels s) as Hviews. cbv zeta in Hviews.
  set (bU := orb (bool_decide _) _) in Hviews. clearbody bU.
  set (s0 := SetPreventSortAndRenumber true s) in *.
  pose proof (RemoveDeletedChannels_lockstep channels s0 Hls) as Hls1.
  cbv zeta in Hls1.
  assert (st_heap (RemoveDeletedChannels channels s0).2 = st_heap s
          ∧ m_allChannelsGroup (this (RemoveDeletedChannels channels s0).2)
            = m_allChannelsGroup (this s)
          ∧ IsInternalGroup (this (RemoveDeletedChannels channels s0).2)
            = IsInternalGroup (this s)
          ∧ ∀ k q, m_members (this (RemoveDeletedChannels channels s0).2) !! k = Some q ↔
              m_members (this s) !! k = Some q
              ∧ ¬ ∃ p, p ∈ m_sortedMembers (this s) ∧ missing_from (st_heap s) channels p
                       ∧ StorageId (deref_channel (Member.Channel (deref (st_heap s) p)))
                         = k) as (Hh1 & Hall1 & Hint1 & Hmap).
  { unfold RemoveDeletedChannels.
    pose proof (RemoveDeletedChannels_loop_spec (st_heap s0) (this s0) channels
                  (m_sortedMembers (this s0)) (m_members (this s0)) [])
      as (_ & Hmap & _).
    destruct (RemoveDeletedChannels_loop _ _ _ _ _ _) as [[l1 m1] removed].
    cbn [fst snd] in *. split; [done|]. split; [done|]. split; [done|]. exact Hmap. }
  set (s1 := (RemoveDeletedChannels channels s0).2) in *.
  assert (sentinel_empty (st_heap s1)) as Hsent1 by by rewrite Hh1.
  assert (keyed (st_heap s1) (m_allChannelsGroup (this s1))) as Hkeyed1
    by by rewrite Hh1, Hall1.
  destruct (AddAndUpdateChannels_frame broker channels bU s1 Hsent1 Hkeyed1)
    as (h2 & l2 & m2 & Heq2 & Hext2 & _ & Hm2 & Hls2).
  pose proof (AddAndUpdateChannels_adds channels bU s1 Hsent1 Hkeyed1) as [Hadd Hkeep].
  cbv zeta in Hadd, Hkeep. rewrite Heq2 in Hviews, Hadd, Hkeep.
  cbn [this st_heap upd m_members m_sortedMembers with_members with_sortedMembers]
    in Hviews, Hadd, Hkeep.
  destruct Hviews as (Hmembers & Hsorted & Hext & Hlen).
  split; [|split; [|split; [|split]]].
  - by apply UpdateGroupEntries_lockstep.
  - pose proof (fixed_UpdateGroupEntries broker channels s) as Hfixed.
    unfold fixed_of in Hfixed. by apply pair_equal_spec in Hfixed as [_ ?].
  - rewrite Hmembers. intros k [q Hq].
    destruct (Hm2 k q Hq) as [Hq1|?]; [|done].
    apply Hmap in Hq1 as [Hq0 Hno].
    destruct (m_members channels !! k) eqn:Hfetched; [done|]. exfalso.
    destruct (lockstep_at_map _ _ _ _ _ Hls Hq0) as [Hin Hkey].
    apply Hno. exists q. split; [done|]. unfold missing_from.
    by rewrite (key_of_deref_channel _ _ _ Hkey).
  - rewrite Hmembers. intros k q Hq [x Hx]. apply Hkeep. apply Hmap.
    split; [done|]. intros (p & _ & Hmiss & Hk). unfold missing_from in Hmiss.
    congruence.
  - rewrite Hmembers. intros Hint k Hfetched Hknown.
    apply Hadd; [by rewrite Hint1|done|by rewrite Hall1].
Qed.


End Reconciling.

(** ** The properties above, on the example *)

Lemma example_sentinel_empty : sentinel_empty (st_heap Example.loaded_group_state).
Proof. apply (bool_decide_unpack _). vm_compute. exact I. Defined.

Lemma example_keyed_all_channels :
  keyed (st_heap Example.loaded_group_state)
    (m_allChannelsGroup (this Example.loaded_group_state)).
Proof. apply (bool_decide_unpack _). vm_compute. exact I. Defined.

Lemma example_keyed_members :
  keyed (st_heap Example.loaded_group_state) (m_members (this Example.loaded_group_state)).
Proof. apply (bool_decide_unpack _). vm_compute. exact I. Defined.

Lemma example_lockstep :
  lockstep (st_heap Example.loaded_group_state) (this Example.loaded_group_state).
Proof. apply (bool_decide_unpack _). vm_compute. exact I. Defined.

Lemma example_renumber_ready :
  renumber_ready (st_heap Example.loaded_group_state) (this Example.loaded_group_state).
Proof. apply (bool_decide_unpack _). vm_compute. exact I. Defined.

Lemma example_allocated :
  Forall (λ q, (q < length (st_heap Example.loaded_group_state))%nat)
    (m_sortedMembers (this Example.loaded_group_state)).
Proof. apply (bool_decide_unpack _). vm_compute. exact I. Defined.

Lemma AddToGroup_adds_exactly_known_channels_witness :
  sentinel_empty (st_heap Example.loaded_group_state)
  ∧ keyed (st_heap Example.loaded_group_state)
      (m_allChannelsGroup (this Example.loaded_group_state))
  ∧ (AddToGroup (sorter := stable_sorter) Example.broker_without_database Example.chC
       ChannelNumber0 0 false ChannelNumber0 Example.loaded_group_state).1 = true
  ∧ Size (this (AddToGroup (sorter := stable_sorter) Example.broker_without_database
                  Example.chC ChannelNumber0 0 false ChannelNumber0
                  Example.loaded_group_state).2)
    = S (Size (this Example.loaded_group_state)).
Proof.
  split; [exact example_sentinel_empty|]. split; [exact example_keyed_all_channels|].
  destruct (AddToGroup_adds_exactly_known_channels (sorter := stable_sorter)
              Example.broker_without_database Example.chC ChannelNumber0 0 false
              ChannelNumber0 Example.loaded_group_state
              example_sentinel_empty example_keyed_all_channels)
    as (Hiff & _ & Hafter).
  assert ((AddToGroup (sorter := stable_sorter) Example.broker_without_database
             Example.chC ChannelNumber0 0 false ChannelNumber0
             Example.loaded_group_state).1 = true) as Hadded.
  { apply Hiff. split; [by vm_compute|]. split; [by vm_compute|].
    vm_compute. by eexists. }
  split; [exact Hadded|]. by destruct (Hafter Hadded) as (_ & _ & ? & _).
Defined.

Lemma RemoveFromGroup_removes_exactly_members_witness :
  lockstep (st_heap Example.loaded_group_state) (this Example.loaded_group_state)
  ∧ (RemoveFromGroup (sorter := stable_sorter) Example.broker_without_database
       Example.chA Example.loaded_group_state).1
    = IsGroupMember (this Example.loaded_group_state) Example.chA.
Proof.
  split; [exact example_lockstep|].
  exact (proj1 (RemoveFromGroup_removes_exactly_members (sorter := stable_sorter)
                  Example.broker_without_database Example.chA
                  Example.loaded_group_state example_lockstep)).
Defined.

Lemma AddToGroup_then_RemoveFromGroup_witness :
  (AddToGroup (sorter := stable_sorter) Example.broker_without_database Example.chC
     ChannelNumber0 0 false ChannelNumber0 Example.loaded_group_state).1 = true
  ∧ m_members
      (this (RemoveFromGroup (sorter := stable_sorter) Example.broker_without_database
               Example.chC
               (AddToGroup (sorter := stable_sorter) Example.broker_without_database
                  Example.chC ChannelNumber0 0 false ChannelNumber0
                  Example.loaded_group_state).2).2)
    = m_members (this Example.loaded_group_state).
Proof.
  assert ((AddToGroup (sorter := stable_sorter) Example.broker_without_database
             Example.chC ChannelNumber0 0 false ChannelNumber0
             Example.loaded_group_state).1 = true) as Hadded by by vm_compute.
  split; [exact Hadded|].
  exact (proj1 (proj2 (AddToGroup_then_RemoveFromGroup (sorter := stable_sorter)
                         Example.broker_without_database Example.chC ChannelNumber0 0
                         false ChannelNumber0 Example.loaded_group_state
                         example_sentinel_empty example_keyed_all_channels
                         example_lockstep Hadded))).
Defined.

Lemma UpdateClientPriorities_refreshes_priorities_witness :
  Forall (λ q, (q < length (st_heap Example.loaded_group_state))%nat)
    (m_sortedMembers (this Example.loaded_group_state))
  ∧ this (UpdateClientPriorities Example.broker_without_database
            Example.loaded_group_state).2
    = this Example.loaded_group_state.
Proof.
  split; [exact example_allocated|].
  exact (proj1 (UpdateClientPriorities_refreshes_priorities
                  Example.broker_without_database Example.loaded_group_state
                  example_allocated)).
Defined.

Lemma GetByUniqueID_finds_members_witness :
  GetByUniqueID_ids Example.loaded_group_state 100 1 = Some Example.chA
  ∧ IsGroupMember (this Example.loaded_group_state) Example.chA = true.
Proof.
  pose proof (GetByUniqueID_finds_members Example.loaded_group_state 100 1
                example_sentinel_empty example_keyed_members) as Hfound.
  assert (GetByUniqueID_ids Example.loaded_group_state 100 1 = Some Example.chA)
    as Hget by by vm_compute.
  rewrite Hget in Hfound. split; [done|]. by destruct Hfound.
Defined.

Lemma GetByChannelID_agrees_with_IsGroupMember_witness :
  keyed (st_heap Example.loaded_group_state) (m_members (this Example.loaded_group_state))
  ∧ (IsGroupMember_id Example.loaded_group_state (ChannelID Example.chA) = true
     ↔ is_Some (GetByChannelID Example.loaded_group_state (ChannelID Example.chA))).
Proof.
  split; [exact example_keyed_members|].
  exact (proj1 (GetByChannelID_agrees_with_IsGroupMember Example.loaded_group_state
                  (ChannelID Example.chA) example_keyed_members)).
Defined.

Lemma SetChannelNumber_sets_first_member_witness :
  (SetChannelNumber Example.chB (ChannelNumber 2 0) Example.loaded_group_state).1 = true
  ∧ Member.ChannelNumber
      (deref (st_heap (SetChannelNumber Example.chB (ChannelNumber 2 0)
                         Example.loaded_group_state).2) 5%nat)
    = ChannelNumber 2 0
  ∧ SetChannelNumber Example.chB (ChannelNumber 2 0)
      (SetChannelNumber Example.chB (ChannelNumber 2 0) Example.loaded_group_state).2
    = (false,
       (SetChannelNumber Example.chB (ChannelNumber 2 0) Example.loaded_group_state).2).
Proof.
  destruct (SetChannelNumber_sets_first_member Example.chB (ChannelNumber 2 0)
              Example.loaded_group_state example_allocated)
    as (_ & _ & Hfirst & _ & _ & _ & Hagain).
  destruct (Hfirst [4%nat] 5%nat [] eq_refl) as (Htrue & _ & Hnumber & _).
  - by repeat constructor.
  - reflexivity.
  - split; [apply Htrue; by vm_compute|]. split; [exact Hnumber|exact Hagain].
Defined.


Lemma Renumber_resolves_backend_numbers_witness :
  renumber_ready (st_heap Example.loaded_group_state) (this Example.loaded_group_state)
  ∧ ∀ p, p ∉ m_sortedMembers (this Example.loaded_group_state) →
         deref (st_heap (SortAndRenumber (sorter := stable_sorter)
                           Example.broker_without_database
                           Example.loaded_group_state).2) p
         = deref (st_heap Example.loaded_group_state) p.
Proof.
  split; [exact example_renumber_ready|].
  exact (proj2 (Renumber_resolves_backend_numbers (sorter := stable_sorter)
                  Example.broker_without_database NORMAL Example.loaded_group_state
                  example_renumber_ready eq_refl _ (or_intror eq_refl))).
Defined.

Lemma SortAndRenumber_numbers_densely_witness :
  numbers_by_count broker_from_one (this Example.loaded_group_state) = true
  ∧ densely_numbered
      (SortAndRenumber (sorter := stable_sorter) broker_from_one
         Example.loaded_group_state).2.
Proof.
  assert (numbers_by_count broker_from_one (this Example.loaded_group_state) = true)
    as Hcount by by vm_compute.
  split; [exact Hcount|].
  apply (SortAndRenumber_numbers_densely (sorter := stable_sorter) broker_from_one
           Example.loaded_group_state example_renumber_ready eq_refl eq_refl Hcount).
  reflexivity.
Defined.

Lemma Renumber_takes_numbers_from_all_channels_group_witness :
  IsInternalGroup (this Example.loaded_group_state) = false
  ∧ ∀ q, q ∈ m_sortedMembers (this Example.loaded_group_state) →
      Member.ChannelNumber
        (deref (st_heap (Renumber (sorter := stable_sorter) broker_from_one
                           IGNORE_NUMBERING_FROM_ONE Example.loaded_group_state).2) q)
      = if IsHidden (deref_channel
                       (Member.Channel (deref (st_heap Example.loaded_group_state) q)))
        then mkChannelNumber 0 0
        else group_GetChannelNumber (st_heap Example.loaded_group_state)
               (m_allChannelsGroup (this Example.loaded_group_state))
               (Member.Channel (deref (st_heap Example.loaded_group_state) q)).
Proof.
  split; [reflexivity|].
  apply (Renumber_takes_numbers_from_all_channels_group (sorter := stable_sorter)
           broker_from_one IGNORE_NUMBERING_FROM_ONE Example.loaded_group_state
           example_renumber_ready eq_refl eq_refl eq_refl).
  left. split; [reflexivity|]. by left.
Defined.

Lemma GetByChannelNumber_after_SortAndRenumber_witness :
  GetMembers (SortAndRenumber (sorter := stable_sorter) broker_from_one
                Example.loaded_group_state).2 ONLY_VISIBLE !! 1%nat = Some 5%nat
  ∧ GetByChannelNumber
      (SortAndRenumber (sorter := stable_sorter) broker_from_one
         Example.loaded_group_state).2
      (mkChannelNumber (Z.of_nat 1 + 1) 0)
    = Member.Channel
        (deref (st_heap (SortAndRenumber (sorter := stable_sorter) broker_from_one
                           Example.loaded_group_state).2) 5).
Proof.
  assert (GetMembers (SortAndRenumber (sorter := stable_sorter) broker_from_one
                        Example.loaded_group_state).2 ONLY_VISIBLE !! 1%nat
          = Some 5%nat) as Hlookup by by vm_compute.
  split; [exact Hlookup|].
  apply (GetByChannelNumber_after_SortAndRenumber (sorter := stable_sorter)
           broker_from_one Example.loaded_group_state example_renumber_ready
           eq_refl eq_refl eq_refl); [by vm_compute|reflexivity|exact Hlookup].
Defined.

Lemma UpdateGroupEntries_reconciles_the_membership_witness :
  lockstep (st_heap Example.loaded_group_state) (this Example.loaded_group_state)
  ∧ lockstep
      (st_heap (UpdateGroupEntries (sorter := stable_sorter)
                  Example.broker_with_database Example.fetched
                  Example.loaded_group_state).2)
      (this (UpdateGroupEntries (sorter := stable_sorter)
               Example.broker_with_database Example.fetched
               Example.loaded_group_state).2).
Proof.
  split; [exact example_lockstep|].
  exact (proj1 (UpdateGroupEntries_reconciles_the_membership (sorter := stable_sorter)
                  Example.broker_with_database Example.fetched
                  Example.loaded_group_state example_sentinel_empty
                  example_keyed_all_channels example_lockstep)).
Defined.

Lemma Size_is_the_length_of_the_sequence_witness :
  lockstep (st_heap Example.loaded_group_state) (this Example.loaded_group_state)
  ∧ Size (this Example.loaded_group_state)
    = length (GetMembers Example.loaded_group_state ALL).
Proof.
  split; [exact example_lockstep|].
  exact (proj1 (Size_is_the_length_of_the_sequence Example.loaded_group_state
                  example_lockstep)).
Defined.


(** ** Sorting, and loading without synchronisation *)

Section SortingAndLoading.

Context {sorter : StdSort}.
Variable broker : CServiceBroker.

(** X28: [Sort()] leaves a group flagged to prevent sorting as it is.
    Otherwise it permutes the sequence, and nothing else, so that no
    member is followed by one that compares less: by priority, backend
    number and name when the group caches that the backend order is in
    use, by group number otherwise. *)
Theorem Sort_orders_the_sequence (s : State) :
  (PreventSortAndRenumber (this s) = true → Sort s = s)
  ∧ (PreventSortAndRenumber (this s) = false →
     StronglySorted
       (not_after (if m_bUsingBackendChannelOrder (this s)
                   then sortByClientChannelNumber (st_heap s)
                   else sortByChannelNumber (st_heap s)))
       (m_sortedMembers (this (Sort s))))
  ∧ m_sortedMembers (this (Sort s)) ≡ₚ m_sortedMembers (this s)
  ∧ Sort s = upd s (st_heap s) (m_sortedMembers (this (Sort s))) (m_members (this s)).
Proof.
  split; [apply Sort_prevented|]. split.
  - intros Hp. rewrite Sort_unprevented by done.
    apply (std_sort_sorted (active_comparison s)), active_comparison_swo.
  - destruct (Sort_upd s) as (l & Hl & ->). by split.
Qed.

Lemma SortAndRenumber_empty s :
  m_sortedMembers (this s) = [] →
  SortAndRenumber broker s = (PreventSortAndRenumber (this s), s).
Proof.
  intros Hempty. unfold SortAndRenumber.
  destruct (PreventSortAndRenumber (this s)) eqn:Hp; [done|].
  assert (Sort s = s) as Hsort.
  { destruct (Sort_upd s) as (l & Hl & ->). rewrite Hempty in Hl.
    apply Permutation_nil_r in Hl. subst l. rewrite <- Hempty. apply upd_same. }
  rewrite Hsort, Renumber_unprevented by done. cbv zeta. rewrite Hempty.
  cbn [Renumber_loop fst snd]. by rewrite with_heap_same, Hsort.
Qed.

(** X29: When the group is user defined, or groups are not synchronised with
    the backends, [Load] fetches nothing: it returns [true], marks the
    group loaded, leaves the caller's list as it is and has no effect on
    the collaborators.  A group without a valid id, or without a database
    at hand, is then simply the empty loaded group with the live policy. *)
Theorem Load_without_synchronisation
    (database_Get : DatabaseGet) (channelsToRemove : list CPVRChannel) (s : State) :
  GroupType (this s) = PVR_GROUP_TYPE_USER_DEFINED
  ∨ SETTING_PVRMANAGER_SYNCCHANNELGROUPS (GetSettings broker) = false →
  let r := Load broker database_Get channelsToRemove s in
  let settings := GetSettings broker in
  let s1 := with_this (Unload s)
              (with_policy (this (Unload s))
                 (SETTING_PVRMANAGER_SYNCCHANNELGROUPS settings)
                 (SETTING_PVRMANAGER_BACKENDCHANNELORDER settings)
                 (UsingBackendChannelNumbers broker settings)
                 (SETTING_PVRMANAGER_STARTGROUPCHANNELNUMBERSFROMONE settings
                  && negb (UsingBackendChannelNumbers broker settings))) in
  r.1 = (true, channelsToRemove)
  ∧ m_bLoaded (this (r.2)) = true
  ∧ st_trace (r.2) = st_trace s
  ∧ (m_iGroupId (this s) ≤ 0 ∨ GetTVDatabase broker = None →
     r.2 = with_this s1 (with_bLoaded (this s1) true)).
Proof.
  intros Hquiet. cbv zeta. unfold Load.
  set (s1 := with_this (Unload s) _).
  set (r2 := if 0 <? m_iGroupId (this s1) then LoadFromDb broker database_Get s1
             else (0, s1)).
  assert (GroupType (this (r2.2)) = GroupType (this s)
          ∧ st_trace (r2.2) = st_trace s
          ∧ (m_iGroupId (this s) ≤ 0 ∨ GetTVDatabase broker = None → r2.2 = s1))
    as (Htype & Htrace & Hsame).
  { unfold r2. change (m_iGroupId (this s1)) with (m_iGroupId (this s)).
    destruct (Z.ltb_spec 0 (m_iGroupId (this s))) as [Hid|Hid]; [|done].
    unfold LoadFromDb. destruct (GetTVDatabase broker) as [db|]; [|done].
    destruct (database_Get _ _) as [[h l] m]. cbn [snd].
    split; [done|]. split; [done|]. intros [?|?]; [lia|done]. }
  destruct r2 as [iChannelCount s2]. cbn [snd] in *.
  unfold Update. rewrite Htype.
  assert ((GroupType (this s) =? PVR_GROUP_TYPE_USER_DEFINED)
          || negb (SETTING_PVRMANAGER_SYNCCHANNELGROUPS (GetSettings broker)) = true)
    as ->.
  { destruct Hquiet as [->| ->]; [done|apply orb_true_r]. }
  cbn [negb fst snd this with_this st_trace]. rewrite SortAndRenumber_trace.
  split; [done|]. split; [done|]. split; [done|].
  intros Hnew. rewrite (Hsame Hnew). by rewrite SortAndRenumber_empty.
Qed.

End SortingAndLoading.

Lemma Load_without_synchronisation_witness :
  GroupType (this Example.user_defined_state) = PVR_GROUP_TYPE_USER_DEFINED
  ∧ (Load (sorter := stable_sorter) Example.broker_with_database
       (λ h g, (h, m_sortedMembers g, m_members g)) [] Example.user_defined_state).1
    = (true, []).
Proof.
  split; [reflexivity|].
  exact (proj1 (Load_without_synchronisation (sorter := stable_sorter)
                  Example.broker_with_database
                  (λ h g, (h, m_sortedMembers g, m_members g)) []
                  Example.user_defined_state (or_introl eq_refl))).
Defined.

(** ** What the value returned by Renumber means, exactly *)

Section ReturnValueExactly.

Context {sorter : StdSort}.
Variable broker : CServiceBroker.

(** The member at [q] has another group number or backend number in [h']
    than in [h]. *)
Definition renumbered (h h' : list Member.t) (q : nat) : Prop :=
  Member.ChannelNumber (deref h' q) ≠ Member.ChannelNumber (deref h q)
  ∨ Member.ClientChannelNumber (deref h' q) ≠ Member.ClientChannelNumber (deref h q).

Lemma Renumber_loop_reports bU bS mode g l : ∀ h i b,
  loop_ready g h l →
  let r := Renumber_loop bU bS mode g l (h, i, b) in
  r.2 = true ↔ b = true ∨ ∃ q, q ∈ l ∧ renumbered h r.1.1 q.
Proof.
  induction l as [|q l IH]; intros h i b Hready; cbn [Renumber_loop].
  - cbn. split; [by left|]. intros [?|(q & Hq & _)]; [done|].
    by apply elem_of_nil in Hq.
  - destruct (loop_ready_cons _ _ _ _ Hready)
      as (Halloc & Hu & Hne & Hall & Hq & Hready').
    pose proof (Renumber_step_ready bU bS mode g q h i b Halloc Hu)
      as (_ & Hdq & Hother & Hlen).
    cbv zeta in Hdq, Hother, Hlen.
    assert (∀ p, Member.Channel
                   (deref (Renumber_step bU bS mode g q (h, i, b)).1.1 p)
                 = Member.Channel (deref h p)) as Hch.
    { intros p. destruct (decide (p = q)) as [->|Hp].
      - by rewrite Hdq, assign_channel.
      - by rewrite Hother. }
    revert Hdq Hother Hlen Hch. rewrite Renumber_step_values. cbv zeta.
    set (v := Renumber_values bU bS mode g h q i).
    destruct (_ || _) eqn:Hchanged; cbn [fst snd]; intros Hdq Hother Hlen Hch.
    + set (h' := Renumber_write g h q v.1.1 v.1.2) in *.
      assert (loop_ready g h' l) as Hready1
        by by apply (loop_ready_same_channels g h).
      destruct (Renumber_loop_members bU bS mode g l h' v.2 true Hready1)
        as (_ & Hframe & _).
      rewrite Renumber_loop_reports_true. split; [intros _|done].
      right. exists q. split; [by left|]. unfold renumbered.
      rewrite Hframe, Hdq, assign_number, assign_client by done.
      apply orb_true_iff in Hchanged as [Hn|Hn]; [left|right];
        unfold number_neb in Hn; apply negb_true_iff in Hn;
        intros Heq; rewrite Heq, (proj2 (number_eqb_eq _ _)) in Hn; done.
    + destruct (Renumber_loop_members bU bS mode g l h v.2 b Hready')
        as (_ & Hframe & _).
      rewrite (IH h v.2 b Hready'). split.
      * intros [?|(x & Hx & Hr)]; [by left|]. right. exists x. split; [by right|done].
      * intros [?|(x & [->|Hx]%elem_of_cons & Hr)]; [by left| |].
        -- exfalso. unfold renumbered in Hr. rewrite Hframe in Hr by done.
           by destruct Hr.
        -- right. by exists x.
Qed.

(** X30: On a ready group that is not flagged to prevent it, [Renumber(mode)]
    and [SortAndRenumber()] return [true] exactly when some member of the
    group ends with another group number or backend number than it had.
    A change of the order alone is not reported. *)
Theorem Renumber_returns_whether_a_number_changed (mode : RenumberMode) (s : State) :
  renumber_ready (st_heap s) (this s) →
  PreventSortAndRenumber (this s) = false →
  ∀ r, r = Renumber broker mode s ∨ r = SortAndRenumber broker s →
  r.1 = true ↔
  ∃ q, q ∈ m_sortedMembers (this s) ∧ renumbered (st_heap s) (st_heap (r.2)) q.
Proof.
  intros Hready Hprevent r Hr.
  assert (∀ mode' s', renumber_ready (st_heap s') (this s') →
            PreventSortAndRenumber (this s') = false →
            (Renumber broker mode' s').1 = true ↔
            ∃ q, q ∈ m_sortedMembers (this s')
                 ∧ renumbered (st_heap s') (st_heap (Renumber broker mode' s').2) q)
    as Hrenumber.
  { intros mode' s' Hready' Hprevent'.
    pose proof (renumber_ready_loop_ready _ _ Hready') as Hloop.
    rewrite Renumber_unprevented by done. cbv zeta.
    set (loop := Renumber_loop _ _ _ _ _ _). cbn [fst snd].
    destruct (Sort_upd (with_heap s' loop.1.1)) as (l & _ & ->).
    cbn [st_heap upd]. unfold loop. rewrite Renumber_loop_reports by done.
    split; [by intros [?|?]|by right]. }
  destruct Hr as [->| ->]; [by apply Hrenumber|].
  unfold SortAndRenumber. rewrite Hprevent.
  destruct (Sort_ready s Hready) as (l & Hl & -> & Hready').
  rewrite (Hrenumber NORMAL _ Hready' Hprevent). cbn [st_heap this upd m_sortedMembers
    with_members with_sortedMembers].
  split; intros (q & Hq & Hchanged); exists q; (split; [|done]).
  - by rewrite <- Hl.
  - by rewrite Hl.
Qed.

End ReturnValueExactly.

Lemma Renumber_returns_whether_a_number_changed_witness :
  (SortAndRenumber (sorter := stable_sorter) broker_from_one
     Example.loaded_group_state).1 = true
  ∧ ∃ q, q ∈ m_sortedMembers (this Example.loaded_group_state)
         ∧ renumbered (st_heap Example.loaded_group_state)
             (st_heap (SortAndRenumber (sorter := stable_sorter) broker_from_one
                         Example.loaded_group_state).2) q.
Proof.
  assert ((SortAndRenumber (sorter := stable_sorter) broker_from_one
             Example.loaded_group_state).1 = true) as Hreturned by by vm_compute.
  split; [exact Hreturned|].
  apply (Renumber_returns_whether_a_number_changed (sorter := stable_sorter)
           broker_from_one NORMAL Example.loaded_group_state example_renumber_ready
           eq_refl _ (or_intror eq_refl)).
  exact Hreturned.
Defined.
